(** * microbot skill scripts: [sysinfo.py] and [time.py]

    A shallow embedding of the two command-line scripts under
    [src/extensions/skill/*/scripts] and the properties their
    specification states about them.

    Conventions.
    - A Python [str] is a [string] holding its UTF-8 bytes.  Every pattern
      the scripts search for is ASCII, and UTF-8 never places an ASCII byte
      inside a multi-byte character, so searching bytes and searching code
      points agree.
    - A Python [int] is a [Z].  A finite Python [float] is the rational it
      denotes, a [Q]; NaN and the infinities do not occur in the data the
      scripts handle.
    - What the scripts obtain from the interpreter's libraries or from the
      host (psutil, the clock, the timezone database, the date parsers) is
      a field of a record passed to the embedded function.
    - The interpreter is CPython 3.11 on Linux: [int] refuses literals
      of more than 4300 digits and knows the digits of Unicode 14.0, and
      [strftime] is the one of glibc, which prints [%Y] without
      padding. *)

From Stdlib Require Import ZArith QArith Qround Bool List Lia.
From Stdlib Require Import Strings.Ascii Strings.String.
From Stdlib Require Import Numbers.DecimalString Numbers.DecimalPos.
From Stdlib Require Numbers.DecimalFacts.
From Stdlib Require Import Sorting.Sorted Sorting.Permutation.
Import ListNotations.

Local Open Scope string_scope.
Local Open Scope Z_scope.

(* ================================================================= *)
(** ** Python strings *)

Module PyStr.

(** [str(z)] for an [int]. *)
Definition str_of_Z (z : Z) : string :=
  NilEmpty.string_of_int (Z.to_int z).

Fixpoint repeat_char (c : ascii) (n : nat) : string :=
  match n with
  | O => EmptyString
  | S k => String c (repeat_char c k)
  end.

(** [s.zfill(width)] for a string [s] without sign; it is what the format
    specs [:02d] and [:03d] do to a non-negative number. *)
Definition zfill (width : nat) (s : string) : string :=
  repeat_char "0" (width - String.length s) ++ s.

Definition is_digit (c : ascii) : bool :=
  let n := nat_of_ascii c in (Nat.leb 48 n && Nat.leb n 57)%bool.

Fixpoint all_digits (s : string) : bool :=
  match s with
  | EmptyString => true
  | String c r => (is_digit c && all_digits r)%bool
  end.

(** [s.replace(old, new)]: scan [s] from the left; wherever [old] starts,
    emit [new] and jump over the occurrence (occurrences never overlap).
    [skip] counts the characters of a matched occurrence still to jump
    over. *)
Fixpoint replace_from (old new : string) (skip : nat) (s : string) : string :=
  match s with
  | EmptyString =>
      match old with EmptyString => new | _ => EmptyString end
  | String c rest =>
      match skip with
      | S k => replace_from old new k rest
      | O =>
          if String.prefix old s
          then
            match old with
            | EmptyString => new ++ String c (replace_from old new 0 rest)
            | _ => new ++ replace_from old new (String.length old - 1) rest
            end
          else String c (replace_from old new 0 rest)
      end
  end.

Definition replace (old new s : string) : string :=
  replace_from old new 0 s.

End PyStr.

(* ================================================================= *)
(** ** Python floats that come from integers *)

Module PyFloat.

(** Nearest integer to [a / b], ties to the even neighbour ([0 < b]). *)
Definition round_half_even (a b : Z) : Z :=
  let q := a / b in
  let r := a mod b in
  if 2 * r <? b then q
  else if b <? 2 * r then q + 1
  else if Z.even q then q else q + 1.

(** [2^e] split into an integer numerator and denominator: [pow2_pos e]
    is [2^e] when [0 <= e] and [1] otherwise, [pow2_neg e] is [2^-e] when
    [e <= 0] and [1] otherwise. *)
Definition pow2_pos (e : Z) : Z := 2 ^ Z.max 0 e.
Definition pow2_neg (e : Z) : Z := 2 ^ Z.max 0 (- e).

(** The binary exponent [t] of the quotient [m / b] of two positive
    ints: [2^t <= m / b < 2^(t+1)]. *)
Definition quotient_exponent (m b : Z) : Z :=
  let t := Z.log2 m - Z.log2 b in
  if m * pow2_neg t <? b * pow2_pos t then t - 1 else t.

(** [a / b] on two ints ([0 < b]): the double nearest to the exact
    quotient, ties to even.  A double is [sig * 2^e] with a significand
    [sig] of 53 bits, so [e] is the exponent of the quotient less 52 and
    [sig] is the quotient scaled by [2^-e] and rounded.  (Quotients
    beyond the range of normal doubles, below [2^-1022] or from [2^1024]
    on, are not described.) *)
Definition truediv (a b : Z) : Q :=
  if a =? 0 then 0%Q
  else
    let m := Z.abs a in
    let e := quotient_exponent m b - 52 in
    let sig := round_half_even (m * pow2_neg e) (b * pow2_pos e) in
    Qmake (Z.sgn a * sig * pow2_pos e) (Z.to_pos (pow2_neg e)).

(** [x + y] on two floats: the double nearest to the exact sum. *)
Definition fadd (x y : Q) : Q :=
  let s := Qplus x y in truediv (Qnum s) (Zpos (Qden s)).

(** [int(x)]: truncation towards zero. *)
Definition int_of_float (x : Q) : Z := Z.quot (Qnum x) (Zpos (Qden x)).

(** The number of hundredths [f"{x:.2f}"] prints for [0 <= x]: the exact
    value of [x] rounded to two decimals, ties to even. *)
Definition hundredths (x : Q) : Z :=
  round_half_even (Qnum x * 100) (Zpos (Qden x)).

Definition fixed2 (h : Z) : string :=
  PyStr.str_of_Z (h / 100) ++ "." ++ PyStr.zfill 2 (PyStr.str_of_Z (h mod 100)).

(** [f"{x:.2f}"]. A negative [x] prints the sign and then its magnitude. *)
Definition format_2f (x : Q) : string :=
  if Qle_bool 0 x then fixed2 (hundredths x)
  else "-" ++ fixed2 (hundredths (Qopp x)).

End PyFloat.

(* ================================================================= *)
(** ** sysinfo.py *)

Module SysInfo.
Import PyStr PyFloat.

(** *** What psutil and [platform] report *)

Record partition := { device : string; mountpoint : string }.

Record usage := { total : Z; used : Z; free : Z; percent : Q }.

Record snic := { family : Z; address : string; netmask : option string }.

Record svmem := { m_total : Z; m_used : Z; m_available : Z; m_percent : Q }.

(** The [info] dict of a process.  [None] in a field is a key that is
    absent or whose value is Python's [None]. *)
Record proc_info := {
  pid : Z;
  name : option string;
  cpu_percent : option Q;
  memory_percent : option Q
}.

(** The host as the script sees it.  A query that can raise returns
    [None] when it does. *)
Record Host := {
  float_str : Q -> string;                 (* str() of a float *)
  platform_system : string;
  platform_machine : string;
  platform_node : string;
  platform_python_version : string;
  boot_time : Q;
  cpu_count_logical : option Z;
  cpu_count_physical : option Z;
  cpu_percent_1s : Q;
  getloadavg : option (Q * Q * Q);         (* None: psutil lacks getloadavg *)
  virtual_memory : svmem;
  disk_partitions : list partition;
  disk_usage : string -> option usage;     (* None: the query raises *)
  net_if_addrs : list (string * list snic);
  process_iter : list (option proc_info)   (* None: reading [info] raises *)
}.

(** *** format_bytes *)

(** [gb] is [bytes / 1024**3]; both quotients are printed with [:.2f]. *)
Definition format_bytes (bytes : Z) : string :=
  let gb := truediv bytes (1024 ^ 3) in
  if Qle_bool 1 gb then format_2f gb ++ " GB"
  else format_2f (truediv bytes (1024 ^ 2)) ++ " MB".

(** *** The section collectors *)

Record cpu_info := {
  cores : option Z;
  physical_cores : option Z;
  cpu_usage : string;
  loadavg : option (list Q)
}.

Definition get_cpu_info (h : Host) : cpu_info :=
  {| cores := cpu_count_logical h;
     physical_cores := cpu_count_physical h;
     cpu_usage := float_str h (cpu_percent_1s h) ++ "%";
     loadavg :=
       match getloadavg h with
       | Some (a, b, c) => Some [a; b; c]
       | None => None
       end |}.

Record mem_info := {
  mem_total : string; mem_used : string; mem_free : string; mem_usage : string
}.

Definition get_mem_info (h : Host) : mem_info :=
  let mem := virtual_memory h in
  {| mem_total := format_bytes (m_total mem);
     mem_used := format_bytes (m_used mem);
     mem_free := format_bytes (m_available mem);
     mem_usage := float_str h (m_percent mem) ++ "%" |}.

Record disk_entry := {
  d_device : string;
  d_mountpoint : string;
  d_total : string;
  d_used : string;
  d_free : string;
  d_usage : string
}.

Definition disk_row (h : Host) (p : partition) (u : usage) : disk_entry :=
  {| d_device := device p;
     d_mountpoint := mountpoint p;
     d_total := format_bytes (total u);
     d_used := format_bytes (used u);
     d_free := format_bytes (free u);
     d_usage := float_str h (percent u) ++ "%" |}.

(** One turn of the loop of [get_disk_info]: the [try] body appends a
    row, the bare [except] leaves [disks] as it was. *)
Definition disk_step (h : Host) (disks : list disk_entry) (p : partition)
  : list disk_entry :=
  match disk_usage h (mountpoint p) with
  | Some u => (disks ++ [disk_row h p u])%list
  | None => disks
  end.

Definition get_disk_info (h : Host) : list disk_entry :=
  fold_left (disk_step h) (disk_partitions h) [].

Record net_entry := {
  n_interface : string; n_ip : string; n_netmask : option string
}.

Definition get_network_info (h : Host) : list net_entry :=
  flat_map
    (fun '(ifname, addrs) =>
       flat_map
         (fun addr =>
            if family addr =? 2
            then [ {| n_interface := ifname; n_ip := address addr;
                      n_netmask := netmask addr |} ]
            else [])
         addrs)
    (net_if_addrs h).

(** *** list.sort *)

Section ListSort.
Context {A : Type} (key : A -> Q).

(** [key x < key y], the only comparison [list.sort] makes. *)
Definition key_lt (x y : A) : bool := negb (Qle_bool (key y) (key x)).

(** Put [x], which preceded every element of the sorted [l] in the
    input, in front of the first element that is not smaller. *)
Fixpoint insert (x : A) (l : list A) : list A :=
  match l with
  | [] => [x]
  | y :: l' => if key_lt y x then y :: insert x l' else x :: l
  end.

(** The one stable ascending arrangement of [l]. *)
Definition sort_stable (l : list A) : list A := fold_right insert [] l.

(** [l.sort(key=key, reverse=reverse)]: with [reverse] CPython reverses
    the list, sorts it stably and reverses it again.  (CPython's stable
    sort is another algorithm; what a stable sort returns does not depend
    on the algorithm, see [stable_sorted_unique].) *)
Definition list_sort (reverse : bool) (l : list A) : list A :=
  if reverse then rev (sort_stable (rev l)) else sort_stable l.
End ListSort.

(** *** get_process_info *)

(** One turn of the collecting loop. *)
Definition process_step (processes : list proc_info) (p : option proc_info)
  : list proc_info :=
  match p with
  | Some info => (processes ++ [info])%list
  | None => processes
  end.

(** [x.get('memory_percent', 0) or 0] *)
Definition memory_key (x : proc_info) : Q :=
  match memory_percent x with
  | Some q => if Qeq_bool q 0 then 0%Q else q
  | None => 0%Q
  end.

(** [l[:stop]]: the items before index [stop]; a negative [stop] counts
    from the end. *)
Definition slice_to {A : Type} (stop : Z) (l : list A) : list A :=
  if stop <? 0 then firstn (Z.to_nat (Z.of_nat (List.length l) + stop)) l
  else firstn (Z.to_nat stop) l.

Definition get_process_info (h : Host) (top : Z) : list proc_info :=
  let processes := fold_left process_step (process_iter h) [] in
  let processes := list_sort memory_key true processes in
  slice_to top processes.

Definition default_top : Z := 10.

Record sys_info := {
  s_platform : string; s_arch : string; s_hostname : string;
  s_uptime : string; s_python : string
}.

Definition get_sys_info (h : Host) : sys_info :=
  {| s_platform := platform_system h;
     s_arch := platform_machine h;
     s_hostname := platform_node h;
     s_uptime := str_of_Z (int_of_float (boot_time h));
     s_python := platform_python_version h |}.

(** *** main: building the report *)

(** The values argparse admits for [--type]. *)
Inductive info_type := Tcpu | Tmem | Tdisk | Tnetwork | Tprocess | Tsys | Tall.

Definition info_type_eqb (a b : info_type) : bool :=
  match a, b with
  | Tcpu, Tcpu | Tmem, Tmem | Tdisk, Tdisk | Tnetwork, Tnetwork
  | Tprocess, Tprocess | Tsys, Tsys | Tall, Tall => true
  | _, _ => false
  end.

(** [t in [a, b]] *)
Definition type_in (t : info_type) (l : list info_type) : bool :=
  existsb (info_type_eqb t) l.

Inductive section :=
| SysSection (i : sys_info)
| CpuSection (i : cpu_info)
| MemSection (i : mem_info)
| DiskSection (l : list disk_entry)
| NetSection (l : list net_entry)
| ProcSection (l : list proc_info).

(** A [dict] keeps its keys in insertion order; [d[k] = v] overwrites the
    value of a key that is present and appends a new key otherwise. *)
Definition report := list (string * section).

Fixpoint dict_set (d : report) (k : string) (v : section) : report :=
  match d with
  | [] => [(k, v)]
  | (k', v') :: d' =>
      if String.eqb k' k then (k', v) :: d' else (k', v') :: dict_set d' k v
  end.

Definition keys (d : report) : list string := map fst d.

Definition label_sys := "系统".
Definition label_cpu := "CPU".
Definition label_mem := "内存".
Definition label_disk := "磁盘".
Definition label_net := "网络".
Definition label_proc := "进程".

(** Lines 102-115 of [main]: the dict [result] for the parsed [--type]. *)
Definition main_result (h : Host) (type : info_type) : report :=
  let result := [] in
  let result :=
    if type_in type [Tall; Tsys]
    then dict_set result label_sys (SysSection (get_sys_info h)) else result in
  let result :=
    if type_in type [Tall; Tcpu]
    then dict_set result label_cpu (CpuSection (get_cpu_info h)) else result in
  let result :=
    if type_in type [Tall; Tmem]
    then dict_set result label_mem (MemSection (get_mem_info h)) else result in
  let result :=
    if type_in type [Tall; Tdisk]
    then dict_set result label_disk (DiskSection (get_disk_info h)) else result in
  let result :=
    if type_in type [Tall; Tnetwork]
    then dict_set result label_net (NetSection (get_network_info h)) else result in
  let result :=
    if info_type_eqb type Tprocess
    then dict_set result label_proc
           (ProcSection (get_process_info h default_top))
    else result in
  result.

End SysInfo.

(* ================================================================= *)
(** ** Outcomes of a call *)

Inductive exn :=
| TypeError | ValueError | OverflowError | OSError | ZoneInfoNotFoundError.

(** A call returns a value or raises.  [Unspecified] marks the calls
    this development does not describe: [strftime] on a directive other
    than those the script writes. *)
Inductive outcome (A : Type) :=
| Return (a : A)
| Raise (e : exn)
| Unspecified.

Arguments Return {A} a.
Arguments Raise {A} e.
Arguments Unspecified {A}.

Definition bind {A B : Type} (m : outcome A) (k : A -> outcome B) : outcome B :=
  match m with
  | Return a => k a
  | Raise e => Raise e
  | Unspecified => Unspecified
  end.

Notation "x <- m ;; k" := (bind m (fun x => k))
  (at level 61, m at next level, right associativity).

(* ================================================================= *)
(** ** The builtin [int] on strings *)

Module PyInt.
Import PyStr.

(** The ASCII characters [int] skips around a literal: tab, line feed,
    vertical tab, form feed, carriage return and space. *)
Definition is_space (c : ascii) : bool :=
  let n := nat_of_ascii c in
  ((Nat.leb 9 n && Nat.leb n 13) || Nat.eqb n 32)%bool.

Fixpoint lstrip (s : string) : string :=
  match s with
  | String c r => if is_space c then lstrip r else s
  | EmptyString => EmptyString
  end.

Fixpoint rstrip (s : string) : string :=
  match s with
  | String c r =>
      match rstrip r with
      | EmptyString => if is_space c then EmptyString else String c EmptyString
      | r' => String c r'
      end
  | EmptyString => EmptyString
  end.

Definition digit_value (c : ascii) : Z := Z.of_nat (nat_of_ascii c) - 48.

(** Decimal digits, where one underscore may stand between two digits.
    [after_digit] tells whether the character just read was a digit. *)
Fixpoint digits (acc : Z) (after_digit : bool) (s : string) : option Z :=
  match s with
  | EmptyString => if after_digit then Some acc else None
  | String c r =>
      if is_digit c then digits (acc * 10 + digit_value c) true r
      else if Ascii.eqb c "_"
           then if after_digit then digits acc false r else None
           else None
  end.

Fixpoint is_ascii (s : string) : bool :=
  match s with
  | EmptyString => true
  | String c r => (Nat.ltb (nat_of_ascii c) 128 && is_ascii r)%bool
  end.

(** The literal between the spaces: an optional sign and the digits. *)
Definition literal (s : string) : option Z :=
  match s with
  | String "+" r => digits 0 false r
  | String "-" r => option_map Z.opp (digits 0 false r)
  | t => digits 0 false t
  end.

(** The interpreter refuses to convert a literal of more than 4300
    digits ([sys.get_int_max_str_digits()], which the script leaves at
    its default); signs, underscores and spaces do not count, leading
    zeros do. *)
Definition MAX_STR_DIGITS : nat := 4300.

Fixpoint digit_count (s : string) : nat :=
  match s with
  | EmptyString => O
  | String c r => if is_digit c then S (digit_count r) else digit_count r
  end.

(** [int] on ASCII text: the spaces around the literal are skipped, and
    text that is no literal, or one too long, raises [ValueError]. *)
Definition parse (s : string) : outcome Z :=
  let t := rstrip (lstrip s) in
  match literal t with
  | Some n =>
      if Nat.ltb MAX_STR_DIGITS (digit_count t) then Raise ValueError
      else Return n
  | None => Raise ValueError
  end.

(** *** Text beyond ASCII

    A [str] with a character beyond ASCII is first rewritten: a decimal
    digit of any script becomes the ASCII digit of its value, white
    space becomes a space, ASCII characters stay, and any other
    character makes the conversion fail. *)

Definition byte (c : ascii) : Z := Z.of_nat (nat_of_ascii c).

(** The six bits a continuation byte of UTF-8 carries. *)
Definition continuation (c : ascii) : option Z :=
  let b := byte c in
  if (128 <=? b) && (b <? 192) then Some (b - 128) else None.

(** The white space beyond ASCII ([str.isspace]). *)
Definition unicode_space (cp : Z) : bool :=
  (cp =? 133) || (cp =? 160) || (cp =? 5760)
  || ((8192 <=? cp) && (cp <=? 8202))
  || (cp =? 8232) || (cp =? 8233) || (cp =? 8239) || (cp =? 8287)
  || (cp =? 12288).

(** The code points of the digit zero in the scripts of Unicode 14.0,
    the version of Python 3.11; the digits one to nine follow each. *)
Definition DECIMAL_ZEROS : list Z :=
  [1632; 1776; 1984; 2406; 2534; 2662; 2790; 2918; 3046; 3174; 3302; 3430;
   3558; 3664; 3792; 3872; 4160; 4240; 6112; 6160; 6470; 6608; 6784; 6800;
   6992; 7088; 7232; 7248; 42528; 43216; 43264; 43472; 43504; 43600; 44016;
   65296; 66720; 68912; 69734; 69872; 69942; 70096; 70384; 70736; 70864;
   71248; 71360; 71472; 71904; 72016; 72784; 73040; 73120; 92768; 92864;
   93008; 120782; 120792; 120802; 120812; 120822; 123200; 123632; 125264;
   130032].

(** [unicodedata.decimal] *)
Definition decimal (cp : Z) : option Z :=
  match find (fun z => (z <=? cp) && (cp <? z + 10)) DECIMAL_ZEROS with
  | Some z => Some (cp - z)
  | None => None
  end.

(** What a character beyond ASCII is rewritten to. *)
Definition transform (cp : Z) : option ascii :=
  if unicode_space cp then Some " "%char
  else
    match decimal cp with
    | Some d => Some (ascii_of_nat (Z.to_nat (48 + d)))
    | None => None
    end.

Definition rewritten (cp : Z) (rest : option string) : option string :=
  match transform cp, rest with
  | Some a, Some r => Some (String a r)
  | _, _ => None
  end.

(** The rewriting of a whole text, read as UTF-8.  Bytes that are no
    UTF-8 reach the script as lone surrogates, which are neither digits
    nor spaces. *)
Fixpoint to_ascii (s : string) : option string :=
  match s with
  | EmptyString => Some EmptyString
  | String c0 r0 =>
      let b0 := byte c0 in
      if b0 <? 128 then option_map (String c0) (to_ascii r0)
      else
        match r0 with
        | EmptyString => None
        | String c1 r1 =>
            match continuation c1 with
            | None => None
            | Some x1 =>
                if (194 <=? b0) && (b0 <? 224)
                then rewritten ((b0 - 192) * 64 + x1) (to_ascii r1)
                else
                  match r1 with
                  | EmptyString => None
                  | String c2 r2 =>
                      match continuation c2 with
                      | None => None
                      | Some x2 =>
                          if (224 <=? b0) && (b0 <? 240)
                          then
                            let cp := (b0 - 224) * 4096 + x1 * 64 + x2 in
                            if (2048 <=? cp) && negb ((55296 <=? cp) && (cp <=? 57343))
                            then rewritten cp (to_ascii r2)
                            else None
                          else
                            match r2 with
                            | EmptyString => None
                            | String c3 r3 =>
                                match continuation c3 with
                                | None => None
                                | Some x3 =>
                                    let cp :=
                                      (b0 - 240) * 262144 + x1 * 4096 + x2 * 64 + x3 in
                                    if (240 <=? b0) && (b0 <? 245)
                                       && (65536 <=? cp) && (cp <=? 1114111)
                                    then rewritten cp (to_ascii r3)
                                    else None
                                end
                            end
                      end
                  end
            end
        end
  end.

(** [int(s)] in base ten. *)
Definition int (s : string) : outcome Z :=
  if is_ascii s then parse s
  else
    match to_ascii s with
    | Some t => parse t
    | None => Raise ValueError
    end.

End PyInt.

(* ================================================================= *)
(** ** The [datetime] module *)

Module PyDatetime.
Import PyStr PyFloat.

(** The calendar fields of a [datetime]. *)
Record naive := {
  year : Z; month : Z; day : Z;
  hour : Z; minute : Z; second : Z; microsecond : Z
}.

(** A [datetime]: naive when [tzinfo] is [None], else aware with the
    given [utcoffset()] in seconds. *)
Record datetime := { fields : naive; tzinfo : option Z }.

Definition naive_datetime (f : naive) : datetime :=
  {| fields := f; tzinfo := None |}.

Definition is_leap (y : Z) : bool :=
  ((y mod 4 =? 0) && (negb (y mod 100 =? 0) || (y mod 400 =? 0)))%bool.

Definition days_before_year (y : Z) : Z :=
  let y := y - 1 in y * 365 + y / 4 - y / 100 + y / 400.

Definition days_in_month (y m : Z) : Z :=
  if m =? 2 then (if is_leap y then 29 else 28)
  else if (m =? 4) || (m =? 6) || (m =? 9) || (m =? 11) then 30
  else 31.

(** [_DAYS_BEFORE_MONTH] *)
Definition DAYS_BEFORE_MONTH (m : Z) : Z :=
  nth (Z.to_nat m) [0; 0; 31; 59; 90; 120; 151; 181; 212; 243; 273; 304; 334] 0.

Definition DAYS_IN_MONTH (m : Z) : Z :=
  nth (Z.to_nat m) [0; 31; 28; 31; 30; 31; 30; 31; 31; 30; 31; 30; 31] 0.

Definition days_before_month (y m : Z) : Z :=
  DAYS_BEFORE_MONTH m + (if (2 <? m) && is_leap y then 1 else 0).

(** Proleptic Gregorian ordinal, 0001-01-01 being day 1. *)
Definition ymd2ord (y m d : Z) : Z :=
  days_before_year y + days_before_month y m + d.

Definition DI400Y := 146097.
Definition DI100Y := 36524.
Definition DI4Y := 1461.

Definition ord2ymd (n : Z) : Z * Z * Z :=
  let n := n - 1 in
  let n400 := n / DI400Y in
  let n := n mod DI400Y in
  let y := n400 * 400 + 1 in
  let n100 := n / DI100Y in
  let n := n mod DI100Y in
  let n4 := n / DI4Y in
  let n := n mod DI4Y in
  let n1 := n / 365 in
  let n := n mod 365 in
  let y := y + n100 * 100 + n4 * 4 + n1 in
  if (n1 =? 4) || (n100 =? 4) then (y - 1, 12, 31)
  else
    let leapyear := (n1 =? 3) && (negb (n4 =? 24) || (n100 =? 3)) in
    let m := Z.shiftr (n + 50) 5 in
    let preceding :=
      DAYS_BEFORE_MONTH m + (if (2 <? m) && leapyear then 1 else 0) in
    if n <? preceding then
      let m := m - 1 in
      let preceding :=
        preceding
        - (DAYS_IN_MONTH m + (if (m =? 2) && leapyear then 1 else 0)) in
      (y, m, n - preceding + 1)
    else (y, m, n - preceding + 1).

Definition toordinal (f : naive) : Z := ymd2ord (year f) (month f) (day f).

(** Monday is 0. *)
Definition weekday (f : naive) : Z := (toordinal f + 6) mod 7.

Definition EPOCH_ORDINAL := 719163.
Definition MINYEAR := 1.
Definition MAXYEAR := 9999.

(** Seconds from 1970-01-01 00:00:00 to the fields read as they stand. *)
Definition wall_seconds (f : naive) : Z :=
  (toordinal f - EPOCH_ORDINAL) * 86400
  + hour f * 3600 + minute f * 60 + second f.

Definition wall_microseconds (f : naive) : Z :=
  wall_seconds f * 1000000 + microsecond f.

(** The fields that lie [secs] seconds and [us] microseconds after
    1970-01-01 00:00:00. *)
Definition of_wall (secs us : Z) : naive :=
  let days := secs / 86400 in
  let rem := secs mod 86400 in
  let '(y, m, d) := ord2ymd (days + EPOCH_ORDINAL) in
  {| year := y; month := m; day := d;
     hour := rem / 3600; minute := rem mod 3600 / 60; second := rem mod 60;
     microsecond := us |}.

Definition year_in_range (f : naive) : bool :=
  (MINYEAR <=? year f) && (year f <=? MAXYEAR).

(** *** strftime *)

Definition two_digits (z : Z) : string := zfill 2 (str_of_Z z).

(** One conversion.  The script relies on [%Y %y %m %d %H %M %S];
    everything else is left unspecified.  [%Y] is the year as glibc
    prints it, in as many digits as it has: three for the year 999. *)
Definition directive (f : naive) (c : ascii) : outcome string :=
  match c with
  | "Y"%char => Return (str_of_Z (year f))
  | "y"%char => Return (two_digits (year f mod 100))
  | "m"%char => Return (two_digits (month f))
  | "d"%char => Return (two_digits (day f))
  | "H"%char => Return (two_digits (hour f))
  | "M"%char => Return (two_digits (minute f))
  | "S"%char => Return (two_digits (second f))
  | "%"%char => Return "%"
  | _ => Unspecified
  end.

Fixpoint strftime (f : naive) (fmt : string) : outcome string :=
  match fmt with
  | EmptyString => Return EmptyString
  | String "%" EmptyString => Unspecified
  | String "%" (String c rest) =>
      s <- directive f c ;;
      r <- strftime f rest ;;
      Return (s ++ r)
  | String c rest =>
      r <- strftime f rest ;;
      Return (String c r)
  end.

(** *** Subtraction *)

(** [a - b] as a [timedelta], in microseconds.  Two naive values differ
    by their fields, two aware ones by their instants; mixing them is a
    [TypeError]. *)
Definition sub (a b : datetime) : outcome Z :=
  match tzinfo a, tzinfo b with
  | None, None =>
      Return (wall_microseconds (fields a) - wall_microseconds (fields b))
  | Some oa, Some ob =>
      Return ((wall_microseconds (fields a) - oa * 1000000)
              - (wall_microseconds (fields b) - ob * 1000000))
  | _, _ => Raise TypeError
  end.

(** The normalised attributes of [abs(td)]. *)
Definition td_days (us : Z) : Z := Z.abs us / 86400000000.
Definition td_seconds (us : Z) : Z := Z.abs us / 1000000 mod 86400.

(** [td.total_seconds() > 0]; the sign of the float is the sign of the
    microsecond count. *)
Definition td_positive (us : Z) : bool := 0 <? us.

(** *** Conversions that depend on the host's zone *)

(** A zone gives the UTC offset, in seconds, in force at an instant
    (seconds since the epoch). *)
Definition zone := Z -> Z.

Definition utc : zone := fun _ => 0.

Record LocalZone := {
  localtime_offset : zone;       (* offset at a UTC instant *)
  mktime_offset : Z -> Z         (* offset at a local wall-clock reading *)
}.

(** [dt.astimezone(tz)]; a naive [dt] is read as local time. *)
Definition astimezone (lz : LocalZone) (dt : datetime) (tz : zone)
  : outcome datetime :=
  let w := wall_seconds (fields dt) in
  let instant :=
    match tzinfo dt with
    | Some off => w - off
    | None => w - mktime_offset lz w
    end in
  let off := tz instant in
  let f := of_wall (instant + off) (microsecond (fields dt)) in
  if year_in_range f then Return {| fields := f; tzinfo := Some off |}
  else Raise OverflowError.

(** [datetime.fromtimestamp(t)]: [t] is rounded to microseconds (ties to
    even) and shown in local time; an instant outside the years
    1..9999 raises.  CPython rounds the fraction of [t] times [1e6] in
    double arithmetic; that product is exact for the arguments the
    script passes (an int, or a quotient of at least [1e9], whose
    fraction has at most 23 bits). *)
Definition fromtimestamp (lz : LocalZone) (t : Q) : outcome datetime :=
  let us := round_half_even (Qnum t * 1000000) (Zpos (Qden t)) in
  let secs := us / 1000000 in
  let f := of_wall (secs + localtime_offset lz secs) (us mod 1000000) in
  if year_in_range f then Return (naive_datetime f)
  else Raise ValueError.

(** [dt.timestamp()] for a naive [dt]: the whole seconds of the instant
    [dt] denotes in local time, as a float, plus [microsecond / 1e6].
    (The seconds are exact as a float: they stay below [2^53].) *)
Definition timestamp (lz : LocalZone) (f : naive) : Q :=
  let w := wall_seconds f in
  fadd (inject_Z (w - mktime_offset lz w)) (truediv (microsecond f) 1000000).

(** [int(dt.timestamp())] *)
Definition timestamp_int (lz : LocalZone) (f : naive) : Z :=
  int_of_float (timestamp lz f).

End PyDatetime.

(* ================================================================= *)
(** ** time.py *)

Module TimeTool.
Import PyStr PyFloat PyDatetime.

(** What the script gets from the interpreter and the host. *)
Record Runtime := {
  (** The name [ZoneInfo] after the imports at the top of the script:
      [None] when neither [zoneinfo] nor [backports.zoneinfo] loads,
      else the constructor, which raises or yields a zone. *)
  ZoneInfo : option (string -> exn + zone);
  (** [datetime.fromisoformat]; [None] when it raises. *)
  fromisoformat : string -> option datetime;
  (** [datetime.strptime(s, '%Y-%m-%d')]; [None] when it raises. *)
  strptime_ymd : string -> option naive;
  local : LocalZone;
  (** [datetime.now()], a naive local reading of the clock. *)
  now : naive
}.

Definition WEEKDAYS : list string :=
  ["星期一"; "星期二"; "星期三"; "星期四"; "星期五"; "星期六"; "星期日"].
Definition WEEKDAYS_SHORT : list string :=
  ["周一"; "周二"; "周三"; "周四"; "周五"; "周六"; "周日"].

(** [table[i]] for [0 <= i < 7]. *)
Definition index (table : list string) (i : Z) : string :=
  nth (Z.to_nat i) table EmptyString.

(** Truth value of an optional command-line string: [None] and the
    empty string are false. *)
Definition truthy (o : option string) : bool :=
  match o with
  | Some (String _ _) => true
  | _ => false
  end.

(** The string of an option that is set. *)
Definition text (o : option string) : string :=
  match o with
  | Some s => s
  | None => EmptyString
  end.

(** *** format_time *)

(** Lines 38-50: the chain of replacements that turns the format into a
    strftime template. *)
Definition format_template (f : naive) (fmt : string) : string :=
  let result := fmt in
  let result := replace "YYYY" "%Y" result in
  let result := replace "YY" "%y" result in
  let result := replace "MM" "%m" result in
  let result := replace "DD" "%d" result in
  let result := replace "HH" "%H" result in
  let result := replace "mm" "%M" result in
  let result := replace "ss" "%S" result in
  let result := replace "SSS" (zfill 3 (str_of_Z (microsecond f / 1000))) result in
  let result := replace "dddd" (index WEEKDAYS (weekday f)) result in
  let result := replace "ddd" (index WEEKDAYS_SHORT (weekday f)) result in
  let result := replace "A" (if hour f <? 12 then "AM" else "PM") result in
  let result := replace "a" (if hour f <? 12 then "am" else "pm") result in
  result.

(** Lines 31-35: the zone conversion. *)
Definition convert (rt : Runtime) (dt : datetime) (tz : option string)
  : outcome datetime :=
  match truthy tz, tz, ZoneInfo rt with
  | true, Some name, Some ctor =>
      match ctor name with
      | inr z => astimezone (local rt) dt z
      | inl e => Raise e
      end
  | true, _, None =>
      (* falls back to UTC *)
      astimezone (local rt) dt utc
  | _, _, _ => Return dt
  end.

Definition format_time (rt : Runtime) (dt : datetime) (fmt : string)
           (tz : option string) : outcome string :=
  dt <- convert rt dt tz ;;
  strftime (fields dt) (format_template (fields dt) fmt).

(** *** time_diff *)

Definition INVALID_DATE : string :=
  "无效日期格式，请使用 YYYY-MM-DD 或 YYYY-MM-DD HH:mm:ss".
Definition FUTURE : string := "距离".
Definition PAST : string := "已过去".

(** Lines 56-62: the two attempts at parsing. *)
Definition parse_target (rt : Runtime) (target_str : string) : option datetime :=
  match fromisoformat rt (replace "Z" "+00:00" target_str) with
  | Some target => Some target
  | None => option_map naive_datetime (strptime_ymd rt target_str)
  end.

(** Lines 67-82: the description of the signed distance [diff]
    (microseconds) to [target]. *)
Definition describe (target : datetime) (diff : Z) : outcome string :=
  let days := td_days diff in
  let hours := td_seconds diff / 3600 in
  let remainder := td_seconds diff mod 3600 in
  let minutes := remainder / 60 in
  let direction := if td_positive diff then FUTURE else PAST in
  stamp <- strftime (fields target) "%Y-%m-%d %H:%M:%S" ;;
  let result := direction ++ " " ++ stamp in
  let result :=
    if 0 <? days then result ++ " 还有 " ++ str_of_Z days ++ " 天"
    else result in
  let result :=
    if 0 <? hours then result ++ " " ++ str_of_Z hours ++ " 小时"
    else result in
  let result :=
    if (0 <? minutes) && (days =? 0)
    then result ++ " " ++ str_of_Z minutes ++ " 分钟"
    else result in
  Return result.

Definition time_diff (rt : Runtime) (target_str : string) : outcome string :=
  match parse_target rt target_str with
  | None => Return INVALID_DATE
  | Some target =>
      let now := naive_datetime (now rt) in
      diff <- sub target now ;;
      describe target diff
  end.

(** *** timestamp_to_date *)

Definition INVALID_TIMESTAMP : string := "无效时间戳".

(** The bare [except] turns every exception of the [try] body into the
    diagnostic. *)
Definition timestamp_to_date (rt : Runtime) (ts : string) : outcome string :=
  match PyInt.int ts with
  | Raise _ => Return INVALID_TIMESTAMP
  | Unspecified => Unspecified
  | Return ts =>
      let dt :=
        if ts <? 10 ^ 12 then fromtimestamp (local rt) (inject_Z ts)
        else fromtimestamp (local rt) (truediv ts 1000) in
      match dt with
      | Return dt => strftime (fields dt) "%Y-%m-%d %H:%M:%S"
      | Raise _ => Return INVALID_TIMESTAMP
      | Unspecified => Unspecified
      end
  end.

(** *** main *)

Record Args := {
  arg_timezone : option string;
  arg_format : string;
  arg_diff : option string;
  arg_timestamp : option string;
  arg_unix : bool
}.

Definition DEFAULT_FORMAT : string := "YYYY-MM-DD HH:mm:ss".

(** A run: the lines written to standard output, and how it ended. *)
Definition run : Type := list string * outcome unit.

(** [print(prefix + value)] followed by [k]; when computing the value
    raises, nothing is printed and the run ends there. *)
Definition print (out : list string) (prefix : string) (value : outcome string)
           (k : list string -> run) : run :=
  match value with
  | Return s => k (app out [prefix ++ s])
  | Raise e => (out, Raise e)
  | Unspecified => (out, Unspecified)
  end.

Definition done (out : list string) : run := (out, Return tt).

Definition INVALID_ZONE : string := "无效时区: ".
Definition COMMON_ZONES : string :=
  "常用时区: Asia/Shanghai, Asia/Tokyo, America/New_York, Europe/London".
Definition ZONEINFO_WARNING : string :=
  "警告: 需要安装 zoneinfo 支持 (Python 3.9+)".

(** Lines 120-128. *)
Definition print_zone (rt : Runtime) (args : Args) (out : list string) : run :=
  match truthy (arg_timezone args), arg_timezone args with
  | true, Some tz =>
      match ZoneInfo rt with
      | Some _ =>
          match format_time rt (naive_datetime (now rt)) (arg_format args) (Some tz) with
          | Return s => done (app out [tz ++ ": " ++ s])
          | Raise _ => done (app out [INVALID_ZONE ++ tz; COMMON_ZONES])
          | Unspecified => (out, Unspecified)
          end
      | None => done (app out [ZONEINFO_WARNING])
      end
  | _, _ => done out
  end.

Definition main (rt : Runtime) (args : Args) : run :=
  if arg_unix args then
    done ["当前时间戳: " ++ str_of_Z (timestamp_int (local rt) (now rt))]
  else if truthy (arg_timestamp args) then
    print [] "" (timestamp_to_date rt (text (arg_timestamp args))) done
  else if truthy (arg_diff args) then
    print [] "" (time_diff rt (text (arg_diff args))) done
  else
    let now := naive_datetime (now rt) in
    print [] "系统时间: " (format_time rt now (arg_format args) None) (fun out =>
    let utc_line (k : list string -> run) :=
      if negb (truthy (arg_timezone args)) && String.eqb (arg_format args) DEFAULT_FORMAT
      then print out "UTC 时间: " (format_time rt now (arg_format args) (Some "UTC")) k
      else k out in
    utc_line (print_zone rt args)).

End TimeTool.

(* ================================================================= *)
(** ** A concrete runtime

    An interpreter and host on which the functions above can be run: a
    host clock eight hours ahead of UTC, a zone database of three
    entries, and parsers for the date shapes every Python release from
    3.7 on reads the same way: [YYYY-MM-DD], and [YYYY-MM-DD?HH:MM:SS]
    with an optional [+HH:MM] or [-HH:MM] offset. *)

Module Sample.
Import PyStr PyDatetime TimeTool.

Definition obind {A B : Type} (o : option A) (k : A -> option B) : option B :=
  match o with
  | Some a => k a
  | None => None
  end.

(** Exactly [n] decimal digits at the head of [s]. *)
Fixpoint take_digits (n : nat) (acc : Z) (s : string) : option (Z * string) :=
  match n, s with
  | O, _ => Some (acc, s)
  | S k, String c r =>
      if is_digit c then take_digits k (acc * 10 + PyInt.digit_value c) r
      else None
  | S _, EmptyString => None
  end.

Definition expect (c : ascii) (s : string) : option string :=
  match s with
  | String c' r => if Ascii.eqb c c' then Some r else None
  | EmptyString => None
  end.

Definition parse_date (s : string) : option (Z * Z * Z * string) :=
  obind (take_digits 4 0 s) (fun '(y, s) =>
  obind (expect "-" s) (fun s =>
  obind (take_digits 2 0 s) (fun '(m, s) =>
  obind (expect "-" s) (fun s =>
  obind (take_digits 2 0 s) (fun '(d, s) =>
  if (1 <=? y) && (1 <=? m) && (m <=? 12) && (1 <=? d) && (d <=? days_in_month y m)
  then Some (y, m, d, s) else None))))).

Definition parse_clock (s : string) : option (Z * Z * Z * string) :=
  obind (take_digits 2 0 s) (fun '(h, s) =>
  obind (expect ":" s) (fun s =>
  obind (take_digits 2 0 s) (fun '(mi, s) =>
  obind (expect ":" s) (fun s =>
  obind (take_digits 2 0 s) (fun '(se, s) =>
  if (h <? 24) && (mi <? 60) && (se <? 60)
  then Some (h, mi, se, s) else None))))).

(** The text after the clock: nothing, or a signed [HH:MM]. *)
Definition parse_offset (s : string) : option (option Z) :=
  match s with
  | EmptyString => Some None
  | String sign r =>
      obind (take_digits 2 0 r) (fun '(h, r) =>
      obind (expect ":" r) (fun r =>
      obind (take_digits 2 0 r) (fun '(mi, r) =>
      match r with
      | EmptyString =>
          if (h <? 24) && (mi <? 60) then
            if Ascii.eqb sign "+" then Some (Some (h * 3600 + mi * 60))
            else if Ascii.eqb sign "-" then Some (Some (- (h * 3600 + mi * 60)))
            else None
          else None
      | _ => None
      end)))
  end.

Definition midnight (y m d : Z) : naive :=
  {| year := y; month := m; day := d;
     hour := 0; minute := 0; second := 0; microsecond := 0 |}.

Definition sample_fromisoformat (s : string) : option datetime :=
  obind (parse_date s) (fun '(y, m, d, rest) =>
  match rest with
  | EmptyString => Some (naive_datetime (midnight y m d))
  | String _ rest =>
      obind (parse_clock rest) (fun '(h, mi, se, rest) =>
      obind (parse_offset rest) (fun off =>
      Some {| fields := {| year := y; month := m; day := d;
                           hour := h; minute := mi; second := se;
                           microsecond := 0 |};
              tzinfo := off |}))
  end).

Definition sample_strptime_ymd (s : string) : option naive :=
  obind (parse_date s) (fun '(y, m, d, rest) =>
  match rest with
  | EmptyString => Some (midnight y m d)
  | _ => None
  end).

Definition sample_zones (name : string) : exn + zone :=
  if String.eqb name "UTC" then inr utc
  else if String.eqb name "Asia/Tokyo" then inr (fun _ => 32400)
  else if String.eqb name "Asia/Shanghai" then inr (fun _ => 28800)
  else inl ZoneInfoNotFoundError.

(** A host whose clock runs eight hours ahead of UTC all year. *)
Definition east8 : LocalZone :=
  {| localtime_offset := fun _ => 28800; mktime_offset := fun _ => 28800 |}.

(** 2024-03-15 10:30:00.250000 on the host's clock, a Friday. *)
Definition sample_now : naive :=
  {| year := 2024; month := 3; day := 15;
     hour := 10; minute := 30; second := 0; microsecond := 250000 |}.

(** The same reading with no fraction of a second. *)
Definition sample_now_sharp : naive :=
  {| year := 2024; month := 3; day := 15;
     hour := 10; minute := 30; second := 0; microsecond := 0 |}.

Definition runtime_at (zoneinfo : option (string -> exn + zone)) (clock : naive)
  : Runtime :=
  {| ZoneInfo := zoneinfo;
     fromisoformat := sample_fromisoformat;
     strptime_ymd := sample_strptime_ymd;
     local := east8;
     now := clock |}.

Definition sample_runtime : Runtime := runtime_at (Some sample_zones) sample_now.

(** The same host on an interpreter without [zoneinfo]. *)
Definition bare_runtime : Runtime := runtime_at None sample_now.

(** A host whose clock is on UTC. *)
Definition utc_zone : LocalZone :=
  {| localtime_offset := utc; mktime_offset := utc |}.

Definition plain_args : Args :=
  {| arg_timezone := None; arg_format := DEFAULT_FORMAT;
     arg_diff := None; arg_timestamp := None; arg_unix := false |}.

Definition zone_args (tz : string) : Args :=
  {| arg_timezone := Some tz; arg_format := DEFAULT_FORMAT;
     arg_diff := None; arg_timestamp := None; arg_unix := false |}.

Definition diff_args (target : string) : Args :=
  {| arg_timezone := None; arg_format := DEFAULT_FORMAT;
     arg_diff := Some target; arg_timestamp := None; arg_unix := false |}.

End Sample.

(* ================================================================= *)
(** ** Vocabulary of the properties *)

Module Spec.
Import PyStr PyFloat PyDatetime SysInfo TimeTool.

(** *** Numerals *)

(** [n] decimal digits. *)
Definition digits_n (n : nat) (s : string) : Prop :=
  String.length s = n /\ all_digits s = true.

(** A decimal numeral with exactly two digits after the point. *)
Definition two_decimals (s : string) : Prop :=
  exists ip d1 d2,
    s = ip ++ "." ++ String d1 (String d2 EmptyString)
    /\ ip <> EmptyString
    /\ all_digits ip = true
    /\ is_digit d1 = true /\ is_digit d2 = true.

(** The integers [lo], [lo + 1], ..., [lo + len - 1]. *)
Definition Z_range (lo len : Z) : list Z :=
  map (fun i => lo + Z.of_nat i) (seq 0 (Z.to_nat len)).

(** [r] is printed as two digits. *)
Definition two_digit_check (r : Z) : bool :=
  match two_digits r with
  | String d1 (String d2 EmptyString) => (is_digit d1 && is_digit d2)%bool
  | _ => false
  end.

(** [y] is printed as four digits. *)
Definition four_digit_check (y : Z) : bool :=
  (Nat.eqb (String.length (str_of_Z y)) 4 && all_digits (str_of_Z y))%bool.

(** *** sysinfo.py *)

(** Items of a list whose key is [k], in the order they have there. *)
Definition with_key {A : Type} (key : A -> Q) (k : Q) (l : list A) : list A :=
  filter (fun y => Qeq_bool (key y) k) l.

(** Ascending order of the key. *)
Definition key_le {A : Type} (key : A -> Q) (a b : A) : Prop :=
  (key a <= key b)%Q.

(** The processes whose [info] could be read, in enumeration order. *)
Definition enumerated (h : Host) : list proc_info :=
  flat_map (fun p => match p with Some i => [i] | None => [] end)
           (process_iter h).

(** The ranking value: the memory percentage, zero when there is none. *)
Definition rank (x : proc_info) : Q :=
  match memory_percent x with
  | Some q => q
  | None => 0%Q
  end.

(** The usage query succeeds for the mountpoint. *)
Definition readable (h : Host) (mount : string) : bool :=
  match disk_usage h mount with
  | Some _ => true
  | None => false
  end.

(** The rows of the partitions whose usage query succeeds, in
    enumeration order. *)
Definition readable_rows (h : Host) : list disk_entry :=
  flat_map
    (fun p =>
       match disk_usage h (mountpoint p) with
       | Some u => [disk_row h p u]
       | None => []
       end)
    (disk_partitions h).

(** *** time.py *)

(** [YYYY-MM-DD HH:MM:SS] for the fields [f]. *)
Definition stamp (f : naive) : string :=
  str_of_Z (year f) ++ "-" ++ two_digits (month f) ++ "-" ++ two_digits (day f)
  ++ " " ++ two_digits (hour f) ++ ":" ++ two_digits (minute f)
  ++ ":" ++ two_digits (second f).

(** The ranges of the fields of a calendar reading. *)
Definition calendar_fields (f : naive) : Prop :=
  1 <= year f <= 9999 /\ 1 <= month f <= 12 /\ 1 <= day f <= 31
  /\ 0 <= hour f < 24 /\ 0 <= minute f < 60 /\ 0 <= second f < 60.

(** The shape [YYYY-MM-DD HH:MM:SS]. *)
Definition clock_shape (s : string) : Prop :=
  exists Y M D h m sec,
    s = Y ++ "-" ++ M ++ "-" ++ D ++ " " ++ h ++ ":" ++ m ++ ":" ++ sec
    /\ digits_n 4 Y /\ digits_n 2 M /\ digits_n 2 D
    /\ digits_n 2 h /\ digits_n 2 m /\ digits_n 2 sec.

(** The last step of [ord2ymd]: month and day of the [n]-th day (from 0)
    of a year. *)
Definition month_day (n : Z) (leapyear : bool) : Z * Z :=
  let m := Z.shiftr (n + 50) 5 in
  let preceding :=
    DAYS_BEFORE_MONTH m + (if (2 <? m) && leapyear then 1 else 0) in
  if n <? preceding then
    let m := m - 1 in
    let preceding :=
      preceding - (DAYS_IN_MONTH m + (if (m =? 2) && leapyear then 1 else 0)) in
    (m, n - preceding + 1)
  else (m, n - preceding + 1).

Definition month_day_check (leapyear : bool) (n : Z) : bool :=
  let '(m, d) := month_day n leapyear in
  (1 <=? m) && (m <=? 12) && (1 <=? d) && (d <=? 31).

(** Signed distance from the clock reading to [target], in
    microseconds. *)
Definition delta (rt : Runtime) (target : naive) : Z :=
  wall_microseconds target - wall_microseconds (now rt).

(** The whole days, hours of the day and minutes of the hour in a
    distance of [d] microseconds. *)
Definition whole_days (d : Z) : Z := Z.abs d / 86400000000.
Definition whole_hours (d : Z) : Z := Z.abs d / 3600000000 mod 24.
Definition whole_minutes (d : Z) : Z := Z.abs d / 60000000 mod 60.

(** The components printed after the target: days when there are any,
    hours when there are any, minutes when there are any and no days. *)
Definition breakdown (d : Z) : string :=
  (if 0 <? whole_days d
   then " 还有 " ++ str_of_Z (whole_days d) ++ " 天" else "")
  ++ (if 0 <? whole_hours d
      then " " ++ str_of_Z (whole_hours d) ++ " 小时" else "")
  ++ (if (0 <? whole_minutes d) && (whole_days d =? 0)
      then " " ++ str_of_Z (whole_minutes d) ++ " 分钟" else "").

(** What [timestamp_to_date] shows for the instant [secs] seconds after
    the epoch: the local calendar reading, or the diagnostic when that
    lies outside the years 1..9999. *)
Definition shown_at (rt : Runtime) (secs : Z) : outcome string :=
  let f := of_wall (secs + localtime_offset (local rt) secs) 0 in
  if year_in_range f then Return (stamp f) else Return INVALID_TIMESTAMP.

(** The output names the identifier as invalid and lists examples. *)
Definition signals_invalid_zone (out : list string) (tz : string) : Prop :=
  In (INVALID_ZONE ++ tz) out /\ In COMMON_ZONES out.

End Spec.

(* ================================================================= *)
(** ** sysinfo.py: printing the report *)

Module Output.
Import PyStr SysInfo.

Definition NL : string := String (ascii_of_nat 10) EmptyString.

(** What turns the report and its list items into text: [json.dumps]
    with the script's options, and [str] of the dicts that are the items
    of the disk, network and process sections. *)
Record Repr := {
  json_dumps : report -> string;
  str_disk : disk_entry -> string;
  str_net : net_entry -> string;
  str_proc : proc_info -> string
}.

(** [str(v)] for an int or [None]. *)
Definition str_opt_int (o : option Z) : string :=
  match o with
  | Some z => str_of_Z z
  | None => "None"
  end.

(** [', '.join(l)] *)
Fixpoint join_comma (l : list string) : string :=
  match l with
  | [] => EmptyString
  | x :: r =>
      match r with
      | [] => x
      | _ => x ++ ", " ++ join_comma r
      end
  end.

(** [str(l)] for a list of floats. *)
Definition str_float_list (h : Host) (l : list Q) : string :=
  "[" ++ join_comma (map (float_str h) l) ++ "]".

(** [value.items()] with the values as [str] shows them, for the
    sections that are dicts. *)
Definition dict_items (h : Host) (v : section) : list (string * string) :=
  match v with
  | SysSection i =>
      [("platform", s_platform i); ("arch", s_arch i); ("hostname", s_hostname i);
       ("uptime", s_uptime i); ("python", s_python i)]
  | CpuSection i =>
      [("cores", str_opt_int (cores i));
       ("physical_cores", str_opt_int (physical_cores i));
       ("usage", cpu_usage i);
       ("loadavg",
        match loadavg i with
        | Some l => str_float_list h l
        | None => "None"
        end)]
  | MemSection i =>
      [("total", mem_total i); ("used", mem_used i); ("free", mem_free i);
       ("usage", mem_usage i)]
  | DiskSection _ | NetSection _ | ProcSection _ => []
  end.

(** The items of a section that is a list, as [str] shows them; [None]
    when [isinstance(value, list)] is false. *)
Definition list_items (r : Repr) (v : section) : option (list string) :=
  match v with
  | DiskSection l => Some (map (str_disk r) l)
  | NetSection l => Some (map (str_net r) l)
  | ProcSection l => Some (map (str_proc r) l)
  | SysSection _ | CpuSection _ | MemSection _ => None
  end.

Definition header (key : string) : string := NL ++ "=== " ++ key ++ " ===".

(** One turn of the loop of lines 120-127: the arguments of its [print]
    calls. *)
Definition print_section (r : Repr) (h : Host) (kv : string * section)
  : list string :=
  header (fst kv)
  :: match list_items r (snd kv) with
     | Some items => map (fun item => "  " ++ item) items
     | None => map (fun kv => "  " ++ fst kv ++ ": " ++ snd kv) (dict_items h (snd kv))
     end.

(** Lines 117-127: what [main] prints for a report, one string per
    [print] call. *)
Definition print_report (r : Repr) (h : Host) (result : report) (json : bool)
  : list string :=
  if json then [json_dumps r result]
  else flat_map (print_section r h) result.

(** [main] for the parsed arguments. *)
Definition main (r : Repr) (h : Host) (type : info_type) (json : bool) : list string :=
  print_report r h (main_result h type) json.

End Output.

(* ================================================================= *)
(** ** Vocabulary of further properties *)

Module Laws.
Import PyStr PyFloat PyDatetime SysInfo TimeTool Output Spec.

(** *** sysinfo.py *)

(** The text of a byte count: a numeral with two decimals and a unit. *)
Definition byte_text (s : string) : Prop :=
  exists h, 0 <= h /\ two_decimals (fixed2 h)
            /\ (s = fixed2 h ++ " GB" \/ s = fixed2 h ++ " MB").

Definition is_ipv4 (a : snic) : bool := family a =? 2.

Definition net_row (ifname : string) (a : snic) : net_entry :=
  {| n_interface := ifname; n_ip := address a; n_netmask := netmask a |}.

(** The number of items a section shows below its header. *)
Definition item_count (h : Host) (v : section) : nat :=
  match v with
  | DiskSection l => List.length l
  | NetSection l => List.length l
  | ProcSection l => List.length l
  | _ => List.length (dict_items h v)
  end.

Definition is_header (s : string) : bool := String.prefix NL s.
Definition is_indented (s : string) : bool := String.prefix "  " s.

(** The partitions whose usage query succeeds, counted. *)
Definition readable_count (h : Host) : nat :=
  List.length (filter (readable h) (map mountpoint (disk_partitions h))).

(** The addresses of family 2, counted. *)
Definition ipv4_count (h : Host) : nat :=
  list_sum (map (fun ia => List.length (filter is_ipv4 (snd ia))) (net_if_addrs h)).

(** The number of [print] calls of a run without [--json]. *)
Definition line_count (h : Host) (t : info_type) : nat :=
  match t with
  | Tsys => 6
  | Tcpu => 5
  | Tmem => 5
  | Tdisk => 1 + readable_count h
  | Tnetwork => 1 + ipv4_count h
  | Tprocess => 1 + Nat.min 10 (List.length (enumerated h))
  | Tall => 18 + readable_count h + ipv4_count h
  end.

(** A host to run the collectors on: one partition answers the usage
    query and one does not, the process list has an entry that cannot
    be read.  Its [float_str] prints one digit after the point, which is
    what [str] gives for the whole numbers and halves used here. *)
Definition sample_host : Host :=
  {| float_str := fun q =>
       str_of_Z (Qnum q / Zpos (Qden q)) ++ "."
       ++ str_of_Z (Qnum q * 10 / Zpos (Qden q) mod 10);
     platform_system := "Linux";
     platform_machine := "x86_64";
     platform_node := "box";
     platform_python_version := "3.11.4";
     boot_time := 1710000000.5%Q;
     cpu_count_logical := Some 8;
     cpu_count_physical := Some 4;
     cpu_percent_1s := 12.5%Q;
     getloadavg := Some (0.5, 1.5, 0)%Q;
     virtual_memory :=
       {| m_total := 17179869184; m_used := 6442450944;
          m_available := 10737418240; m_percent := 37.5%Q |};
     disk_partitions :=
       [ {| device := "/dev/sda1"; mountpoint := "/" |};
         {| device := "/dev/sr0"; mountpoint := "/media/cdrom" |} ];
     disk_usage := fun m =>
       if String.eqb m "/"
       then Some {| total := 536870912000; used := 1073741823;
                    free := 535797170177; percent := 0.5%Q |}
       else None;
     net_if_addrs :=
       [ ("lo", [ {| family := 2; address := "127.0.0.1";
                     netmask := Some "255.0.0.0" |};
                  {| family := 10; address := "::1"; netmask := None |} ]);
         ("eth0", [ {| family := 17; address := "00:11:22:33:44:55";
                       netmask := None |};
                    {| family := 2; address := "192.168.1.7";
                       netmask := Some "255.255.255.0" |} ]) ];
     process_iter :=
       [ Some {| pid := 1; name := Some "init"; cpu_percent := Some 0%Q;
                 memory_percent := Some 0.5%Q |};
         None;
         Some {| pid := 7; name := Some "db"; cpu_percent := Some 2.5%Q;
                 memory_percent := Some 12.5%Q |};
         Some {| pid := 9; name := None; cpu_percent := None;
                 memory_percent := None |} ] |}.

(** *** The calendar *)

(** Fields that a [datetime] can hold. *)
Definition valid_clock (f : naive) : Prop :=
  1 <= month f <= 12 /\ 1 <= day f <= days_in_month (year f) (month f)
  /\ 0 <= hour f < 24 /\ 0 <= minute f < 60 /\ 0 <= second f < 60.

(** The days of a year: 366 in a leap year. *)
Definition year_length (leapyear : bool) : Z := if leapyear then 366 else 365.

(** A year of each kind, common and leap. *)
Definition year_of_kind (leapyear : bool) : Z := if leapyear then 4 else 1.

(** The day [d] of the month [m], counted from the start of a year of
    the given kind, is found again by [month_day]. *)
Definition month_day_inverse_check (leapyear : bool) (m d : Z) : bool :=
  let y := year_of_kind leapyear in
  if d <=? days_in_month y m
  then
    let k := days_before_month y m + d - 1 in
    let '(m', d') := month_day k leapyear in
    (m' =? m) && (d' =? d) && (0 <=? k) && (k <? year_length leapyear)
  else true.

Definition kind_check (leapyear : bool) : bool :=
  Bool.eqb (is_leap (year_of_kind leapyear)) leapyear
  && forallb (fun m => forallb (month_day_inverse_check leapyear m) (Z_range 1 31))
             (Z_range 1 12)
  && (let '(m, d) := month_day 365 true in (m =? 12) && (d =? 31)).

(** *** Decimal numerals *)

(** The number a run of digits denotes, read after the number [acc]. *)
Fixpoint uint_value (acc : Z) (d : Decimal.uint) : Z :=
  match d with
  | Decimal.Nil => acc
  | Decimal.D0 l => uint_value (acc * 10 + 0) l
  | Decimal.D1 l => uint_value (acc * 10 + 1) l
  | Decimal.D2 l => uint_value (acc * 10 + 2) l
  | Decimal.D3 l => uint_value (acc * 10 + 3) l
  | Decimal.D4 l => uint_value (acc * 10 + 4) l
  | Decimal.D5 l => uint_value (acc * 10 + 5) l
  | Decimal.D6 l => uint_value (acc * 10 + 6) l
  | Decimal.D7 l => uint_value (acc * 10 + 7) l
  | Decimal.D8 l => uint_value (acc * 10 + 8) l
  | Decimal.D9 l => uint_value (acc * 10 + 9) l
  end.

(** The characters an integer literal is made of. *)
Definition int_char (c : ascii) : bool :=
  is_digit c || PyInt.is_space c
  || Ascii.eqb c "+" || Ascii.eqb c "-" || Ascii.eqb c "_".

(** *** Format strings *)

(** [c in s] *)
Fixpoint occurs (c : ascii) (s : string) : bool :=
  match s with
  | EmptyString => false
  | String x r => (Ascii.eqb c x || occurs c r)%bool
  end.

(** The letters the tokens of [format_time] are made of. *)
Definition TOKEN_LETTERS : string := "YMDHmsSdAa".

(** No character of [s] is a token letter. *)
Fixpoint token_free (s : string) : bool :=
  match s with
  | EmptyString => true
  | String c r => negb (occurs c TOKEN_LETTERS) && token_free r
  end.




(** What a token stands for; the empty string stands for itself. *)
Definition token_value (f : naive) (tok : string) : option string :=
  if String.eqb tok "" then Some ""
  else if String.eqb tok "YYYY" then Some (str_of_Z (year f))
  else if String.eqb tok "YY" then Some (two_digits (year f mod 100))
  else if String.eqb tok "MM" then Some (two_digits (month f))
  else if String.eqb tok "DD" then Some (two_digits (day f))
  else if String.eqb tok "HH" then Some (two_digits (hour f))
  else if String.eqb tok "mm" then Some (two_digits (minute f))
  else if String.eqb tok "ss" then Some (two_digits (second f))
  else if String.eqb tok "SSS" then Some (zfill 3 (str_of_Z (microsecond f / 1000)))
  else if String.eqb tok "dddd" then Some (index WEEKDAYS (weekday f))
  else if String.eqb tok "ddd" then Some (index WEEKDAYS_SHORT (weekday f))
  else if String.eqb tok "A" then Some (if hour f <? 12 then "AM" else "PM")
  else if String.eqb tok "a" then Some (if hour f <? 12 then "am" else "pm")
  else None.


(** [t1 c1 t2 c2 ... tn cn last]: pieces each followed by one character,
    and a last piece. *)
Fixpoint joined (pieces : list (string * ascii)) (last : string) : string :=
  match pieces with
  | [] => last
  | (t, c) :: rest => t ++ String c (joined rest last)
  end.


(** What a piece of a format stands for. *)
Definition value (f : naive) (tok : string) : string :=
  match token_value f tok with
  | Some v => v
  | None => tok
  end.


End Laws.

(* ================================================================= *)
(** * Properties of sysinfo.py *)

Import PyStr PyFloat SysInfo Spec.

(** ** Lists *)

Local Open Scope list_scope.

Section ListFacts.
Context {A : Type}.

Lemma StronglySorted_app (R : A -> A -> Prop) (l1 l2 : list A) :
  StronglySorted R l1 -> StronglySorted R l2 ->
  (forall x y, In x l1 -> In y l2 -> R x y) ->
  StronglySorted R (l1 ++ l2).
Proof.
  induction l1 as [|a l1 IH]; intros S1 S2 H; simpl; auto.
  inversion S1 as [|? ? S1' Ha]; subst.
  constructor.
  - apply IH; auto. intros; apply H; simpl; auto.
  - apply Forall_app; split; auto.
    apply Forall_forall; intros y Hy. apply H; simpl; auto.
Qed.

Lemma StronglySorted_impl (R R' : A -> A -> Prop) (l : list A) :
  (forall a b, R a b -> R' a b) ->
  StronglySorted R l -> StronglySorted R' l.
Proof.
  intros HR; induction 1 as [|a l S IH Ha]; constructor; auto.
  rewrite Forall_forall in *. auto.
Qed.

Lemma StronglySorted_rev (R : A -> A -> Prop) (l : list A) :
  StronglySorted R l -> StronglySorted (fun a b => R b a) (rev l).
Proof.
  induction 1 as [|a l S IH Ha]; simpl.
  - constructor.
  - apply StronglySorted_app; auto.
    + repeat constructor.
    + intros x y Hx [<-|[]].
      rewrite Forall_forall in Ha. apply Ha. now apply in_rev.
Qed.

Lemma StronglySorted_firstn (R : A -> A -> Prop) (n : nat) (l : list A) :
  StronglySorted R l -> StronglySorted R (firstn n l).
Proof.
  intros S; revert n.
  induction S as [|a l S IH Ha]; intros [|n]; simpl; try constructor; auto.
  rewrite Forall_forall in *. intros x Hx.
  apply Ha. rewrite <- (firstn_skipn n l). apply in_or_app; auto.
Qed.

(** In a sorted list every item of a prefix is related to every item
    after it. *)
Lemma StronglySorted_firstn_skipn (R : A -> A -> Prop) (n : nat) (l : list A) :
  StronglySorted R l ->
  forall x y, In x (firstn n l) -> In y (skipn n l) -> R x y.
Proof.
  intros S; revert n.
  induction S as [|a l S IH Ha]; intros [|n] x y Hx Hy; simpl in *;
    try contradiction.
  destruct Hx as [<-|Hx].
  - rewrite Forall_forall in Ha. apply Ha.
    rewrite <- (firstn_skipn n l). apply in_or_app; auto.
  - eapply IH; eauto.
Qed.

(** A prefix of a list filters to a prefix of the filtered list. *)
Lemma filter_firstn (p : A -> bool) (n : nat) (l : list A) :
  exists m, filter p (firstn n l) = firstn m (filter p l).
Proof.
  revert n; induction l as [|a l IH]; intros [|n]; simpl.
  - now exists O.
  - now exists O.
  - now exists O.
  - destruct (IH n) as [m Hm]. destruct (p a).
    + exists (S m). simpl. now rewrite Hm.
    + now exists m.
Qed.

(** A loop that appends at most one item per turn builds the
    concatenation of what each turn contributes. *)
Lemma fold_left_append {B : Type} (g : B -> list A) (step : list A -> B -> list A) :
  (forall acc b, step acc b = acc ++ g b) ->
  forall l acc, fold_left step l acc = acc ++ flat_map g l.
Proof.
  intros Hstep; induction l as [|b l IH]; intros acc; simpl.
  - now rewrite app_nil_r.
  - rewrite IH, Hstep, <- app_assoc. reflexivity.
Qed.
End ListFacts.

(** ** Stable sorting by a rational key *)

Section SortFacts.
Context {A : Type} (key : A -> Q).

Lemma key_lt_iff (x y : A) : key_lt key x y = true <-> (key x < key y)%Q.
Proof.
  unfold key_lt. rewrite negb_true_iff, <- not_true_iff_false, Qle_bool_iff.
  split.
  - apply Qnot_le_lt.
  - apply Qlt_not_le.
Qed.

Lemma key_lt_false (x y : A) : key_lt key x y = false -> (key y <= key x)%Q.
Proof.
  unfold key_lt. rewrite negb_false_iff. apply Qle_bool_iff.
Qed.

Lemma insert_perm (x : A) (l : list A) : Permutation (insert key x l) (x :: l).
Proof.
  induction l as [|y l IH]; simpl; auto.
  destruct (key_lt key y x); auto.
  rewrite IH. apply perm_swap.
Qed.

Lemma sort_stable_perm (l : list A) : Permutation (sort_stable key l) l.
Proof.
  induction l as [|x l IH]; simpl; auto.
  rewrite insert_perm. now constructor.
Qed.

Lemma insert_sorted (x : A) (l : list A) :
  StronglySorted (key_le key) l -> StronglySorted (key_le key) (insert key x l).
Proof.
  induction 1 as [|y l S IH Hy]; simpl.
  - repeat constructor.
  - destruct (key_lt key y x) eqn:E.
    + constructor; auto.
      rewrite Forall_forall in *. intros z Hz.
      apply (Permutation_in _ (insert_perm x l)) in Hz.
      destruct Hz as [<-|Hz]; auto.
      apply key_lt_iff in E. now apply Qlt_le_weak.
    + apply key_lt_false in E.
      constructor.
      * constructor; auto.
      * constructor; auto.
        rewrite Forall_forall in *. intros z Hz.
        unfold key_le in *. eapply Qle_trans; eauto.
Qed.

Lemma sort_stable_sorted (l : list A) :
  StronglySorted (key_le key) (sort_stable key l).
Proof.
  induction l as [|x l IH]; simpl.
  - constructor.
  - now apply insert_sorted.
Qed.

Lemma insert_with_key (k : Q) (x : A) (l : list A) :
  with_key key k (insert key x l) = with_key key k (x :: l).
Proof.
  unfold with_key.
  induction l as [|y l IH]; simpl; auto.
  destruct (key_lt key y x) eqn:E; simpl; auto.
  rewrite IH. simpl.
  destruct (Qeq_bool (key x) k) eqn:Ex; auto.
  destruct (Qeq_bool (key y) k) eqn:Ey; auto.
  exfalso.
  apply key_lt_iff in E.
  apply Qeq_bool_iff in Ex, Ey.
  rewrite Ex, Ey in E. now apply Qlt_irrefl in E.
Qed.

Lemma sort_stable_with_key (k : Q) (l : list A) :
  with_key key k (sort_stable key l) = with_key key k l.
Proof.
  induction l as [|x l IH]; simpl; auto.
  rewrite insert_with_key. unfold with_key in *. simpl. now rewrite IH.
Qed.

(** [list.sort(key=key, reverse=True)]: a permutation, in non-increasing
    order of the key, that keeps items of equal key in their order. *)
Lemma list_sort_reverse_perm (l : list A) : Permutation (list_sort key true l) l.
Proof.
  unfold list_sort.
  rewrite <- Permutation_rev, sort_stable_perm. symmetry. apply Permutation_rev.
Qed.

Lemma list_sort_reverse_sorted (l : list A) :
  StronglySorted (fun a b => key b <= key a)%Q (list_sort key true l).
Proof.
  unfold list_sort.
  apply (StronglySorted_rev (key_le key)), sort_stable_sorted.
Qed.

Lemma list_sort_reverse_stable (k : Q) (l : list A) :
  with_key key k (list_sort key true l) = with_key key k l.
Proof.
  unfold list_sort, with_key.
  rewrite filter_rev.
  fold (with_key key k (sort_stable key (rev l))).
  rewrite sort_stable_with_key. unfold with_key.
  now rewrite filter_rev, rev_involutive.
Qed.
(** The arrangement is the only one with these properties, so it is
    what any stable sorting algorithm returns. *)
Lemma stable_sorted_unique (l1 l2 : list A) :
  StronglySorted (fun a b => key b <= key a)%Q l1 ->
  StronglySorted (fun a b => key b <= key a)%Q l2 ->
  (forall k, with_key key k l1 = with_key key k l2) ->
  l1 = l2.
Proof.
  intros S1; revert l2.
  induction S1 as [|x l1 S1 IH Hx]; intros l2 S2 Hk.
  - destruct l2 as [|y l2]; auto.
    specialize (Hk (key y)). unfold with_key in Hk. simpl in Hk.
    rewrite Qeq_bool_refl in Hk. discriminate Hk.
  - destruct l2 as [|y l2].
    { specialize (Hk (key x)). unfold with_key in Hk. simpl in Hk.
      rewrite Qeq_bool_refl in Hk. discriminate Hk. }
    inversion S2 as [|? ? S2' Hy]; subst.
    rewrite Forall_forall in Hx, Hy.
    assert (Hxy : (key x <= key y)%Q).
    { pose proof (Hk (key x)) as H. unfold with_key in H. simpl in H.
      rewrite Qeq_bool_refl in H.
      destruct (Qeq_bool (key y) (key x)) eqn:E.
      - apply Qeq_bool_iff in E. rewrite E. apply Qle_refl.
      - apply Hy. apply (proj1 (filter_In (fun z => Qeq_bool (key z) (key x)) x l2)).
        rewrite <- H. now left. }
    assert (Hyx : (key y <= key x)%Q).
    { pose proof (Hk (key y)) as H. unfold with_key in H. simpl in H.
      rewrite Qeq_bool_refl in H.
      destruct (Qeq_bool (key x) (key y)) eqn:E.
      - apply Qeq_bool_iff in E. rewrite E. apply Qle_refl.
      - apply Hx. apply (proj1 (filter_In (fun z => Qeq_bool (key z) (key y)) y l1)).
        rewrite H. now left. }
    assert (E : Qeq_bool (key y) (key x) = true)
      by (apply Qeq_bool_iff; now apply Qle_antisym).
    assert (x = y).
    { pose proof (Hk (key x)) as H. unfold with_key in H. simpl in H.
      rewrite Qeq_bool_refl, E in H. congruence. }
    subst y. f_equal. apply IH; auto.
    intros k. specialize (Hk k). unfold with_key in *. simpl in Hk.
    destruct (Qeq_bool (key x) k); congruence.
Qed.

Lemma list_sort_reverse_unique (l l' : list A) :
  StronglySorted (fun a b => key b <= key a)%Q l' ->
  (forall k, with_key key k l' = with_key key k l) ->
  l' = list_sort key true l.
Proof.
  intros S Hk. apply stable_sorted_unique; auto.
  - apply list_sort_reverse_sorted.
  - intros k. now rewrite list_sort_reverse_stable.
Qed.
End SortFacts.

(** ** get_process_info *)

Section ProcessFacts.

Lemma collected (h : Host) :
  fold_left process_step (process_iter h) [] = enumerated h.
Proof.
  unfold enumerated.
  rewrite (fold_left_append
             (fun p : option proc_info => match p with Some i => [i] | None => [] end)).
  - reflexivity.
  - intros acc [i|]; simpl; auto. now rewrite app_nil_r.
Qed.

(** [x.get('memory_percent', 0) or 0] is the ranking value. *)
Lemma memory_key_rank (x : proc_info) : (memory_key x == rank x)%Q.
Proof.
  unfold memory_key, rank.
  destruct (memory_percent x) as [q|]; try reflexivity.
  destruct (Qeq_bool q 0) eqn:E; try reflexivity.
  apply Qeq_bool_iff in E. now symmetry.
Qed.

Lemma with_key_rank (k : Q) (l : list proc_info) :
  with_key memory_key k l = with_key rank k l.
Proof.
  unfold with_key. apply filter_ext. intros x.
  now rewrite (memory_key_rank x).
Qed.

End ProcessFacts.

(** C6. However many processes are visible, [get_process_info] returns at
    most ten of them, in non-increasing order of memory percentage, a
    missing or null percentage ranking as zero; processes of equal
    percentage stay in their enumeration order; and what is returned is
    the head of the ranking: no process left out ranks above one
    returned. *)
Theorem get_process_info_top_ten (h : Host) :
  let out := get_process_info h default_top in
  (List.length out <= 10)%nat
  /\ StronglySorted (fun a b => rank b <= rank a)%Q out
  /\ (forall k, exists m,
         with_key rank k out = firstn m (with_key rank k (enumerated h)))
  /\ (exists rest,
         Permutation (out ++ rest) (enumerated h)
         /\ forall x y, In x out -> In y rest -> (rank y <= rank x)%Q).
Proof.
  unfold get_process_info, default_top. rewrite collected.
  set (sorted := list_sort memory_key true (enumerated h)).
  assert (Hs : StronglySorted (fun a b => rank b <= rank a)%Q sorted).
  { eapply StronglySorted_impl; [ | apply (list_sort_reverse_sorted memory_key) ].
    intros a b Hab; simpl in *. now rewrite <- !memory_key_rank. }
  cbv zeta. change (slice_to 10 sorted) with (firstn 10 sorted). repeat split.
  - apply firstn_le_length.
  - now apply StronglySorted_firstn.
  - intros k.
    destruct (filter_firstn (fun y => Qeq_bool (rank y) k) 10 sorted) as [m Hm].
    exists m. unfold with_key at 1. rewrite Hm.
    fold (with_key rank k sorted). unfold sorted.
    now rewrite <- !with_key_rank, list_sort_reverse_stable.
  - exists (skipn 10 sorted). split.
    + rewrite firstn_skipn. apply list_sort_reverse_perm.
    + intros x y Hx Hy.
      exact (StronglySorted_firstn_skipn _ 10 sorted Hs x y Hx Hy).
Qed.

(** ** get_disk_info *)

Lemma get_disk_info_rows (h : Host) : get_disk_info h = readable_rows h.
Proof.
  unfold get_disk_info, readable_rows.
  rewrite (fold_left_append
             (fun p => match disk_usage h (mountpoint p) with
                       | Some u => [disk_row h p u]
                       | None => []
                       end)).
  - reflexivity.
  - intros acc p. unfold disk_step.
    destruct (disk_usage h (mountpoint p)); auto. now rewrite app_nil_r.
Qed.

(** C9. Whatever partitions fail their usage query, [get_disk_info]
    returns one row for each partition whose query succeeds, in
    enumeration order, and nothing for the others. *)
Theorem get_disk_info_fault_isolated (h : Host) :
  map d_mountpoint (get_disk_info h)
  = filter (readable h) (map mountpoint (disk_partitions h))
  /\ (forall p u, In p (disk_partitions h) ->
                  disk_usage h (mountpoint p) = Some u ->
                  In (disk_row h p u) (get_disk_info h))
  /\ (forall e, In e (get_disk_info h) ->
                exists p u, In p (disk_partitions h)
                            /\ disk_usage h (mountpoint p) = Some u
                            /\ e = disk_row h p u).
Proof.
  rewrite get_disk_info_rows. unfold readable_rows, readable.
  repeat split.
  - induction (disk_partitions h) as [|p l IH]; simpl; auto.
    destruct (disk_usage h (mountpoint p)); simpl; now rewrite IH.
  - intros p u Hp Hu. apply in_flat_map. exists p. split; auto.
    rewrite Hu. simpl; auto.
  - intros e He. apply in_flat_map in He. destruct He as [p [Hp He]].
    destruct (disk_usage h (mountpoint p)) as [u|] eqn:Hu; simpl in He.
    + destruct He as [<-|[]]. now exists p, u.
    + contradiction.
Qed.

(** ** main *)

(** C7. For [--type all] the report holds the system, CPU, memory, disk
    and network sections, in that order, and no process section; a
    report holds the process section exactly when the type is
    [process], and then nothing else. *)
Theorem main_all_excludes_process (h : Host) :
  keys (main_result h Tall) = [label_sys; label_cpu; label_mem; label_disk; label_net]
  /\ keys (main_result h Tprocess) = [label_proc]
  /\ (forall t, In label_proc (keys (main_result h t)) <-> t = Tprocess).
Proof.
  repeat split.
  - intros H. destruct t; try reflexivity;
      vm_compute in H; repeat destruct H as [H|H]; try discriminate H; contradiction.
  - intros ->. simpl. auto.
Qed.

(** ** Rounding and true division *)

Section RoundingFacts.

Lemma round_half_even_floor (a b : Z) :
  0 < b -> a / b <= round_half_even a b <= a / b + 1.
Proof.
  intros Hb. unfold round_half_even.
  destruct (2 * (a mod b) <? b); [lia|].
  destruct (b <? 2 * (a mod b)); [lia|].
  destruct (Z.even (a / b)); lia.
Qed.

(** The rounded quotient is within half a unit of the exact one. *)
Lemma round_half_even_nearest (a b : Z) :
  0 < b -> 2 * Z.abs (a - b * round_half_even a b) <= b.
Proof.
  intros Hb. unfold round_half_even.
  pose proof (Z.div_mod a b ltac:(lia)) as Hdm.
  pose proof (Z.mod_pos_bound a b Hb) as Hm.
  destruct (2 * (a mod b) <? b) eqn:E1.
  - apply Z.ltb_lt in E1. lia.
  - apply Z.ltb_ge in E1.
    destruct (b <? 2 * (a mod b)) eqn:E2.
    + apply Z.ltb_lt in E2. lia.
    + apply Z.ltb_ge in E2. destruct (Z.even (a / b)); lia.
Qed.

Lemma round_half_even_exact (q b : Z) : 0 < b -> round_half_even (q * b) b = q.
Proof.
  intros Hb. unfold round_half_even.
  rewrite Z.mod_mul, Z.div_mul by lia.
  replace (2 * 0 <? b) with true; auto.
  symmetry. apply Z.ltb_lt. lia.
Qed.

Lemma round_half_even_scale (a b c : Z) :
  0 < b -> 0 < c -> round_half_even (a * c) (b * c) = round_half_even a b.
Proof.
  intros Hb Hc. unfold round_half_even.
  rewrite Z.div_mul_cancel_r, Z.mul_mod_distr_r by lia.
  replace (2 * (a mod b * c) <? b * c) with (2 * (a mod b) <? b).
  2:{ apply eq_true_iff_eq. rewrite !Z.ltb_lt. nia. }
  replace (b * c <? 2 * (a mod b * c)) with (b <? 2 * (a mod b)).
  2:{ apply eq_true_iff_eq. rewrite !Z.ltb_lt. nia. }
  reflexivity.
Qed.

Lemma round_half_even_nonneg (a b : Z) :
  0 <= a -> 0 < b -> 0 <= round_half_even a b.
Proof.
  intros Ha Hb.
  pose proof (round_half_even_floor a b Hb).
  pose proof (Z.div_pos a b Ha Hb). lia.
Qed.

Lemma pow2_pos_positive (e : Z) : 0 < pow2_pos e.
Proof. unfold pow2_pos. apply Z.pow_pos_nonneg; lia. Qed.

Lemma pow2_neg_positive (e : Z) : 0 < pow2_neg e.
Proof. unfold pow2_neg. apply Z.pow_pos_nonneg; lia. Qed.

(** [2^k * 2^e = 2^(e+k)], with the negative powers moved across. *)
Lemma pow2_shift (e k : Z) :
  0 <= k -> 0 <= e + k -> 2 ^ k * pow2_pos e = 2 ^ (e + k) * pow2_neg e.
Proof.
  intros Hk Hek. unfold pow2_pos, pow2_neg.
  destruct (Z.le_gt_cases 0 e) as [He|He].
  - rewrite (Z.max_r 0 e), (Z.max_l 0 (- e)) by lia.
    rewrite Z.pow_0_r, Z.mul_1_r, <- Z.pow_add_r by lia. f_equal; lia.
  - rewrite (Z.max_l 0 e), (Z.max_r 0 (- e)) by lia.
    rewrite Z.pow_0_r, Z.mul_1_r, <- Z.pow_add_r by lia. f_equal; lia.
Qed.

(** The exponent found for the quotient is its binary exponent:
    [b * 2^t <= m]. *)
Lemma quotient_exponent_lower (m b : Z) :
  0 < m -> 0 < b ->
  let t := quotient_exponent m b in
  b * pow2_pos t <= m * pow2_neg t.
Proof.
  intros Hm Hb. unfold quotient_exponent.
  set (t0 := Z.log2 m - Z.log2 b).
  destruct (m * pow2_neg t0 <? b * pow2_pos t0) eqn:E.
  2:{ apply Z.ltb_ge in E. exact E. }
  cbv zeta.
  pose proof (Z.log2_spec m Hm) as [Hm1 _].
  pose proof (Z.log2_spec b Hb) as [_ Hb2].
  pose proof (Z.log2_nonneg m) as Lm. pose proof (Z.log2_nonneg b) as Lb.
  rewrite Z.pow_succ_r in Hb2 by lia.
  unfold pow2_pos, pow2_neg.
  destruct (Z.le_gt_cases 0 (t0 - 1)) as [Ht|Ht].
  - rewrite (Z.max_r 0 (t0 - 1)), (Z.max_l 0 (- (t0 - 1))) by lia.
    rewrite Z.pow_0_r, Z.mul_1_r.
    assert (2 * 2 ^ Z.log2 b * 2 ^ (t0 - 1) = 2 ^ Z.log2 m).
    { rewrite <- Z.pow_succ_r, <- Z.pow_add_r by lia. f_equal. unfold t0. lia. }
    pose proof (Z.pow_pos_nonneg 2 (t0 - 1) ltac:(lia) Ht) as Hp.
    assert (b * 2 ^ (t0 - 1) < 2 * 2 ^ Z.log2 b * 2 ^ (t0 - 1))
      by (apply Z.mul_lt_mono_pos_r; lia).
    lia.
  - rewrite (Z.max_l 0 (t0 - 1)), (Z.max_r 0 (- (t0 - 1))) by lia.
    rewrite Z.pow_0_r, Z.mul_1_r.
    assert (2 ^ Z.log2 m * 2 ^ (- (t0 - 1)) = 2 * 2 ^ Z.log2 b).
    { rewrite <- Z.pow_succ_r, <- Z.pow_add_r by lia. f_equal. unfold t0. lia. }
    pose proof (Z.pow_pos_nonneg 2 (- (t0 - 1)) ltac:(lia) ltac:(lia)) as Hp.
    assert (2 ^ Z.log2 m * 2 ^ (- (t0 - 1)) <= m * 2 ^ (- (t0 - 1)))
      by (apply Z.mul_le_mono_nonneg_r; lia).
    lia.
Qed.

Lemma quotient_exponent_nonneg (m b : Z) :
  0 < b -> b <= m -> 0 <= quotient_exponent m b.
Proof.
  intros Hb Hm. unfold quotient_exponent.
  pose proof (Z.log2_le_mono b m Hm) as Hl.
  set (t0 := Z.log2 m - Z.log2 b).
  destruct (m * pow2_neg t0 <? b * pow2_pos t0) eqn:E; [|lia].
  apply Z.ltb_lt in E.
  destruct (Z.eq_dec t0 0) as [H0|H0]; [|lia].
  rewrite H0 in E. unfold pow2_neg, pow2_pos in E. simpl in E. lia.
Qed.

End RoundingFacts.

Section TrueDivisionFacts.

Lemma truediv_unfold (a b : Z) :
  0 < a ->
  let e := quotient_exponent a b - 52 in
  truediv a b
  = Qmake (round_half_even (a * pow2_neg e) (b * pow2_pos e) * pow2_pos e)
          (Z.to_pos (pow2_neg e)).
Proof.
  intros Ha. unfold truediv.
  replace (a =? 0) with false by (symmetry; apply Z.eqb_neq; lia).
  rewrite Z.abs_eq, Z.sgn_pos by lia. cbv zeta.
  f_equal. lia.
Qed.

(** The significand of a quotient has its top bit set. *)
Lemma significand_lower (a b : Z) :
  0 < a -> 0 < b ->
  let e := quotient_exponent a b - 52 in
  2 ^ 52 <= round_half_even (a * pow2_neg e) (b * pow2_pos e).
Proof.
  intros Ha Hb e.
  pose proof (pow2_pos_positive e) as HP. pose proof (pow2_neg_positive e) as HN.
  pose proof (round_half_even_floor (a * pow2_neg e) (b * pow2_pos e) ltac:(nia)) as [Hf _].
  eapply Z.le_trans; [|exact Hf].
  apply Z.div_le_lower_bound; [nia|].
  (* b * 2^e * 2^52 = b * 2^t <= a *)
  pose proof (quotient_exponent_lower a b Ha Hb) as Hl. cbv zeta in Hl.
  set (t := quotient_exponent a b) in *.
  pose proof (pow2_pos_positive t) as HPt. pose proof (pow2_neg_positive t) as HNt.
  assert (Hs : 2 ^ 52 * pow2_pos e * pow2_neg t = pow2_pos t * pow2_neg e).
  { unfold e, pow2_pos, pow2_neg.
    destruct (Z.le_gt_cases 0 t) as [Ht|Ht];
      destruct (Z.le_gt_cases 0 (t - 52)) as [He|He].
    - rewrite (Z.max_r 0 (t - 52)), (Z.max_l 0 (- t)), (Z.max_r 0 t),
        (Z.max_l 0 (- (t - 52))) by lia.
      rewrite Z.pow_0_r, !Z.mul_1_r, <- Z.pow_add_r by lia. f_equal; lia.
    - rewrite (Z.max_l 0 (t - 52)), (Z.max_l 0 (- t)), (Z.max_r 0 t),
        (Z.max_r 0 (- (t - 52))) by lia.
      rewrite Z.pow_0_r, !Z.mul_1_r, <- Z.pow_add_r by lia. f_equal; lia.
    - lia.
    - rewrite (Z.max_l 0 (t - 52)), (Z.max_r 0 (- t)), (Z.max_l 0 t),
        (Z.max_r 0 (- (t - 52))) by lia.
      rewrite Z.pow_0_r, Z.mul_1_r, Z.mul_1_l, <- Z.pow_add_r by lia. f_equal; lia. }
  (* multiply the goal by pow2_neg t > 0 *)
  apply (Z.mul_le_mono_pos_r _ _ (pow2_neg t) HNt).
  replace (b * pow2_pos e * 2 ^ 52 * pow2_neg t)
    with (b * (2 ^ 52 * pow2_pos e * pow2_neg t)) by ring.
  rewrite Hs.
  replace (b * (pow2_pos t * pow2_neg e)) with (b * pow2_pos t * pow2_neg e) by ring.
  replace (a * pow2_neg e * pow2_neg t) with (a * pow2_neg t * pow2_neg e) by ring.
  apply Z.mul_le_mono_nonneg_r; lia.
Qed.

(** A quotient of at least one is a double of at least one. *)
Lemma truediv_ge_1 (a b : Z) : 0 < b -> b <= a -> (1 <= truediv a b)%Q.
Proof.
  intros Hb Hab.
  rewrite truediv_unfold by lia. cbv zeta.
  pose proof (significand_lower a b ltac:(lia) Hb) as Hsig. cbv zeta in Hsig.
  pose proof (quotient_exponent_nonneg a b Hb Hab) as Ht.
  set (e := quotient_exponent a b - 52) in *.
  set (sig := round_half_even _ _) in *.
  pose proof (pow2_pos_positive e) as HP. pose proof (pow2_neg_positive e) as HN.
  unfold Qle; simpl. rewrite Z2Pos.id by lia.
  assert (pow2_neg e <= 2 ^ 52 * pow2_pos e).
  { unfold pow2_neg, pow2_pos.
    destruct (Z.le_gt_cases 0 e) as [He|He].
    - rewrite (Z.max_l 0 (- e)), (Z.max_r 0 e) by lia.
      pose proof (Z.pow_pos_nonneg 2 e ltac:(lia) He). rewrite Z.pow_0_r. lia.
    - rewrite (Z.max_r 0 (- e)), (Z.max_l 0 e) by lia.
      rewrite Z.pow_0_r, Z.mul_1_r. apply Z.pow_le_mono_r; lia. }
  nia.
Qed.

(** Below [2^53] an int is a double, and dividing it by a power of two
    is exact. *)
Lemma truediv_pow2_small (n k : Z) :
  0 < n < 2 ^ 53 -> 0 <= k ->
  let j := 52 - Z.log2 n in
  truediv n (2 ^ k) = Qmake (n * 2 ^ j) (Z.to_pos (2 ^ (k + j))).
Proof.
  intros Hn Hk j.
  assert (Hl : 0 <= Z.log2 n < 53).
  { split; [apply Z.log2_nonneg|]. apply Z.log2_lt_pow2; lia. }
  pose proof (Z.log2_spec n ltac:(lia)) as [Hn1 _].
  assert (Hq : quotient_exponent n (2 ^ k) = Z.log2 n - k).
  { unfold quotient_exponent. rewrite Z.log2_pow2 by lia.
    set (t0 := Z.log2 n - k).
    replace (n * pow2_neg t0 <? 2 ^ k * pow2_pos t0) with false; auto.
    symmetry. apply Z.ltb_ge.
    rewrite (pow2_shift t0 k) by (unfold t0; lia).
    replace (t0 + k) with (Z.log2 n) by (unfold t0; lia).
    apply Z.mul_le_mono_nonneg_r; [|lia].
    pose proof (pow2_neg_positive t0). lia. }
  rewrite truediv_unfold by lia. cbv zeta. rewrite Hq.
  assert (HP : pow2_pos (Z.log2 n - k - 52) = 1).
  { unfold pow2_pos. rewrite Z.max_l by lia. reflexivity. }
  assert (HN : pow2_neg (Z.log2 n - k - 52) = 2 ^ (k + j)).
  { unfold pow2_neg. rewrite Z.max_r by (unfold j; lia). f_equal. unfold j. lia. }
  rewrite HP, HN, !Z.mul_1_r.
  replace (n * 2 ^ (k + j)) with (n * 2 ^ j * 2 ^ k).
  2:{ rewrite (Z.add_comm k j), Z.pow_add_r by (unfold j; lia). ring. }
  rewrite round_half_even_exact by (apply Z.pow_pos_nonneg; lia).
  reflexivity.
Qed.

Lemma hundredths_pow2_small (n k : Z) :
  0 < n < 2 ^ 53 -> 0 <= k ->
  hundredths (truediv n (2 ^ k)) = round_half_even (100 * n) (2 ^ k).
Proof.
  intros Hn Hk. rewrite truediv_pow2_small by assumption. cbv zeta.
  set (j := 52 - Z.log2 n).
  assert (Hj : 0 <= j).
  { unfold j. assert (Z.log2 n < 53) by (apply Z.log2_lt_pow2; lia). lia. }
  unfold hundredths; simpl.
  rewrite Z2Pos.id by (apply Z.pow_pos_nonneg; lia).
  rewrite Z.pow_add_r by lia.
  replace (n * 2 ^ j * 100) with (100 * n * 2 ^ j) by ring.
  apply round_half_even_scale; apply Z.pow_pos_nonneg; lia.
Qed.

Lemma truediv_pow2_small_ge_1 (n k : Z) :
  0 < n < 2 ^ 53 -> 0 <= k ->
  Qle_bool 1 (truediv n (2 ^ k)) = (2 ^ k <=? n).
Proof.
  intros Hn Hk. rewrite truediv_pow2_small by assumption. cbv zeta.
  set (j := 52 - Z.log2 n).
  assert (Hj : 0 <= j).
  { unfold j. assert (Z.log2 n < 53) by (apply Z.log2_lt_pow2; lia). lia. }
  unfold Qle_bool; simpl.
  rewrite Z2Pos.id by (apply Z.pow_pos_nonneg; lia).
  rewrite Z.pow_add_r by lia.
  pose proof (Z.pow_pos_nonneg 2 j ltac:(lia) Hj).
  apply eq_true_iff_eq. rewrite !Z.leb_le. nia.
Qed.

Lemma truediv_nonneg (a b : Z) : 0 <= a -> 0 < b -> (0 <= truediv a b)%Q.
Proof.
  intros Ha Hb.
  destruct (Z.eq_dec a 0) as [->|Hne]; [now vm_compute|].
  rewrite truediv_unfold by lia. cbv zeta.
  pose proof (significand_lower a b ltac:(lia) Hb) as Hsig. cbv zeta in Hsig.
  set (e := quotient_exponent a b - 52) in *.
  pose proof (pow2_pos_positive e).
  unfold Qle; simpl. nia.
Qed.

End TrueDivisionFacts.

(** ** The sum of whole seconds and microseconds *)

Section FloatSumFacts.

(** The exponent found for a quotient below [2^k] is below [k]. *)
Lemma quotient_exponent_upper (a b k : Z) :
  0 < a -> 0 < b -> 0 <= k -> a < b * 2 ^ k -> quotient_exponent a b < k.
Proof.
  intros Ha Hb Hk Hlt.
  pose proof (quotient_exponent_lower a b Ha Hb) as Hl. cbv zeta in Hl.
  set (t := quotient_exponent a b) in *.
  destruct (Z.lt_ge_cases t k) as [|Hge]; [assumption|exfalso].
  unfold pow2_pos, pow2_neg in Hl.
  rewrite (Z.max_r 0 t), (Z.max_l 0 (- t)) in Hl by lia.
  rewrite Z.pow_0_r, Z.mul_1_r in Hl.
  assert (2 ^ k <= 2 ^ t) by (apply Z.pow_le_mono_r; lia).
  assert (b * 2 ^ k <= b * 2 ^ t) by (apply Z.mul_le_mono_nonneg_l; lia).
  lia.
Qed.

(** The whole part of a quotient that stays clear of the next integer
    survives the rounding to a double. *)
Lemma truediv_floor (a b s : Z) :
  0 < b -> 0 <= s < 2 ^ 34 -> b * s <= a ->
  b < 2 ^ 20 * (b * (s + 1) - a) ->
  int_of_float (truediv a b) = s.
Proof.
  intros Hb Hs Hlo Hhi.
  destruct (Z.eq_dec a 0) as [->|Hne].
  { assert (s = 0) by nia. subst s. reflexivity. }
  assert (Ha : 0 < a) by nia.
  rewrite truediv_unfold by assumption. cbv zeta.
  assert (Hlt : a < b * 2 ^ 34) by nia.
  pose proof (quotient_exponent_upper a b 34 Ha Hb ltac:(lia) Hlt) as Hq.
  set (e := quotient_exponent a b - 52) in *.
  assert (He : e <= -19) by (unfold e; lia).
  assert (HP : pow2_pos e = 1) by (unfold pow2_pos; rewrite Z.max_l by lia; reflexivity).
  set (N := pow2_neg e).
  assert (HN : 2 ^ 19 <= N).
  { unfold N, pow2_neg. rewrite Z.max_r by lia. apply Z.pow_le_mono_r; lia. }
  rewrite HP, !Z.mul_1_r.
  set (sig := round_half_even (a * N) b).
  pose proof (round_half_even_floor (a * N) b Hb) as [Hf _]. fold sig in Hf.
  pose proof (round_half_even_nearest (a * N) b Hb) as Hn. fold sig in Hn.
  assert (H1 : s * N <= sig).
  { eapply Z.le_trans; [|exact Hf]. apply Z.div_le_lower_bound; [lia|]. nia. }
  assert (H2 : sig < (s + 1) * N).
  { apply (Z.mul_lt_mono_pos_l b); [lia|].
    assert (2 * (b * sig - a * N) <= b) by lia.
    assert (2 ^ 19 * (b * (s + 1) - a) <= N * (b * (s + 1) - a))
      by (apply Z.mul_le_mono_nonneg_r; lia).
    nia. }
  unfold int_of_float. cbn [Qnum Qden]. rewrite Z2Pos.id by lia.
  rewrite Z.quot_div_nonneg by lia.
  symmetry. apply (Z.div_unique sig N s (sig - N * s)); lia.
Qed.

(** [us / 1e6] as a double, for a count of microseconds: a fraction
    that stays clear of one. *)
Lemma microsecond_fraction (us : Z) :
  0 <= us < 1000000 ->
  let d := truediv us 1000000 in
  0 <= Qnum d /\ 2 ^ 20 * Qnum d < (2 ^ 20 - 1) * Zpos (Qden d).
Proof.
  intros Hus.
  destruct (Z.eq_dec us 0) as [->|Hne]; [cbv; split; [discriminate|reflexivity]|].
  rewrite truediv_unfold by lia. cbv zeta.
  pose proof (quotient_exponent_upper us 1000000 0 ltac:(lia) ltac:(lia) ltac:(lia)
                ltac:(lia)) as Hq.
  set (e := quotient_exponent us 1000000 - 52) in *.
  assert (He : e <= -53) by (unfold e; lia).
  assert (HP : pow2_pos e = 1) by (unfold pow2_pos; rewrite Z.max_l by lia; reflexivity).
  set (N := pow2_neg e).
  assert (HN : 2 ^ 53 <= N).
  { unfold N, pow2_neg. rewrite Z.max_r by lia. apply Z.pow_le_mono_r; lia. }
  rewrite HP, !Z.mul_1_r. cbn [Qnum Qden]. rewrite Z2Pos.id by lia.
  set (sig := round_half_even (us * N) 1000000).
  pose proof (round_half_even_nonneg (us * N) 1000000 ltac:(nia) ltac:(lia)) as H0.
  fold sig in H0.
  pose proof (round_half_even_nearest (us * N) 1000000 ltac:(lia)) as Hn. fold sig in Hn.
  split; [exact H0|].
  assert (1000000 * sig <= 999999 * N + 500000) by nia.
  lia.
Qed.

(** Below [2^34] seconds the microseconds do not carry into the
    seconds of the float. *)
Lemma whole_seconds_survive (s us : Z) :
  0 <= s < 2 ^ 34 -> 0 <= us < 1000000 ->
  int_of_float (fadd (inject_Z s) (truediv us 1000000)) = s.
Proof.
  intros Hs Hus.
  pose proof (microsecond_fraction us Hus) as [H0 H1]. cbv zeta in H0, H1.
  unfold fadd. cbv zeta.
  destruct (truediv us 1000000) as [num den]. cbn [Qnum Qden] in *.
  unfold Qplus, inject_Z. cbn [Qnum Qden].
  rewrite Pos.mul_1_l, Z.mul_1_r.
  apply truediv_floor; try lia.
Qed.

End FloatSumFacts.

(** ** Decimal numerals *)

Section NumeralFacts.
Local Open Scope string_scope.

Lemma string_of_uint_digits (d : Decimal.uint) :
  all_digits (NilEmpty.string_of_uint d) = true.
Proof. induction d; simpl; auto. Qed.

Lemma str_of_Z_digits (z : Z) : 0 <= z -> all_digits (str_of_Z z) = true.
Proof.
  intros Hz. unfold str_of_Z.
  destruct z as [|p|p]; try lia; apply string_of_uint_digits.
Qed.

Lemma str_of_Z_nonempty (z : Z) : str_of_Z z <> EmptyString.
Proof.
  unfold str_of_Z. destruct z as [|p|p]; simpl; try discriminate.
  - pose proof (DecimalPos.Unsigned.to_uint_nonnil p) as H.
    destruct (Pos.to_uint p); simpl; try discriminate. now elim H.
Qed.

(** A number below one hundred is zero-filled to two digits. *)
Lemma zfill_two_digits (r : Z) :
  0 <= r < 100 ->
  exists d1 d2, zfill 2 (str_of_Z r) = String d1 (String d2 EmptyString)
                /\ is_digit d1 = true /\ is_digit d2 = true.
Proof.
  intros Hr.
  assert (H : forallb two_digit_check (map Z.of_nat (seq 0 100)) = true)
    by (vm_compute; reflexivity).
  rewrite forallb_forall in H.
  assert (Hin : In r (map Z.of_nat (seq 0 100))).
  { apply in_map_iff. exists (Z.to_nat r). split; [lia|].
    apply in_seq. lia. }
  specialize (H r Hin). unfold two_digit_check, PyDatetime.two_digits in H.
  destruct (zfill 2 (str_of_Z r)) as [|d1 [|d2 [|]]]; try discriminate.
  apply andb_true_iff in H. now exists d1, d2.
Qed.

Lemma fixed2_two_decimals (h : Z) : 0 <= h -> two_decimals (fixed2 h).
Proof.
  intros Hh. unfold fixed2, two_decimals.
  destruct (zfill_two_digits (h mod 100)) as [d1 [d2 [E [H1 H2]]]].
  { apply Z.mod_pos_bound; lia. }
  exists (str_of_Z (h / 100)), d1, d2. rewrite E.
  repeat split; auto.
  - apply str_of_Z_nonempty.
  - apply str_of_Z_digits. apply Z.div_pos; lia.
Qed.

Lemma format_2f_nonneg (x : Q) : (0 <= x)%Q -> format_2f x = fixed2 (hundredths x).
Proof.
  intros Hx. unfold format_2f.
  now replace (Qle_bool 0 x) with true by (symmetry; now apply Qle_bool_iff).
Qed.

Lemma hundredths_nonneg (x : Q) : (0 <= x)%Q -> 0 <= hundredths x.
Proof.
  intros Hx. unfold hundredths. apply round_half_even_nonneg; [|lia].
  unfold Qle in Hx; simpl in Hx. lia.
Qed.
End NumeralFacts.

(** ** format_bytes *)

(** C8. For a byte count [n >= 0], [format_bytes n] is a numeral with
    exactly two decimals followed by the unit: gigabytes when
    [n / 1024^3 >= 1], megabytes otherwise.  The numeral is the quotient
    rounded to hundredths; up to [2^53] bytes, where the quotient is an
    exact double, it is [100 * n / unit] rounded to the nearest integer,
    ties to even. *)
Theorem format_bytes_unit_and_precision (n : Z) :
  0 <= n ->
  let giga := 2 ^ 30 <=? n in
  let unit := if giga then 1024 ^ 3 else 1024 ^ 2 in
  let h := hundredths (truediv n unit) in
  format_bytes n = (fixed2 h ++ (if giga then " GB" else " MB"))%string
  /\ two_decimals (fixed2 h)
  /\ (n < 2 ^ 53 -> h = round_half_even (100 * n) unit).
Proof.
  intros Hn giga unit h.
  assert (Hunit : 0 < unit) by (unfold unit; destruct giga; reflexivity).
  assert (Hh : 0 <= h) by (apply hundredths_nonneg, truediv_nonneg; lia).
  assert (Hge : Qle_bool 1 (truediv n (1024 ^ 3)) = giga).
  { unfold giga. destruct (Z.lt_ge_cases n (2 ^ 53)) as [Hs|Hb].
    - destruct (Z.eq_dec n 0) as [->|Hne]; [reflexivity|].
      change (1024 ^ 3) with (2 ^ 30).
      apply truediv_pow2_small_ge_1; lia.
    - replace (2 ^ 30 <=? n) with true by (symmetry; apply Z.leb_le; lia).
      apply Qle_bool_iff, truediv_ge_1; lia. }
  repeat split.
  - unfold format_bytes. cbv zeta. rewrite Hge.
    unfold h, unit. destruct giga;
      rewrite format_2f_nonneg by (apply truediv_nonneg; [lia|reflexivity]);
      reflexivity.
  - now apply fixed2_two_decimals.
  - intros Hs. unfold h.
    destruct (Z.eq_dec n 0) as [->|Hne].
    + unfold unit; destruct giga; reflexivity.
    + unfold unit. destruct giga.
      * change (1024 ^ 3) with (2 ^ 30). apply hundredths_pow2_small; lia.
      * change (1024 ^ 2) with (2 ^ 20). apply hundredths_pow2_small; lia.
Qed.

Lemma format_bytes_unit_and_precision_witness :
  0 <= 1610612736
  /\ format_bytes 1610612736 = "1.50 GB"%string
  /\ two_decimals (fixed2 150).
Proof.
  split; [lia|].
  pose proof (format_bytes_unit_and_precision 1610612736 ltac:(lia)) as [H1 [H2 _]].
  split; [exact H1 | exact H2].
Defined.

(* ================================================================= *)
(** * Properties of time.py *)

Import PyDatetime TimeTool.

Local Open Scope string_scope.
Local Open Scope Z_scope.

Section TimeDiffFacts.

Lemma append_assoc (a b c : string) : (a ++ b) ++ c = a ++ (b ++ c).
Proof. induction a; simpl; congruence. Qed.

Lemma append_nil_r (a : string) : a ++ "" = a.
Proof. induction a; simpl; congruence. Qed.

Lemma strftime_stamp (f : naive) :
  strftime f "%Y-%m-%d %H:%M:%S" = Return (stamp f).
Proof.
  unfold stamp. cbn [strftime directive bind].
  now rewrite append_nil_r.
Qed.

(** The attributes of [abs(diff)], seen from the microsecond count. *)
Lemma mod_div_swap (s b c : Z) :
  0 < b -> 0 < c -> s mod (b * c) / b = (s / b) mod c.
Proof.
  intros Hb Hc.
  pose proof (Z.div_mod s b ltac:(lia)).
  pose proof (Z.mod_pos_bound s b Hb).
  pose proof (Z.div_mod (s / b) c ltac:(lia)).
  pose proof (Z.mod_pos_bound (s / b) c Hc).
  symmetry. apply (Z.div_unique _ b _ (s mod b)); [lia|].
  symmetry. apply (Z.mod_unique s (b * c) (s / b / c)); nia.
Qed.

Lemma mod_mod_factor (s b c : Z) :
  0 < b -> 0 < c -> (s mod (b * c)) mod b = s mod b.
Proof.
  intros Hb Hc.
  pose proof (Z.div_mod s (b * c) ltac:(nia)).
  pose proof (Z.div_mod (s mod (b * c)) b ltac:(lia)).
  pose proof (Z.mod_pos_bound (s mod (b * c)) b Hb).
  apply (Z.mod_unique s b (c * (s / (b * c)) + s mod (b * c) / b)); [lia|nia].
Qed.

Lemma hours_of_delta (d : Z) : td_seconds d / 3600 = whole_hours d.
Proof.
  unfold td_seconds, whole_hours.
  change 86400 with (3600 * 24). rewrite mod_div_swap by lia.
  rewrite Z.div_div by lia. reflexivity.
Qed.

Lemma minutes_of_delta (d : Z) : td_seconds d mod 3600 / 60 = whole_minutes d.
Proof.
  unfold td_seconds, whole_minutes.
  change 86400 with (3600 * 24). rewrite mod_mod_factor by lia.
  change 3600 with (60 * 60). rewrite mod_div_swap by lia.
  rewrite Z.div_div by lia. reflexivity.
Qed.

Lemma describe_breakdown (target : datetime) (d : Z) :
  1000 <= year (fields target) ->
  describe target d
  = Return ((if 0 <? d then FUTURE else PAST) ++ " " ++ stamp (fields target)
            ++ breakdown d).
Proof.
  intros Hy. unfold describe.
  rewrite hours_of_delta, minutes_of_delta, strftime_stamp.
  unfold bind. cbv zeta. f_equal.
  unfold breakdown, td_days, td_positive. fold (whole_days d).
  destruct (0 <? whole_days d); destruct (0 <? whole_hours d);
    destruct ((0 <? whole_minutes d) && (whole_days d =? 0));
    rewrite ?append_assoc, ?append_nil_r; cbn [append];
    rewrite ?append_nil_r; reflexivity.
Qed.

(** [time_diff] on a target that parses to a naive value. *)
Lemma time_diff_naive (rt : Runtime) (target_str : string) (target : datetime) :
  parse_target rt target_str = Some target ->
  tzinfo target = None ->
  1000 <= year (fields target) ->
  let d := delta rt (fields target) in
  time_diff rt target_str
  = Return ((if 0 <? d then FUTURE else PAST) ++ " " ++ stamp (fields target)
            ++ breakdown d).
Proof.
  intros Hp Hn Hy d. subst d. unfold delta, time_diff. rewrite Hp.
  unfold sub. rewrite Hn. cbn [tzinfo naive_datetime fields bind].
  exact (describe_breakdown target _ Hy).
Qed.

Lemma time_diff_aware (rt : Runtime) (target_str : string) (target : datetime) (off : Z) :
  parse_target rt target_str = Some target ->
  tzinfo target = Some off ->
  time_diff rt target_str = Raise TypeError.
Proof.
  intros Hp Ha. unfold time_diff. rewrite Hp. unfold sub. rewrite Ha. reflexivity.
Qed.

Lemma time_diff_unparsed (rt : Runtime) (target_str : string) :
  parse_target rt target_str = None ->
  time_diff rt target_str = Return INVALID_DATE.
Proof. intros Hp. unfold time_diff. now rewrite Hp. Qed.

End TimeDiffFacts.

(** ** time_diff *)

(** C2 (defect).  [time_diff] does not always return a string: a target
    that parses to an aware datetime, as every input with a [Z] suffix
    or a UTC offset does, is subtracted from the naive [datetime.now()];
    the subtraction raises [TypeError] outside both [try] blocks, and
    [main] ends with that exception having printed nothing. *)
Theorem time_diff_aware_target_raises
        (rt : Runtime) (target_str : string) (target : datetime) (off : Z) :
  parse_target rt target_str = Some target ->
  tzinfo target = Some off ->
  time_diff rt target_str = Raise TypeError
  /\ forall args,
       arg_unix args = false ->
       truthy (arg_timestamp args) = false ->
       arg_diff args = Some target_str ->
       target_str <> EmptyString ->
       main rt args = ([], Raise TypeError).
Proof.
  intros Hp Ha.
  pose proof (time_diff_aware rt target_str target off Hp Ha) as Hd.
  split; [exact Hd|].
  intros args Hu Ht Hs Hne. unfold main.
  rewrite Hu, Ht, Hs.
  destruct target_str as [|c r]; [contradiction|].
  cbn [truthy text]. rewrite Hd. reflexivity.
Qed.

Lemma time_diff_aware_target_raises_witness :
  time_diff Sample.sample_runtime "2024-01-01T00:00:00Z" = Raise TypeError
  /\ main Sample.sample_runtime (Sample.diff_args "2024-01-01T00:00:00Z")
     = ([], Raise TypeError).
Proof.
  destruct (time_diff_aware_target_raises
              Sample.sample_runtime "2024-01-01T00:00:00Z"
              {| fields := Sample.midnight 2024 1 1; tzinfo := Some 0 |} 0
              eq_refl eq_refl) as [H1 H2].
  split; [exact H1|].
  apply H2; [reflexivity | reflexivity | reflexivity | discriminate].
Defined.




(** C10.  When the target is the clock reading itself, a delta of zero,
    [time_diff] uses the past word; its output begins with the future
    word exactly when the delta is positive. *)
Theorem time_diff_equal_instant_is_past
        (rt : Runtime) (target_str : string) (target : datetime) :
  parse_target rt target_str = Some target ->
  tzinfo target = None ->
  1000 <= year (fields target) ->
  (delta rt (fields target) = 0 ->
   time_diff rt target_str = Return (PAST ++ " " ++ stamp (fields target)))
  /\ (forall out, time_diff rt target_str = Return out ->
                  (String.prefix FUTURE out = true <-> 0 < delta rt (fields target))).
Proof.
  intros Hp Hn Hy.
  pose proof (time_diff_naive rt target_str target Hp Hn Hy) as Hd. cbv zeta in Hd.
  split.
  - intros H0. rewrite Hd, H0. cbn [Z.ltb Z.compare].
    unfold breakdown, whole_days, whole_hours, whole_minutes. simpl.
    now rewrite !append_nil_r.
  - intros out Ho. rewrite Hd in Ho.
    assert (Hout : out = (if 0 <? delta rt (fields target) then FUTURE else PAST)
                         ++ " " ++ stamp (fields target)
                         ++ breakdown (delta rt (fields target)))
      by congruence.
    rewrite Hout. clear Ho Hout Hd.
    destruct (0 <? delta rt (fields target)) eqn:E.
    + apply Z.ltb_lt in E. split; auto.
    + apply Z.ltb_ge in E. split; [discriminate|lia].
Qed.

Lemma time_diff_equal_instant_is_past_witness :
  time_diff (Sample.runtime_at (Some Sample.sample_zones) Sample.sample_now_sharp)
            "2024-03-15 10:30:00"
  = Return "已过去 2024-03-15 10:30:00".
Proof.
  destruct (time_diff_equal_instant_is_past
              (Sample.runtime_at (Some Sample.sample_zones) Sample.sample_now_sharp)
              "2024-03-15 10:30:00"
              (naive_datetime Sample.sample_now_sharp)
              eq_refl eq_refl ltac:(simpl; lia)) as [H _].
  exact (H eq_refl).
Defined.

(** ** format_time *)

Lemma weekday_cases (f : naive) :
  weekday f = 0 \/ weekday f = 1 \/ weekday f = 2 \/ weekday f = 3
  \/ weekday f = 4 \/ weekday f = 5 \/ weekday f = 6.
Proof.
  unfold weekday. pose proof (Z.mod_pos_bound (toordinal f + 6) 7 ltac:(lia)). lia.
Qed.

(** On the default format the chain produces the intended template. *)
Lemma format_template_default (f : naive) :
  format_template f DEFAULT_FORMAT = "%Y-%m-%d %H:%M:%S".
Proof. vm_compute. reflexivity. Qed.

Lemma format_time_default (rt : Runtime) (dt : datetime) :
  format_time rt dt DEFAULT_FORMAT None = Return (stamp (fields dt)).
Proof.
  unfold format_time, convert. cbn [truthy bind].
  now rewrite format_template_default, strftime_stamp.
Qed.

(** [ss] is replaced before [SSS]: in [ssSS] the [%S] written for [ss]
    and the two letters after it are read as [SSS] and replaced by the
    milliseconds (250 on the sample clock). *)
Lemma format_template_ssSS : format_template Sample.sample_now "ssSS" = "%250".
Proof. vm_compute. reflexivity. Qed.

(** C1 (defect).  The chain of replacements does mistake replacement text
    for a token.  [DD] becomes the placeholder [%d]; in the format
    [DDdd] its [d] and the two letters after it are then read as the
    token [ddd] and replaced by the short weekday name.  In the same way
    the [%m] written for [MM] completes an [mm], and the [%Y] written
    for [YYYY] completes a [YY]: for [MMm] the text [%M] is printed
    instead of the month and an [m], for [YYYYY] the text [%y] instead
    of the year and a [Y]. *)
Theorem format_template_rematches_placeholder (f : naive) :
  format_template f "DDdd" = "%" ++ index WEEKDAYS_SHORT (weekday f)
  /\ format_template f "MMm" = "%%M"
  /\ format_template f "YYYYY" = "%%y"
  /\ strftime f (format_template f "MMm") = Return "%M"
  /\ strftime f (format_template f "YYYYY") = Return "%y".
Proof.
  assert (HM : format_template f "MMm" = "%%M") by (vm_compute; reflexivity).
  assert (HY : format_template f "YYYYY" = "%%y") by (vm_compute; reflexivity).
  split; [|rewrite HM, HY; repeat split].
  unfold format_template.
  destruct (weekday_cases f) as [H|[H|[H|[H|[H|[H|H]]]]]]; rewrite H;
    vm_compute; reflexivity.
Qed.

(** C3, the claim as stated fails: on an interpreter without [zoneinfo]
    an unresolvable identifier makes [format_time] render the instant in
    UTC (02:30 for a host clock reading 10:30 at UTC+8), and [main]
    prints no line naming the identifier. *)
Lemma unresolvable_zone_without_error :
  ZoneInfo Sample.bare_runtime = None
  /\ format_time Sample.bare_runtime (naive_datetime Sample.sample_now)
                 DEFAULT_FORMAT (Some "Mars/Phobos")
     = Return "2024-03-15 02:30:00"
  /\ ~ signals_invalid_zone
         (fst (main Sample.bare_runtime (Sample.zone_args "Mars/Phobos")))
         "Mars/Phobos".
Proof.
  split; [reflexivity|]. split; [reflexivity|].
  intros [H _]. vm_compute in H.
  destruct H as [H|[H|[]]]; discriminate H.
Qed.

(** C3, amended.  With a timezone requested and the local line printed.
    For a non-empty identifier: when [ZoneInfo] is available and rejects
    it, [main] prints the line naming the invalid identifier and the
    line of example identifiers, and nothing rendered in another zone;
    when [ZoneInfo] is not available, [main] prints only the warning
    that zoneinfo support is needed, and [format_time] given a zone
    renders in UTC.  An empty identifier counts as none: the run is the
    run without [--timezone], which names no identifier. *)
Theorem unresolvable_zone_reporting
        (rt : Runtime) (args : Args) (tz shown : string) :
  arg_unix args = false ->
  truthy (arg_timestamp args) = false ->
  truthy (arg_diff args) = false ->
  arg_timezone args = Some tz ->
  format_time rt (naive_datetime (now rt)) (arg_format args) None = Return shown ->
  (tz <> EmptyString ->
   (forall ctor e,
       ZoneInfo rt = Some ctor -> ctor tz = inl e ->
       main rt args
       = (["系统时间: " ++ shown; INVALID_ZONE ++ tz; COMMON_ZONES], Return tt))
   /\ (ZoneInfo rt = None ->
       main rt args = (["系统时间: " ++ shown; ZONEINFO_WARNING], Return tt)
       /\ forall dt fmt,
            format_time rt dt fmt (Some tz)
            = (dt' <- astimezone (local rt) dt utc ;;
               strftime (fields dt') (format_template (fields dt') fmt))))
  /\ (tz = EmptyString ->
      main rt args
      = main rt {| arg_timezone := None; arg_format := arg_format args;
                   arg_diff := arg_diff args; arg_timestamp := arg_timestamp args;
                   arg_unix := arg_unix args |}).
Proof.
  intros Hu Ht Hd Hz Hs. split.
  - intros Hne.
    destruct tz as [|c r]; [contradiction|].
    assert (Hmain : main rt args = print_zone rt args ["系统时间: " ++ shown]).
    { unfold main. rewrite Hu, Ht, Hd, Hs. unfold print at 1.
      rewrite Hz. reflexivity. }
    split.
    + intros ctor e Hc He. rewrite Hmain. unfold print_zone.
      rewrite Hz, Hc. cbn [truthy].
      unfold format_time, convert. rewrite Hc, He. reflexivity.
    + intros Hc. split.
      * rewrite Hmain. unfold print_zone. rewrite Hz, Hc. reflexivity.
      * intros dt fmt. unfold format_time, convert. rewrite Hc. reflexivity.
  - intros ->. unfold main, print_zone.
    cbn [arg_unix arg_timestamp arg_diff arg_format arg_timezone].
    rewrite Hu, Ht, Hd, Hz. reflexivity.
Qed.

Lemma unresolvable_zone_reporting_witness :
  main Sample.sample_runtime (Sample.zone_args "Mars/Phobos")
  = (["系统时间: 2024-03-15 10:30:00"; "无效时区: Mars/Phobos"; COMMON_ZONES],
     Return tt)
  /\ main Sample.bare_runtime (Sample.zone_args "Mars/Phobos")
     = (["系统时间: 2024-03-15 10:30:00"; ZONEINFO_WARNING], Return tt)
  /\ main Sample.sample_runtime (Sample.zone_args "")
     = main Sample.sample_runtime Sample.plain_args.
Proof.
  split; [|split].
  - destruct (unresolvable_zone_reporting
                Sample.sample_runtime (Sample.zone_args "Mars/Phobos")
                "Mars/Phobos" "2024-03-15 10:30:00"
                eq_refl eq_refl eq_refl eq_refl eq_refl)
      as [H _].
    destruct (H ltac:(discriminate)) as [H1 _].
    exact (H1 Sample.sample_zones ZoneInfoNotFoundError eq_refl eq_refl).
  - destruct (unresolvable_zone_reporting
                Sample.bare_runtime (Sample.zone_args "Mars/Phobos")
                "Mars/Phobos" "2024-03-15 10:30:00"
                eq_refl eq_refl eq_refl eq_refl eq_refl)
      as [H _].
    destruct (H ltac:(discriminate)) as [_ H2].
    exact (proj1 (H2 eq_refl)).
  - destruct (unresolvable_zone_reporting
                Sample.sample_runtime (Sample.zone_args "")
                "" "2024-03-15 10:30:00"
                eq_refl eq_refl eq_refl eq_refl eq_refl)
      as [_ H].
    exact (H eq_refl).
Defined.

Section TimestampFacts.



Lemma of_wall_year (secs us : Z) : year (of_wall secs us) = year (of_wall secs 0).
Proof. unfold of_wall. destruct (ord2ymd _) as [[y m] d]. reflexivity. Qed.

Lemma of_wall_stamp (secs us : Z) : stamp (of_wall secs us) = stamp (of_wall secs 0).
Proof. unfold of_wall. destruct (ord2ymd _) as [[y m] d]. reflexivity. Qed.

Lemma ord2ymd_cases (n : Z) :
  exists y,
    ord2ymd n = (y, 12, 31)
    \/ exists k leapyear,
         0 <= k < 365
         /\ ord2ymd n = (y, fst (month_day k leapyear), snd (month_day k leapyear)).
Proof.
  unfold ord2ymd. cbv zeta.
  set (n100 := (n - 1) mod DI400Y / DI100Y).
  set (n1 := (n - 1) mod DI400Y mod DI100Y mod DI4Y / 365).
  set (n4 := (n - 1) mod DI400Y mod DI100Y / DI4Y).
  set (k := (n - 1) mod DI400Y mod DI100Y mod DI4Y mod 365).
  set (y := (n - 1) / DI400Y * 400 + 1 + n100 * 100 + n4 * 4 + n1).
  destruct ((n1 =? 4) || (n100 =? 4)).
  - exists (y - 1). now left.
  - exists y. right.
    exists k, ((n1 =? 3) && (negb (n4 =? 24) || (n100 =? 3))).
    split; [apply Z.mod_pos_bound; lia|].
    unfold month_day. cbv zeta.
    destruct (k <? _); reflexivity.
Qed.

Lemma in_Z_range (lo len z : Z) : lo <= z < lo + len -> In z (Z_range lo len).
Proof.
  intros H. apply in_map_iff. exists (Z.to_nat (z - lo)). split; [lia|].
  apply in_seq. lia.
Qed.

Lemma month_day_range (k : Z) (leapyear : bool) :
  0 <= k < 365 ->
  1 <= fst (month_day k leapyear) <= 12 /\ 1 <= snd (month_day k leapyear) <= 31.
Proof.
  intros Hk.
  assert (H : forall b, forallb (month_day_check b) (Z_range 0 365) = true)
    by (intros [|]; vm_compute; reflexivity).
  specialize (H leapyear). rewrite forallb_forall in H.
  specialize (H k (in_Z_range 0 365 k ltac:(lia))).
  unfold month_day_check in H. destruct (month_day k leapyear) as [m d].
  rewrite !andb_true_iff, !Z.leb_le in H. simpl. lia.
Qed.

(** The fields of a calendar reading are in their ranges. *)
Lemma of_wall_ranges (secs us : Z) :
  let f := of_wall secs us in
  1 <= month f <= 12 /\ 1 <= day f <= 31
  /\ 0 <= hour f < 24 /\ 0 <= minute f < 60 /\ 0 <= second f < 60.
Proof.
  unfold of_wall.
  pose proof (Z.mod_pos_bound secs 86400 ltac:(lia)) as Hr.
  assert (Hh : 0 <= secs mod 86400 / 3600 < 24).
  { split; [apply Z.div_pos; lia | apply Z.div_lt_upper_bound; lia]. }
  assert (Hm : 0 <= secs mod 86400 mod 3600 / 60 < 60).
  { pose proof (Z.mod_pos_bound (secs mod 86400) 3600 ltac:(lia)).
    split; [apply Z.div_pos; lia | apply Z.div_lt_upper_bound; lia]. }
  pose proof (Z.mod_pos_bound (secs mod 86400) 60 ltac:(lia)) as Hs.
  destruct (ord2ymd_cases (secs / 86400 + EPOCH_ORDINAL)) as [y [E | [k [b [Hk E]]]]];
    rewrite E; cbv zeta; cbn [year month day hour minute second].
  - lia.
  - pose proof (month_day_range k b Hk). lia.
Qed.

Lemma four_digit_year (y : Z) : 1000 <= y <= 9999 -> digits_n 4 (str_of_Z y).
Proof.
  intros Hy.
  assert (H : forallb four_digit_check (Z_range 1000 9000) = true)
    by (vm_compute; reflexivity).
  rewrite forallb_forall in H.
  specialize (H y (in_Z_range 1000 9000 y ltac:(lia))).
  unfold four_digit_check in H. apply andb_true_iff in H. destruct H as [Hl Hd].
  split; [now apply Nat.eqb_eq | exact Hd].
Qed.

Lemma two_digit_field (r : Z) : 0 <= r < 100 -> digits_n 2 (two_digits r).
Proof.
  intros Hr. destruct (zfill_two_digits r Hr) as [d1 [d2 [E [H1 H2]]]].
  unfold two_digits, digits_n. rewrite E. simpl. now rewrite H1, H2.
Qed.

Lemma stamp_shape (f : naive) :
  1000 <= year f <= 9999 ->
  1 <= month f <= 12 -> 1 <= day f <= 31 ->
  0 <= hour f < 24 -> 0 <= minute f < 60 -> 0 <= second f < 60 ->
  clock_shape (stamp f).
Proof.
  intros Hy Hm Hd Hh Hmi Hs. unfold clock_shape, stamp.
  exists (str_of_Z (year f)), (two_digits (month f)), (two_digits (day f)),
    (two_digits (hour f)), (two_digits (minute f)), (two_digits (second f)).
  split; [reflexivity|].
  repeat split; try (apply four_digit_year; lia);
    try (apply two_digit_field; lia).
Qed.

(** Rendering the result of [fromtimestamp] for an instant within the
    second [secs]. *)
Lemma shown_within_second (rt : Runtime) (secs us : Z) :
  (let f := of_wall (secs + localtime_offset (local rt) secs) us in
   match (if year_in_range f then Return (naive_datetime f) else Raise ValueError) with
   | Return dt => strftime (fields dt) "%Y-%m-%d %H:%M:%S"
   | Raise _ => Return INVALID_TIMESTAMP
   | Unspecified => Unspecified
   end)
  = shown_at rt secs.
Proof.
  cbv zeta. unfold shown_at, year_in_range.
  rewrite (of_wall_year _ us).
  destruct (_ && _); [|reflexivity].
  cbn [fields naive_datetime]. rewrite strftime_stamp.
  now rewrite of_wall_stamp.
Qed.

Lemma timestamp_to_date_seconds (rt : Runtime) (s : string) (n : Z) :
  PyInt.int s = Return n -> n < 10 ^ 12 ->
  timestamp_to_date rt s = shown_at rt n.
Proof.
  intros Hi Hn. unfold timestamp_to_date. rewrite Hi.
  replace (n <? 10 ^ 12) with true by (symmetry; apply Z.ltb_lt; lia).
  unfold fromtimestamp. cbn [inject_Z Qnum Qden].
  replace (round_half_even (n * 1000000) 1) with (n * 1000000)
    by (symmetry; rewrite <- (Z.mul_1_r (n * 1000000)) at 1;
        apply round_half_even_exact; lia).
  rewrite Z.div_mul by lia.
  apply shown_within_second.
Qed.


(** [int] on a string returns or raises [ValueError]. *)
Lemma int_cases (s : string) :
  (exists n, PyInt.int s = Return n) \/ PyInt.int s = Raise ValueError.
Proof.
  assert (H : forall t, (exists n, PyInt.parse t = Return n)
                        \/ PyInt.parse t = Raise ValueError).
  { intros t. unfold PyInt.parse. cbv zeta.
    destruct (PyInt.literal _) as [n|]; [|now right].
    destruct (Nat.ltb _ _); [now right|left; now exists n]. }
  unfold PyInt.int. destruct (PyInt.is_ascii s); [apply H|].
  destruct (PyInt.to_ascii s); [apply H|now right].
Qed.

(** From the first day of the year 10000 on, the year of a day is
    beyond the calendar. *)
Lemma ord2ymd_year_late (n : Z) :
  3652060 <= n -> 10000 <= fst (fst (ord2ymd n)).
Proof.
  intros Hn. unfold ord2ymd. cbv zeta. unfold DI400Y, DI100Y, DI4Y.
  pose proof (Z.div_mod (n - 1) 146097 ltac:(lia)) as H400.
  pose proof (Z.mod_pos_bound (n - 1) 146097 ltac:(lia)) as B400.
  set (n400 := (n - 1) / 146097) in *. set (r := (n - 1) mod 146097) in *.
  pose proof (Z.div_mod r 36524 ltac:(lia)) as H100.
  pose proof (Z.mod_pos_bound r 36524 ltac:(lia)) as B100.
  set (n100 := r / 36524) in *. set (r1 := r mod 36524) in *.
  pose proof (Z.div_mod r1 1461 ltac:(lia)) as H4.
  pose proof (Z.mod_pos_bound r1 1461 ltac:(lia)) as B4.
  set (n4 := r1 / 1461) in *. set (r2 := r1 mod 1461) in *.
  pose proof (Z.div_mod r2 365 ltac:(lia)) as H1.
  pose proof (Z.mod_pos_bound r2 365 ltac:(lia)) as B1.
  set (n1 := r2 / 365) in *. set (r3 := r2 mod 365) in *.
  assert (Y : 10000 <= n400 * 400 + 1 + n100 * 100 + n4 * 4 + n1
              /\ ((n1 = 4 \/ n100 = 4) ->
                  10001 <= n400 * 400 + 1 + n100 * 100 + n4 * 4 + n1)) by lia.
  destruct Y as [Y1 Y2].
  destruct ((n1 =? 4) || (n100 =? 4)) eqn:E.
  - apply orb_true_iff in E. rewrite !Z.eqb_eq in E. cbn [fst]. lia.
  - destruct (r3 <? _); cbn [fst]; lia.
Qed.

Lemma of_wall_year_late (secs us : Z) :
  253402300800 <= secs -> 10000 <= year (of_wall secs us).
Proof.
  intros Hs. unfold of_wall.
  assert (Hd : 2932897 <= secs / 86400) by (apply Z.div_le_lower_bound; lia).
  pose proof (ord2ymd_year_late (secs / 86400 + EPOCH_ORDINAL)
                ltac:(unfold EPOCH_ORDINAL; lia)) as H.
  destruct (ord2ymd (secs / 86400 + EPOCH_ORDINAL)) as [[y m] d].
  cbn [fst year] in *. exact H.
Qed.





End TimestampFacts.

(** ** timestamp_to_date *)




(* ================================================================= *)
(** * Further properties of sysinfo.py *)

Import Laws.

Section CollectorFacts.

Lemma get_network_info_rows (h : Host) :
  get_network_info h
  = flat_map (fun ia => map (net_row (fst ia)) (filter is_ipv4 (snd ia)))
             (net_if_addrs h).
Proof.
  unfold get_network_info.
  induction (net_if_addrs h) as [|[ifname addrs] l IH]; simpl; [reflexivity|].
  rewrite IH. f_equal.
  induction addrs as [|a addrs IHa]; simpl; [reflexivity|].
  unfold is_ipv4 at 1. destruct (family a =? 2); simpl; now rewrite IHa.
Qed.

Lemma get_network_info_length (h : Host) :
  List.length (get_network_info h) = ipv4_count h.
Proof.
  rewrite get_network_info_rows. unfold ipv4_count.
  induction (net_if_addrs h) as [|ia l IH]; simpl; [reflexivity|].
  now rewrite length_app, length_map, IH.
Qed.

(** The ranking of all the processes that could be read. *)
Lemma get_process_info_ranking (h : Host) (top : Z) :
  get_process_info h top
  = slice_to top (list_sort memory_key true (enumerated h)).
Proof. unfold get_process_info. now rewrite collected. Qed.

Lemma ranking_length (h : Host) :
  List.length (list_sort memory_key true (enumerated h))
  = List.length (enumerated h).
Proof. apply Permutation_length, list_sort_reverse_perm. Qed.

Lemma slice_to_nonneg {A : Type} (stop : Z) (l : list A) :
  0 <= stop -> slice_to stop l = firstn (Z.to_nat stop) l.
Proof.
  intros H. unfold slice_to.
  now replace (stop <? 0) with false by (symmetry; apply Z.ltb_ge; lia).
Qed.

Lemma slice_to_negative {A : Type} (stop : Z) (l : list A) :
  stop < 0 ->
  slice_to stop l = firstn (Z.to_nat (Z.of_nat (List.length l) + stop)) l.
Proof.
  intros H. unfold slice_to.
  now replace (stop <? 0) with true by (symmetry; apply Z.ltb_lt; lia).
Qed.

Lemma get_process_info_length (h : Host) (top : Z) :
  0 <= top ->
  List.length (get_process_info h top)
  = Nat.min (Z.to_nat top) (List.length (enumerated h)).
Proof.
  intros Ht. rewrite get_process_info_ranking, slice_to_nonneg by assumption.
  now rewrite length_firstn, ranking_length.
Qed.

Lemma get_disk_info_length (h : Host) :
  List.length (get_disk_info h) = readable_count h.
Proof.
  rewrite get_disk_info_rows. unfold readable_rows, readable_count, readable.
  induction (disk_partitions h) as [|p l IH]; simpl; [reflexivity|].
  destruct (disk_usage h (mountpoint p)); simpl; now rewrite IH.
Qed.

End CollectorFacts.

(** X1. [get_network_info] lists the addresses of family 2 and no
    others: one entry for each such address, interface by interface in
    the order psutil gives them; an entry is listed exactly when it
    comes from a family-2 address of some interface. *)
Theorem get_network_info_ipv4_only (h : Host) :
  get_network_info h
  = flat_map (fun ia => map (net_row (fst ia)) (filter is_ipv4 (snd ia)))
             (net_if_addrs h)
  /\ (forall e,
         In e (get_network_info h)
         <-> exists ifname addrs a,
               In (ifname, addrs) (net_if_addrs h) /\ In a addrs
               /\ family a = 2 /\ e = net_row ifname a)
  /\ List.length (get_network_info h) = ipv4_count h.
Proof.
  split; [apply get_network_info_rows|].
  split; [|apply get_network_info_length]. rewrite get_network_info_rows.
  intros e. rewrite in_flat_map. split.
  - intros [[ifname addrs] [Hi He]]. simpl in He.
    apply in_map_iff in He. destruct He as [a [<- Ha]].
    apply filter_In in Ha. destruct Ha as [Ha Hf].
    exists ifname, addrs, a. repeat split; auto.
    now apply Z.eqb_eq.
  - intros [ifname [addrs [a [Hi [Ha [Hf ->]]]]]].
    exists (ifname, addrs). split; auto. simpl.
    apply in_map, filter_In. split; auto. now apply Z.eqb_eq.
Qed.

(** X2. [get_process_info] for every integer [top].  A [top] that is
    not negative gives as many processes as are visible, up to [top]:
    all of them when there are no more than [top], and a larger [top]
    only extends the list.  A negative [top] does not give an empty
    list: the slice [processes[:top]] drops the last [-top] entries of
    the ranking and returns the rest. *)
Theorem get_process_info_top (h : Host) (top top' : Z) :
  let n := Z.of_nat (List.length (enumerated h)) in
  (0 <= top ->
   Z.of_nat (List.length (get_process_info h top)) = Z.min top n)
  /\ (n <= top -> Permutation (get_process_info h top) (enumerated h))
  /\ (0 <= top <= top' ->
      get_process_info h top = firstn (Z.to_nat top) (get_process_info h top'))
  /\ (top < 0 ->
      get_process_info h top
      = firstn (Z.to_nat (n + top)) (get_process_info h n)
      /\ Z.of_nat (List.length (get_process_info h top)) = Z.max 0 (n + top)).
Proof.
  intros n. rewrite !get_process_info_ranking.
  set (sorted := list_sort memory_key true (enumerated h)).
  assert (Hl : Z.of_nat (List.length sorted) = n)
    by (unfold n, sorted; now rewrite ranking_length).
  split; [|split; [|split]].
  - intros Ht. rewrite slice_to_nonneg, length_firstn by assumption. lia.
  - intros Hle. rewrite slice_to_nonneg by lia.
    rewrite firstn_all2 by lia. apply list_sort_reverse_perm.
  - intros Hle. rewrite !slice_to_nonneg by lia.
    rewrite firstn_firstn. f_equal. lia.
  - intros Hneg. rewrite slice_to_negative by assumption.
    rewrite (slice_to_nonneg n) by lia.
    rewrite firstn_firstn, Hl.
    replace (Nat.min (Z.to_nat (n + top)) (Z.to_nat n)) with (Z.to_nat (n + top))
      by lia.
    split; [reflexivity|]. rewrite length_firstn. lia.
Qed.

Lemma get_process_info_top_witness :
  map pid (get_process_info sample_host 2) = [7; 1]
  /\ map pid (get_process_info sample_host (-1)) = [7; 1]
  /\ get_process_info sample_host (-1)
     = firstn 2 (get_process_info sample_host 3).
Proof.
  split; [reflexivity|]. split; [reflexivity|].
  exact (proj1 (proj2 (proj2 (proj2 (get_process_info_top sample_host (-1) 0)))
                 ltac:(lia))).
Defined.

Section ByteFacts.

Lemma truediv_opp (a b : Z) : truediv (- a) b = Qopp (truediv a b).
Proof.
  unfold truediv.
  destruct (Z.eq_dec a 0) as [->|Ha]; [reflexivity|].
  replace (- a =? 0) with false by (symmetry; apply Z.eqb_neq; lia).
  replace (a =? 0) with false by (symmetry; apply Z.eqb_neq; lia).
  rewrite Z.abs_opp, Z.sgn_opp. cbv zeta. unfold Qopp. cbn [Qnum Qden].
  f_equal. ring.
Qed.

Lemma truediv_pos (a b : Z) : 0 < a -> 0 < b -> (0 < truediv a b)%Q.
Proof.
  intros Ha Hb. rewrite truediv_unfold by lia. cbv zeta.
  pose proof (significand_lower a b Ha Hb) as Hsig. cbv zeta in Hsig.
  set (e := quotient_exponent a b - 52) in *.
  pose proof (pow2_pos_positive e).
  unfold Qlt; simpl. nia.
Qed.

(** Which unit [format_bytes] picks, and the hundredths it prints. *)
Lemma format_bytes_nonneg (n : Z) :
  0 <= n ->
  format_bytes n
  = if 2 ^ 30 <=? n
    then fixed2 (hundredths (truediv n (1024 ^ 3))) ++ " GB"
    else fixed2 (hundredths (truediv n (1024 ^ 2))) ++ " MB".
Proof.
  intros Hn.
  assert (Hge : Qle_bool 1 (truediv n (1024 ^ 3)) = (2 ^ 30 <=? n)).
  { destruct (Z.lt_ge_cases n (2 ^ 53)) as [Hs|Hb].
    - destruct (Z.eq_dec n 0) as [->|Hne]; [reflexivity|].
      change (1024 ^ 3) with (2 ^ 30).
      apply truediv_pow2_small_ge_1; lia.
    - replace (2 ^ 30 <=? n) with true by (symmetry; apply Z.leb_le; lia).
      apply Qle_bool_iff, truediv_ge_1; lia. }
  unfold format_bytes. cbv zeta. rewrite Hge.
  destruct (2 ^ 30 <=? n);
    rewrite format_2f_nonneg by (apply truediv_nonneg; [lia|reflexivity]);
    reflexivity.
Qed.

Lemma hundredths_ge_100 (x : Q) : (1 <= x)%Q -> 100 <= hundredths x.
Proof.
  intros Hx. unfold hundredths.
  pose proof (round_half_even_floor (Qnum x * 100) (Zpos (Qden x)) ltac:(lia)) as [Hf _].
  eapply Z.le_trans; [|exact Hf].
  apply Z.div_le_lower_bound; [lia|].
  unfold Qle in Hx; simpl in Hx. lia.
Qed.

Lemma format_bytes_text (n : Z) : 0 <= n -> byte_text (format_bytes n).
Proof.
  intros Hn. rewrite format_bytes_nonneg by assumption.
  destruct (2 ^ 30 <=? n).
  - exists (hundredths (truediv n (1024 ^ 3))).
    assert (0 <= hundredths (truediv n (1024 ^ 3)))
      by (apply hundredths_nonneg, truediv_nonneg; [lia|reflexivity]).
    repeat split; auto. now apply fixed2_two_decimals.
  - exists (hundredths (truediv n (1024 ^ 2))).
    assert (0 <= hundredths (truediv n (1024 ^ 2)))
      by (apply hundredths_nonneg, truediv_nonneg; [lia|reflexivity]).
    repeat split; auto. now apply fixed2_two_decimals.
Qed.

End ByteFacts.

(** X3. A negative byte count is never shown in gigabytes: whatever its
    size, [format_bytes] prints a minus sign, the magnitude in
    megabytes rounded to hundredths, and the unit MB.  Below one
    gigabyte that is the text for the magnitude with a minus sign in
    front. *)
Theorem format_bytes_negative (n : Z) :
  0 < n ->
  format_bytes (- n)
  = "-" ++ fixed2 (hundredths (truediv n (1024 ^ 2))) ++ " MB"
  /\ (n < 2 ^ 30 -> format_bytes (- n) = "-" ++ format_bytes n).
Proof.
  intros Hn.
  assert (E : format_bytes (- n)
              = "-" ++ fixed2 (hundredths (truediv n (1024 ^ 2))) ++ " MB").
  { unfold format_bytes. cbv zeta. rewrite !truediv_opp.
    pose proof (truediv_pos n (1024 ^ 3) Hn eq_refl) as H3.
    pose proof (truediv_pos n (1024 ^ 2) Hn eq_refl) as H2.
    replace (Qle_bool 1 (- truediv n (1024 ^ 3))) with false.
    2:{ symmetry. apply not_true_iff_false. rewrite Qle_bool_iff.
        intros H. apply (Qlt_irrefl 0).
        apply Qlt_le_trans with (y := 1%Q); [reflexivity|].
        apply Qle_trans with (y := (- truediv n (1024 ^ 3))%Q); [exact H|].
        apply Qlt_le_weak.
        apply (Qopp_lt_compat 0 (truediv n (1024 ^ 3))) in H3. exact H3. }
    unfold format_2f.
    replace (Qle_bool 0 (- truediv n (1024 ^ 2))) with false.
    2:{ symmetry. apply not_true_iff_false. rewrite Qle_bool_iff.
        intros H. apply (Qlt_irrefl 0).
        apply Qle_lt_trans with (y := (- truediv n (1024 ^ 2))%Q); [exact H|].
        apply (Qopp_lt_compat 0 (truediv n (1024 ^ 2))) in H2. exact H2. }
    unfold hundredths. cbn [Qopp Qnum Qden]. rewrite Z.opp_involutive.
    reflexivity. }
  split; [exact E|].
  intros Hs. rewrite E, format_bytes_nonneg by lia.
  now replace (2 ^ 30 <=? n) with false by (symmetry; apply Z.leb_gt; lia).
Qed.

Lemma format_bytes_negative_witness :
  format_bytes (- 1) = "-0.00 MB" /\ format_bytes (- (2 ^ 31)) = "-2048.00 MB".
Proof.
  split.
  - exact (proj1 (format_bytes_negative 1 ltac:(lia))).
  - exact (proj1 (format_bytes_negative (2 ^ 31) ltac:(lia))).
Defined.

(** X4. The number [format_bytes] prints lies between 0.00 and 1024.00
    in megabytes and is at least 1.00 in gigabytes.  The switch to
    gigabytes is made on the exact quotient, before rounding, so the
    last count below one gigabyte is shown as 1024.00 MB and the next
    one as 1.00 GB. *)
Theorem format_bytes_numeral_bounds (n : Z) :
  0 <= n ->
  (exists h,
      format_bytes n = fixed2 h ++ (if 2 ^ 30 <=? n then " GB" else " MB")
      /\ if 2 ^ 30 <=? n then 100 <= h else 0 <= h <= 102400)
  /\ format_bytes (2 ^ 30 - 1) = "1024.00 MB"
  /\ format_bytes (2 ^ 30) = "1.00 GB".
Proof.
  intros Hn. split; [|split; vm_compute; reflexivity].
  rewrite format_bytes_nonneg by assumption.
  destruct (2 ^ 30 <=? n) eqn:E.
  - apply Z.leb_le in E.
    exists (hundredths (truediv n (1024 ^ 3))). split; [reflexivity|].
    apply hundredths_ge_100, truediv_ge_1; [reflexivity|].
    change (1024 ^ 3) with (2 ^ 30). exact E.
  - apply Z.leb_gt in E.
    exists (hundredths (truediv n (1024 ^ 2))). split; [reflexivity|].
    split; [apply hundredths_nonneg, truediv_nonneg; [lia|reflexivity]|].
    destruct (Z.eq_dec n 0) as [->|Hne]; [vm_compute; discriminate|].
    change (1024 ^ 2) with (2 ^ 20).
    rewrite hundredths_pow2_small by lia.
    pose proof (round_half_even_floor (100 * n) (2 ^ 20) ltac:(lia)) as [_ Hc].
    assert (100 * n / 2 ^ 20 < 102400) by (apply Z.div_lt_upper_bound; lia).
    lia.
Qed.

Lemma format_bytes_numeral_bounds_witness :
  exists h, format_bytes 1073736582 = fixed2 h ++ " MB" /\ 0 <= h <= 102400.
Proof.
  destruct (format_bytes_numeral_bounds 1073736582 ltac:(lia)) as [[h H] _].
  exists h. exact H.
Defined.

(** X5. On a host that reports no negative byte count, every size in
    the memory section and in each row of the disk section is a number
    with two decimals followed by GB or MB. *)
Theorem sizes_are_byte_texts (h : Host) :
  0 <= m_total (virtual_memory h) ->
  0 <= m_used (virtual_memory h) ->
  0 <= m_available (virtual_memory h) ->
  (forall p u, In p (disk_partitions h) -> disk_usage h (mountpoint p) = Some u ->
               0 <= total u /\ 0 <= used u /\ 0 <= free u) ->
  (byte_text (mem_total (get_mem_info h))
   /\ byte_text (mem_used (get_mem_info h))
   /\ byte_text (mem_free (get_mem_info h)))
  /\ forall e, In e (get_disk_info h) ->
               byte_text (d_total e) /\ byte_text (d_used e) /\ byte_text (d_free e).
Proof.
  intros Ht Hu Ha Hd. split.
  - unfold get_mem_info. cbn [mem_total mem_used mem_free].
    repeat split; now apply format_bytes_text.
  - intros e He. rewrite get_disk_info_rows in He. unfold readable_rows in He.
    apply in_flat_map in He. destruct He as [p [Hp He]].
    destruct (disk_usage h (mountpoint p)) as [u|] eqn:Eu; [|contradiction].
    destruct He as [<-|[]].
    destruct (Hd p u Hp Eu) as [H1 [H2 H3]].
    unfold disk_row. cbn [d_total d_used d_free].
    repeat split; now apply format_bytes_text.
Qed.

Lemma sizes_are_byte_texts_witness :
  byte_text (mem_total (get_mem_info sample_host))
  /\ get_disk_info sample_host
     = [ {| d_device := "/dev/sda1"; d_mountpoint := "/";
            d_total := "500.00 GB"; d_used := "1024.00 MB";
            d_free := "499.00 GB"; d_usage := "0.5%" |} ]
  /\ forall e, In e (get_disk_info sample_host) -> byte_text (d_used e).
Proof.
  assert (H : (byte_text (mem_total (get_mem_info sample_host))
               /\ byte_text (mem_used (get_mem_info sample_host))
               /\ byte_text (mem_free (get_mem_info sample_host)))
              /\ forall e, In e (get_disk_info sample_host) ->
                           byte_text (d_total e) /\ byte_text (d_used e)
                           /\ byte_text (d_free e)).
  { apply sizes_are_byte_texts; try (vm_compute; discriminate).
    intros p u [<-|[<-|[]]] Hu; vm_compute in Hu; [|discriminate].
    injection Hu as <-. vm_compute. repeat split; discriminate. }
  destruct H as [[H1 _] H2].
  split; [exact H1|]. split; [vm_compute; reflexivity|].
  intros e He. exact (proj1 (proj2 (H2 e He))).
Defined.

(** X6. The full report has five sections and the report for one type
    has one; no report holds a key twice; and unless the type is
    [process], what a report holds is what the full report holds under
    the same key. *)
Theorem main_result_single_section (h : Host) (t : info_type) :
  List.length (main_result h t) = (if info_type_eqb t Tall then 5 else 1)%nat
  /\ NoDup (keys (main_result h t))
  /\ (forall kv, In kv (main_result h t) ->
                 t = Tprocess \/ In kv (main_result h Tall)).
Proof.
  split; [destruct t; reflexivity|]. split.
  - destruct t; cbn; repeat constructor; simpl; intuition discriminate.
  - intros kv Hkv. destruct t; try (now left); right;
      cbn in Hkv |- *; intuition.
Qed.

Section OutputFacts.
Local Open Scope list_scope.

Lemma header_is_header (k : string) : is_header (Output.header k) = true.
Proof. reflexivity. Qed.

Lemma indented_not_header (s : string) : is_header ("  " ++ s)%string = false.
Proof. reflexivity. Qed.

Lemma items_not_headers (A : Type) (g : A -> string) (l : list A) :
  filter is_header (map (fun x => ("  " ++ g x)%string) l) = [].
Proof. induction l as [|x l IH]; simpl; auto. Qed.

Lemma print_section_shape (r : Output.Repr) (h : Host) (kv : string * section) :
  exists items,
    Output.print_section r h kv
    = Output.header (fst kv) :: map (fun s => ("  " ++ s)%string) items
    /\ List.length items = item_count h (snd kv).
Proof.
  unfold Output.print_section, item_count.
  destruct (snd kv) as [i|i|i|l|l|l]; cbn [Output.list_items].
  - exists (map (fun kv => (fst kv ++ ": " ++ snd kv)%string)
                (Output.dict_items h (SysSection i))).
    rewrite map_map, length_map. split; reflexivity.
  - exists (map (fun kv => (fst kv ++ ": " ++ snd kv)%string)
                (Output.dict_items h (CpuSection i))).
    rewrite map_map, length_map. split; reflexivity.
  - exists (map (fun kv => (fst kv ++ ": " ++ snd kv)%string)
                (Output.dict_items h (MemSection i))).
    rewrite map_map, length_map. split; reflexivity.
  - exists (map (Output.str_disk r) l). now rewrite length_map.
  - exists (map (Output.str_net r) l). now rewrite length_map.
  - exists (map (Output.str_proc r) l). now rewrite length_map.
Qed.

Lemma print_report_layout (r : Output.Repr) (h : Host) (result : report) :
  let out := Output.print_report r h result false in
  filter is_header out = map Output.header (keys result)
  /\ Forall (fun s => is_header s = true \/ is_indented s = true) out
  /\ List.length out
     = (List.length result
        + list_sum (map (fun kv => item_count h (snd kv)) result))%nat.
Proof.
  unfold Output.print_report. cbv zeta.
  induction result as [|kv result [IH1 [IH2 IH3]]]; cbn [flat_map].
  - repeat split; constructor.
  - destruct (print_section_shape r h kv) as [items [E Hl]]. rewrite E.
    repeat split.
    + rewrite filter_app. cbn [filter]. rewrite header_is_header.
      rewrite (items_not_headers _ (fun s => s)). cbn [app keys map].
      f_equal. exact IH1.
    + apply Forall_app. split; [|exact IH2].
      constructor; [left; apply header_is_header|].
      apply Forall_forall. intros s Hs. apply in_map_iff in Hs.
      destruct Hs as [x [<- _]]. right. destruct x; reflexivity.
    + rewrite length_app. cbn [List.length map list_sum].
      rewrite length_map, Hl, IH3. simpl. lia.
Qed.

End OutputFacts.

(** X7. Without [--json], [main] prints for each section of the report,
    in order, one header line that starts with a blank line and names
    the section, and below it one line indented by two spaces for each
    entry of a dict section or each item of a list section; a list
    section without items prints its header alone.  With [--json] it
    makes a single [print] call. *)
Theorem main_prints_sections (r : Output.Repr) (h : Host) (t : info_type) :
  let out := Output.main r h t false in
  filter is_header out = map Output.header (keys (main_result h t))
  /\ Forall (fun s => is_header s = true \/ is_indented s = true) out
  /\ List.length out
     = (List.length (main_result h t)
        + list_sum (map (fun kv => item_count h (snd kv)) (main_result h t)))%nat
  /\ List.length (Output.main r h t true) = 1%nat.
Proof.
  cbv zeta. unfold Output.main.
  destruct (print_report_layout r h (main_result h t)) as [H1 [H2 H3]].
  repeat split; assumption.
Qed.

(** X8. How many lines a run without [--json] prints: one header for
    each section, five entries for the system, four for the CPU, four
    for the memory, one for each partition whose usage query succeeds,
    one for each address of family 2, and for [--type process] one for
    each visible process up to ten. *)
Theorem main_line_count (r : Output.Repr) (h : Host) (t : info_type) :
  List.length (Output.main r h t false) = line_count h t.
Proof.
  unfold Output.main.
  destruct (print_report_layout r h (main_result h t)) as [_ [_ H]].
  rewrite H. clear H.
  destruct t; cbn [main_result type_in existsb info_type_eqb orb dict_set
                   String.eqb Ascii.eqb Bool.eqb label_sys label_cpu label_mem
                   label_disk label_net label_proc
                   List.length map list_sum snd item_count line_count];
    rewrite ?get_disk_info_length, ?get_network_info_length,
      ?(get_process_info_length h default_top) by (unfold default_top; lia);
    unfold default_top; change (Z.to_nat 10) with 10%nat; cbn; lia.
Qed.

(** X9. The field [uptime] of the system section is not a duration: it
    is the boot time, in whole seconds since the epoch rounded down,
    written in decimal digits. *)
Theorem get_sys_info_uptime (h : Host) :
  (0 <= boot_time h)%Q ->
  exists n,
    s_uptime (get_sys_info h) = str_of_Z n
    /\ all_digits (s_uptime (get_sys_info h)) = true
    /\ (inject_Z n <= boot_time h)%Q /\ (boot_time h < inject_Z (n + 1))%Q.
Proof.
  intros Hb. exists (int_of_float (boot_time h)).
  unfold get_sys_info. cbn [s_uptime].
  unfold int_of_float. destruct (boot_time h) as [num den].
  unfold Qle in Hb. cbn [Qnum Qden] in *. rewrite Z.mul_1_r in Hb.
  rewrite Z.quot_div_nonneg by lia.
  pose proof (Z.div_mod num (Zpos den) ltac:(lia)) as Hdm.
  pose proof (Z.mod_pos_bound num (Zpos den) ltac:(lia)) as Hm.
  assert (Hq : 0 <= num / Zpos den) by (apply Z.div_pos; lia).
  split; [reflexivity|]. split; [now apply str_of_Z_digits|].
  unfold Qle, Qlt, inject_Z. cbn [Qnum Qden]. split; nia.
Qed.

Lemma get_sys_info_uptime_witness :
  exists n, s_uptime (get_sys_info sample_host) = str_of_Z n
            /\ s_uptime (get_sys_info sample_host) = "1710000000".
Proof.
  destruct (get_sys_info_uptime sample_host) as [n [H _]].
  - vm_compute. discriminate.
  - exists n. split; [exact H|reflexivity].
Defined.

(* ================================================================= *)
(** * Further properties of time.py *)

(** ** The calendar *)

Section CalendarFacts.

Lemma days_before_year_shift (y k : Z) :
  days_before_year (y + 400 * k) = days_before_year y + 146097 * k.
Proof.
  unfold days_before_year. cbv zeta.
  replace (y + 400 * k - 1) with (y - 1 + k * 400) by ring.
  replace ((y - 1 + k * 400) / 4) with ((y - 1) / 4 + 100 * k)
    by (replace (k * 400) with (100 * k * 4) by ring; now rewrite Z.div_add by lia).
  replace ((y - 1 + k * 400) / 100) with ((y - 1) / 100 + 4 * k)
    by (replace (k * 400) with (4 * k * 100) by ring; now rewrite Z.div_add by lia).
  rewrite Z.div_add by lia. ring.
Qed.

Lemma is_leap_shift (y k : Z) : is_leap (y + 400 * k) = is_leap y.
Proof.
  unfold is_leap.
  replace ((y + 400 * k) mod 4) with (y mod 4)
    by (replace (400 * k) with (100 * k * 4) by ring; now rewrite Z.mod_add by lia).
  replace ((y + 400 * k) mod 100) with (y mod 100)
    by (replace (400 * k) with (4 * k * 100) by ring; now rewrite Z.mod_add by lia).
  replace ((y + 400 * k) mod 400) with (y mod 400)
    by (replace (400 * k) with (k * 400) by ring; now rewrite Z.mod_add by lia).
  reflexivity.
Qed.

Lemma ymd2ord_shift (y m d k : Z) :
  ymd2ord (y + 400 * k) m d = ymd2ord y m d + 146097 * k.
Proof.
  unfold ymd2ord, days_before_month.
  rewrite days_before_year_shift, is_leap_shift. ring.
Qed.

Lemma days_in_month_shift (y m k : Z) :
  days_in_month (y + 400 * k) m = days_in_month y m.
Proof. unfold days_in_month. now rewrite is_leap_shift. Qed.

Lemma ord2ymd_shift (n k : Z) :
  ord2ymd (n + 146097 * k)
  = let '(y, m, d) := ord2ymd n in (y + 400 * k, m, d).
Proof.
  unfold ord2ymd. cbv zeta. unfold DI400Y.
  replace (n + 146097 * k - 1) with (n - 1 + k * 146097) by ring.
  rewrite Z.div_add, Z.mod_add by lia.
  set (r := (n - 1) mod 146097).
  destruct ((r mod DI100Y mod DI4Y / 365 =? 4) || (r / DI100Y =? 4)).
  - f_equal. f_equal. ring.
  - destruct (_ <? _); f_equal; f_equal; ring.
Qed.

Lemma kinds_checked (leapyear : bool) : kind_check leapyear = true.
Proof. destruct leapyear; vm_compute; reflexivity. Qed.

Lemma days_in_month_kind (y m : Z) :
  days_in_month y m = days_in_month (year_of_kind (is_leap y)) m.
Proof.
  unfold days_in_month.
  destruct (is_leap y) eqn:E; reflexivity.
Qed.

Lemma days_before_month_kind (y m : Z) :
  days_before_month y m = days_before_month (year_of_kind (is_leap y)) m.
Proof.
  unfold days_before_month.
  destruct (is_leap y) eqn:E; reflexivity.
Qed.

(** Within a year, month and day are found again from the day's index. *)
Lemma month_day_inverse (y m d : Z) :
  1 <= m <= 12 -> 1 <= d <= days_in_month y m ->
  let k := days_before_month y m + d - 1 in
  month_day k (is_leap y) = (m, d) /\ 0 <= k < year_length (is_leap y).
Proof.
  intros Hm Hd k.
  assert (Hd31 : d <= 31).
  { unfold days_in_month in Hd.
    destruct (m =? 2); [destruct (is_leap y)|destruct (_ || _)]; lia. }
  pose proof (kinds_checked (is_leap y)) as H. unfold kind_check in H.
  rewrite !andb_true_iff in H. destruct H as [[_ H] _].
  pose proof (proj1 (forallb_forall _ _) H m (in_Z_range 1 12 m ltac:(lia))) as H1.
  pose proof (proj1 (forallb_forall _ _) H1 d (in_Z_range 1 31 d ltac:(lia))) as H2.
  unfold month_day_inverse_check in H2. cbv zeta in H2.
  rewrite <- days_in_month_kind, <- days_before_month_kind in H2.
  replace (d <=? days_in_month y m) with true in H2 by (symmetry; apply Z.leb_le; lia).
  fold k in H2.
  destruct (month_day k (is_leap y)) as [m' d'].
  rewrite !andb_true_iff, !Z.eqb_eq, Z.leb_le, Z.ltb_lt in H2.
  destruct H2 as [[[-> ->] Hk0] Hk]. split; [reflexivity|]. lia.
Qed.

(** The parts of a year number in its cycle of 400 years. *)
Lemma is_leap_parts (a b c : Z) :
  0 <= a <= 3 -> 0 <= b <= 24 -> 0 <= c <= 3 ->
  is_leap (100 * a + 4 * b + c + 1)
  = (c =? 3) && (negb (b =? 24) || (a =? 3)).
Proof.
  intros Ha Hb Hc. unfold is_leap.
  set (y := 100 * a + 4 * b + c + 1).
  assert (E4 : y mod 4 = (c + 1) mod 4).
  { unfold y. replace (100 * a + 4 * b + c + 1) with (c + 1 + (25 * a + b) * 4) by ring.
    apply Z.mod_add. lia. }
  assert (E100 : y mod 100 = (4 * b + c + 1) mod 100).
  { unfold y. replace (100 * a + 4 * b + c + 1) with (4 * b + c + 1 + a * 100) by ring.
    apply Z.mod_add. lia. }
  assert (E400 : y mod 400 = if y =? 400 then 0 else y).
  { destruct (y =? 400) eqn:E.
    - apply Z.eqb_eq in E. rewrite E. reflexivity.
    - apply Z.eqb_neq in E. apply Z.mod_small. unfold y in *. lia. }
  rewrite E4, E100, E400.
  assert (Hc' : c = 0 \/ c = 1 \/ c = 2 \/ c = 3) by lia.
  destruct (Z.eq_dec c 3) as [->|Hc3].
  - change ((3 + 1) mod 4) with 0. cbn [Z.eqb andb].
    change (3 =? 3) with true. cbn [andb].
    destruct (Z.eq_dec b 24) as [->|Hb24].
    + change ((4 * 24 + 3 + 1) mod 100) with 0. cbn [Z.eqb negb orb].
      change (24 =? 24) with true. cbn [negb orb].
      destruct (Z.eq_dec a 3) as [->|Ha3].
      * reflexivity.
      * replace (y =? 400) with false by (symmetry; apply Z.eqb_neq; unfold y; lia).
        replace (a =? 3) with false by (symmetry; apply Z.eqb_neq; lia).
        replace (y =? 0) with false by (symmetry; apply Z.eqb_neq; unfold y; lia).
        reflexivity.
    + replace (b =? 24) with false by (symmetry; apply Z.eqb_neq; lia).
      rewrite Z.mod_small by lia.
      replace (4 * b + 3 + 1 =? 0) with false by (symmetry; apply Z.eqb_neq; lia).
      reflexivity.
  - replace (c =? 3) with false by (symmetry; apply Z.eqb_neq; lia).
    rewrite (Z.mod_small (c + 1) 4) by lia.
    replace (c + 1 =? 0) with false by (symmetry; apply Z.eqb_neq; lia).
    reflexivity.
Qed.

Lemma days_before_year_parts (a b c : Z) :
  0 <= a <= 3 -> 0 <= b <= 24 -> 0 <= c <= 3 ->
  days_before_year (100 * a + 4 * b + c + 1) = 36524 * a + 1461 * b + 365 * c.
Proof.
  intros Ha Hb Hc. unfold days_before_year. cbv zeta.
  replace (100 * a + 4 * b + c + 1 - 1) with (100 * a + 4 * b + c) by ring.
  assert (E4 : (100 * a + 4 * b + c) / 4 = 25 * a + b).
  { symmetry. apply (Z.div_unique _ 4 _ c); lia. }
  assert (E100 : (100 * a + 4 * b + c) / 100 = a).
  { symmetry. apply (Z.div_unique _ 100 _ (4 * b + c)); lia. }
  assert (E400 : (100 * a + 4 * b + c) / 400 = 0).
  { apply Z.div_small. lia. }
  rewrite E4, E100, E400. ring.
Qed.

(** In the first 400 years, [ord2ymd] finds the year and the index of
    the day in it. *)
Lemma ord2ymd_in_year (y k : Z) :
  1 <= y <= 400 -> 0 <= k < year_length (is_leap y) ->
  ord2ymd (days_before_year y + k + 1)
  = if k =? 365 then (y, 12, 31)
    else (y, fst (month_day k (is_leap y)), snd (month_day k (is_leap y))).
Proof.
  intros Hy Hk.
  set (a := (y - 1) / 100). set (b := (y - 1) mod 100 / 4). set (c := (y - 1) mod 4).
  assert (Ha : 0 <= a <= 3).
  { unfold a. split; [apply Z.div_pos; lia|].
    assert ((y - 1) / 100 < 4) by (apply Z.div_lt_upper_bound; lia). lia. }
  assert (Hb : 0 <= b <= 24).
  { unfold b. pose proof (Z.mod_pos_bound (y - 1) 100 ltac:(lia)).
    split; [apply Z.div_pos; lia|].
    assert ((y - 1) mod 100 / 4 < 25) by (apply Z.div_lt_upper_bound; lia). lia. }
  assert (Hc : 0 <= c <= 3).
  { unfold c. pose proof (Z.mod_pos_bound (y - 1) 4 ltac:(lia)). lia. }
  assert (Ey : y = 100 * a + 4 * b + c + 1).
  { unfold a, b, c.
    pose proof (Z.div_mod (y - 1) 100 ltac:(lia)) as H1.
    pose proof (Z.div_mod ((y - 1) mod 100) 4 ltac:(lia)) as H2.
    assert (H3 : (y - 1) mod 100 mod 4 = (y - 1) mod 4).
    { change 100 with (4 * 25). apply mod_mod_factor; lia. }
    lia. }
  clearbody a b c. subst y.
  rewrite is_leap_parts in * by assumption.
  rewrite days_before_year_parts by assumption.
  set (leap := (c =? 3) && (negb (b =? 24) || (a =? 3))) in *.
  assert (Hleap : leap = true -> c = 3 /\ (b <> 24 \/ a = 3)).
  { unfold leap. rewrite andb_true_iff, orb_true_iff, negb_true_iff, !Z.eqb_eq, Z.eqb_neq.
    tauto. }
  assert (Hk' : k <= 364 \/ (k = 365 /\ c = 3 /\ (b <> 24 \/ a = 3))).
  { unfold year_length in Hk. destruct leap; [|lia].
    destruct (Hleap eq_refl). lia. }
  unfold ord2ymd. cbv zeta. unfold DI400Y, DI100Y, DI4Y.
  replace (36524 * a + 1461 * b + 365 * c + k + 1 - 1)
    with (36524 * a + 1461 * b + 365 * c + k) by ring.
  set (n := 36524 * a + 1461 * b + 365 * c + k).
  assert (Hn : 0 <= n < 146097) by (unfold n; lia).
  rewrite (Z.div_small n 146097), (Z.mod_small n 146097) by lia.
  destruct Hk' as [Hk'|[-> [-> Hba]]].
  - (* an ordinary day *)
    assert (E100 : n / 36524 = a).
    { symmetry. apply (Z.div_unique n 36524 a (1461 * b + 365 * c + k)); unfold n; lia. }
    assert (M100 : n mod 36524 = 1461 * b + 365 * c + k).
    { symmetry. apply (Z.mod_unique n 36524 a); unfold n; lia. }
    rewrite E100, M100.
    assert (E4 : (1461 * b + 365 * c + k) / 1461 = b).
    { symmetry. apply (Z.div_unique _ 1461 b (365 * c + k)); lia. }
    assert (M4 : (1461 * b + 365 * c + k) mod 1461 = 365 * c + k).
    { symmetry. apply (Z.mod_unique _ 1461 b); lia. }
    rewrite E4, M4.
    assert (E1 : (365 * c + k) / 365 = c).
    { symmetry. apply (Z.div_unique _ 365 c k); lia. }
    assert (M1 : (365 * c + k) mod 365 = k).
    { symmetry. apply (Z.mod_unique _ 365 c); lia. }
    rewrite E1, M1.
    replace (c =? 4) with false by (symmetry; apply Z.eqb_neq; lia).
    replace (a =? 4) with false by (symmetry; apply Z.eqb_neq; lia).
    replace (k =? 365) with false by (symmetry; apply Z.eqb_neq; lia).
    cbn [orb]. fold leap.
    replace (0 * 400 + 1 + a * 100 + b * 4 + c) with (100 * a + 4 * b + c + 1) by ring.
    unfold month_day. cbv zeta.
    destruct (k <? _); reflexivity.
  - (* the last day of a leap year *)
    cbn [Z.eqb Pos.eqb].
    destruct Hba as [Hb24| ->].
    + assert (E100 : n / 36524 = a).
      { symmetry. apply (Z.div_unique n 36524 a (1461 * b + 365 * 3 + 365)); unfold n; lia. }
      assert (M100 : n mod 36524 = 1461 * b + 365 * 3 + 365).
      { symmetry. apply (Z.mod_unique n 36524 a); unfold n; lia. }
      rewrite E100, M100.
      assert (E4 : (1461 * b + 365 * 3 + 365) / 1461 = b).
      { symmetry. apply (Z.div_unique _ 1461 b 1460); lia. }
      assert (M4 : (1461 * b + 365 * 3 + 365) mod 1461 = 1460).
      { symmetry. apply (Z.mod_unique _ 1461 b); lia. }
      rewrite E4, M4. change (1460 / 365) with 4. cbn [Z.eqb Pos.eqb orb].
      f_equal. f_equal. ring.
    + destruct (Z.eq_dec b 24) as [->|Hb24].
      * unfold n. cbn. reflexivity.
      * assert (E100 : n / 36524 = 3).
        { symmetry. apply (Z.div_unique n 36524 3 (1461 * b + 365 * 3 + 365)); unfold n; lia. }
        assert (M100 : n mod 36524 = 1461 * b + 365 * 3 + 365).
        { symmetry. apply (Z.mod_unique n 36524 3); unfold n; lia. }
        rewrite E100, M100.
        assert (E4 : (1461 * b + 365 * 3 + 365) / 1461 = b).
        { symmetry. apply (Z.div_unique _ 1461 b 1460); lia. }
        assert (M4 : (1461 * b + 365 * 3 + 365) mod 1461 = 1460).
        { symmetry. apply (Z.mod_unique _ 1461 b); lia. }
        rewrite E4, M4. change (1460 / 365) with 4. cbn [Z.eqb Pos.eqb orb].
        f_equal. f_equal. ring.
Qed.

Lemma first_cycle_checked (y m d : Z) :
  1 <= y <= 400 -> 1 <= m <= 12 -> 1 <= d <= days_in_month y m ->
  ord2ymd (ymd2ord y m d) = (y, m, d).
Proof.
  intros Hy Hm Hd.
  destruct (month_day_inverse y m d Hm Hd) as [Hmd Hk]. cbv zeta in Hmd, Hk.
  unfold ymd2ord.
  replace (days_before_year y + days_before_month y m + d)
    with (days_before_year y + (days_before_month y m + d - 1) + 1) by ring.
  rewrite ord2ymd_in_year by assumption. rewrite Hmd. cbn [fst snd].
  destruct (days_before_month y m + d - 1 =? 365) eqn:E; [|reflexivity].
  apply Z.eqb_eq in E. rewrite E in Hmd, Hk.
  assert (Hl : is_leap y = true).
  { destruct (is_leap y); [reflexivity|]. unfold year_length in Hk. lia. }
  rewrite Hl in Hmd.
  pose proof (kinds_checked true) as H. unfold kind_check in H.
  rewrite !andb_true_iff in H. destruct H as [_ H].
  destruct (month_day 365 true) as [m' d'].
  rewrite andb_true_iff, !Z.eqb_eq in H. destruct H as [-> ->].
  congruence.
Qed.

(** A date is found again from its ordinal. *)
Lemma ord2ymd_ymd2ord (y m d : Z) :
  1 <= m <= 12 -> 1 <= d <= days_in_month y m ->
  ord2ymd (ymd2ord y m d) = (y, m, d).
Proof.
  intros Hm Hd.
  set (k := (y - 1) / 400). set (y0 := (y - 1) mod 400 + 1).
  assert (Hy : y = y0 + 400 * k).
  { unfold y0, k. pose proof (Z.div_mod (y - 1) 400 ltac:(lia)). lia. }
  assert (Hy0 : 1 <= y0 <= 400).
  { unfold y0. pose proof (Z.mod_pos_bound (y - 1) 400 ltac:(lia)). lia. }
  clearbody y0 k. subst y. rewrite days_in_month_shift in Hd.
  rewrite ymd2ord_shift, ord2ymd_shift.
  now rewrite (first_cycle_checked y0 m d Hy0 Hm Hd).
Qed.

(** Reading the fields of a clock as seconds and turning the seconds
    back into fields gives the fields. *)
Lemma of_wall_wall_seconds (f : naive) :
  valid_clock f -> of_wall (wall_seconds f) (microsecond f) = f.
Proof.
  intros (Hm & Hd & Hh & Hmi & Hs).
  unfold of_wall, wall_seconds.
  set (r := hour f * 3600 + minute f * 60 + second f).
  assert (Hr : 0 <= r < 86400) by (unfold r; lia).
  replace ((toordinal f - EPOCH_ORDINAL) * 86400 + hour f * 3600 + minute f * 60 + second f)
    with (r + (toordinal f - EPOCH_ORDINAL) * 86400) by (unfold r; ring).
  rewrite Z.div_add, Z.mod_add by lia.
  rewrite Z.div_small, Z.mod_small by lia.
  replace (0 + (toordinal f - EPOCH_ORDINAL) + EPOCH_ORDINAL) with (toordinal f) by ring.
  unfold toordinal. rewrite ord2ymd_ymd2ord by assumption.
  assert (E1 : r / 3600 = hour f).
  { symmetry. apply (Z.div_unique r 3600 (hour f) (minute f * 60 + second f)); unfold r; lia. }
  assert (E2 : r mod 3600 = minute f * 60 + second f).
  { symmetry. apply (Z.mod_unique r 3600 (hour f)); unfold r; lia. }
  assert (E3 : r mod 3600 / 60 = minute f).
  { rewrite E2. symmetry. apply (Z.div_unique _ 60 (minute f) (second f)); lia. }
  assert (E4 : r mod 60 = second f).
  { symmetry. apply (Z.mod_unique r 60 (hour f * 60 + minute f)); unfold r; lia. }
  rewrite E1, E3, E4. destruct f; reflexivity.
Qed.

End CalendarFacts.

Section StrftimeFacts.

Lemma directive_no_raise (f : naive) (c : ascii) (e : exn) :
  directive f c <> Raise e.
Proof.
  destruct c as [[|] [|] [|] [|] [|] [|] [|] [|]]; cbn; discriminate.
Qed.

(** A character other than the percent sign is copied. *)
Lemma strftime_literal (f : naive) (c : ascii) (rest : string) :
  c <> "%"%char ->
  strftime f (String c rest) = (r <- strftime f rest ;; Return (String c r)).
Proof.
  intros H.
  destruct c as [[|] [|] [|] [|] [|] [|] [|] [|]]; try reflexivity.
  now elim H.
Qed.

Lemma strftime_directive (f : naive) (c : ascii) (rest : string) :
  strftime f (String "%" (String c rest))
  = (s <- directive f c ;; r <- strftime f rest ;; Return (s ++ r)).
Proof. reflexivity. Qed.

Lemma strftime_no_raise (f : naive) (fmt : string) (e : exn) :
  strftime f fmt <> Raise e.
Proof.
  revert e.
  enough (H : (forall e, strftime f fmt <> Raise e)
              /\ forall c e, strftime f (String c fmt) <> Raise e) by apply H.
  induction fmt as [|a fmt [IH1 IH2]].
  - split; [discriminate|].
    intros c e. destruct (ascii_dec c "%") as [->|Hc]; [discriminate|].
    rewrite strftime_literal by assumption. discriminate.
  - split; [exact (IH2 a)|].
    intros c e. destruct (ascii_dec c "%") as [->|Hc].
    + rewrite strftime_directive.
      pose proof (directive_no_raise f a) as Hd.
      destruct (directive f a) as [s|e'|]; cbn [bind];
        [|now elim (Hd e')|discriminate].
      destruct (strftime f fmt) as [r|e'|] eqn:E; cbn [bind];
        [discriminate|now elim (IH1 e')|discriminate].
    + rewrite strftime_literal by assumption.
      destruct (strftime f (String a fmt)) as [r|e'|] eqn:E; cbn [bind];
        [discriminate|now elim (IH2 a e')|discriminate].
Qed.




Lemma describe_no_raise (target : datetime) (d : Z) (e : exn) :
  describe target d <> Raise e.
Proof.
  unfold describe. cbv zeta.
  pose proof (strftime_no_raise (fields target) "%Y-%m-%d %H:%M:%S") as H.
  destruct (strftime (fields target) "%Y-%m-%d %H:%M:%S") as [s|e'|] eqn:E;
    cbn [bind]; [discriminate|now elim (H e')|discriminate].
Qed.

End StrftimeFacts.

Section RaiseFacts.

Lemma time_diff_raise_inv (rt : Runtime) (target_str : string) (e : exn) :
  time_diff rt target_str = Raise e ->
  e = TypeError
  /\ exists target off,
       parse_target rt target_str = Some target /\ tzinfo target = Some off.
Proof.
  unfold time_diff.
  destruct (parse_target rt target_str) as [target|]; [|discriminate].
  unfold sub. cbn [tzinfo naive_datetime].
  destruct (tzinfo target) as [off|] eqn:Ez; cbn [bind].
  - intros H. split; [congruence|]. now exists target, off.
  - intros H. exact (False_ind _ (describe_no_raise target _ e H)).
Qed.


Lemma convert_none (rt : Runtime) (dt : datetime) : convert rt dt None = Return dt.
Proof. reflexivity. Qed.


End RaiseFacts.

(** X10. [time_diff] raises exactly when the target parses to an aware
    datetime, and then it is the [TypeError] of the subtraction; an
    unparsable target and a naive one never raise. *)
Theorem time_diff_raises_iff_aware (rt : Runtime) (target_str : string) (e : exn) :
  time_diff rt target_str = Raise e
  <-> e = TypeError
      /\ exists target off,
           parse_target rt target_str = Some target /\ tzinfo target = Some off.
Proof.
  split; [apply time_diff_raise_inv|].
  intros [-> [target [off [Hp Hz]]]]. exact (time_diff_aware rt _ target off Hp Hz).
Qed.

Section TimestampTotal.

Lemma fromtimestamp_cases (lz : LocalZone) (t : Q) :
  fromtimestamp lz t = Raise ValueError
  \/ exists secs us,
       fromtimestamp lz t = Return (naive_datetime (of_wall secs us))
       /\ 1 <= year (of_wall secs us) <= 9999.
Proof.
  unfold fromtimestamp. cbv zeta.
  set (f := of_wall _ _).
  destruct (year_in_range f) eqn:E; [right|now left].
  unfold year_in_range, MINYEAR, MAXYEAR in E. apply andb_true_iff in E.
  rewrite !Z.leb_le in E.
  unfold f. eexists _, _. split; [reflexivity|exact E].
Qed.

Lemma timestamp_to_date_cases (rt : Runtime) (ts : string) :
  timestamp_to_date rt ts = Return INVALID_TIMESTAMP
  \/ exists secs us,
       timestamp_to_date rt ts = Return (stamp (of_wall secs us))
       /\ 1 <= year (of_wall secs us) <= 9999.
Proof.
  unfold timestamp_to_date.
  destruct (int_cases ts) as [[n ->]| ->]; [|now left].
  set (t := if n <? 10 ^ 12 then _ else _).
  assert (Ht : t = Raise ValueError
               \/ exists secs us,
                    t = Return (naive_datetime (of_wall secs us))
                    /\ 1 <= year (of_wall secs us) <= 9999).
  { unfold t. destruct (n <? 10 ^ 12); apply fromtimestamp_cases. }
  destruct Ht as [->|[secs [us [-> Hy]]]]; [now left|].
  cbn [fields naive_datetime]. rewrite strftime_stamp.
  right. now exists secs, us.
Qed.

End TimestampTotal.

(** X11. Whatever its argument, [timestamp_to_date] returns: the bare
    [except] covers the whole body.  What it returns is the diagnostic,
    or the text of a calendar reading of the years 1 to 9999 written
    year, month, day, hour, minute and second; from the year 1000 on
    that text has the shape [YYYY-MM-DD HH:MM:SS]; a smaller year is
    written without padding, as in [999-12-31 23:59:59]. *)
Theorem timestamp_to_date_never_raises (rt : Runtime) (ts : string) :
  exists out,
    timestamp_to_date rt ts = Return out
    /\ (out = INVALID_TIMESTAMP
        \/ exists f,
             out = stamp f /\ calendar_fields f
             /\ (1000 <= year f -> clock_shape out)).
Proof.
  destruct (timestamp_to_date_cases rt ts) as [H|[secs [us [H Hy]]]]; rewrite H.
  - exists INVALID_TIMESTAMP. split; [reflexivity|now left].
  - exists (stamp (of_wall secs us)). split; [reflexivity|]. right.
    exists (of_wall secs us).
    pose proof (of_wall_ranges secs us) as Hr. cbv zeta in Hr.
    split; [reflexivity|]. split; [unfold calendar_fields; tauto|].
    intros H1000. apply stamp_shape; lia.
Qed.

Section IntFacts.

Lemma uint_value_acc (d : Decimal.uint) (acc : positive) :
  uint_value (Zpos acc) d = Zpos (Pos.of_uint_acc d acc).
Proof.
  revert acc. induction d; intros acc; cbn [uint_value Pos.of_uint_acc];
    try reflexivity;
    match goal with
    | |- uint_value ?z _ = Zpos (Pos.of_uint_acc _ ?p) =>
        replace z with (Zpos p) by lia
    end; apply IHd.
Qed.

Lemma uint_value_of_uint (d : Decimal.uint) :
  uint_value 0 d = Z.of_N (Pos.of_uint d).
Proof.
  induction d; cbn [uint_value Pos.of_uint]; try reflexivity;
    try (apply IHd);
    match goal with
    | |- uint_value ?z _ = _ => change z with 1 || change z with 2
                               || change z with 3 || change z with 4
                               || change z with 5 || change z with 6
                               || change z with 7 || change z with 8
                               || change z with 9
    end; apply uint_value_acc.
Qed.

Lemma digits_uint (acc : Z) (d : Decimal.uint) :
  PyInt.digits acc true (NilEmpty.string_of_uint d) = Some (uint_value acc d).
Proof. revert acc. induction d; intros acc; simpl; auto. Qed.

Lemma digit_not_space (c : ascii) : is_digit c = true -> PyInt.is_space c = false.
Proof.
  unfold is_digit, PyInt.is_space. cbv zeta.
  rewrite andb_true_iff, !Nat.leb_le. intros [H1 H2].
  apply orb_false_iff. split.
  - apply andb_false_iff. right. apply Nat.leb_gt. lia.
  - apply Nat.eqb_neq. lia.
Qed.

Lemma digits_is_ascii (s : string) : all_digits s = true -> PyInt.is_ascii s = true.
Proof.
  induction s as [|c s IH]; simpl; auto.
  rewrite andb_true_iff. intros [Hc Hs]. rewrite (IH Hs), andb_true_r.
  unfold is_digit in Hc. cbv zeta in Hc.
  rewrite andb_true_iff, !Nat.leb_le in Hc. apply Nat.ltb_lt. lia.
Qed.

Lemma digits_lstrip (s : string) : all_digits s = true -> PyInt.lstrip s = s.
Proof.
  destruct s as [|c s]; simpl; auto.
  rewrite andb_true_iff. intros [Hc _]. now rewrite (digit_not_space c Hc).
Qed.

Lemma digits_rstrip (s : string) : all_digits s = true -> PyInt.rstrip s = s.
Proof.
  induction s as [|c s IH]; simpl; auto.
  rewrite andb_true_iff. intros [Hc Hs]. rewrite (IH Hs).
  destruct s; [now rewrite (digit_not_space c Hc)|reflexivity].
Qed.

Lemma literal_uint (d : Decimal.uint) :
  d <> Decimal.Nil ->
  PyInt.literal (NilEmpty.string_of_uint d) = Some (uint_value 0 d).
Proof.
  intros Hnil. destruct d; [now elim Hnil| | | | | | | | | |];
    simpl; apply digits_uint.
Qed.

(** The number a run of digits denotes, and how many digits it has. *)
Lemma uint_value_split (d : Decimal.uint) (acc : Z) :
  uint_value acc d
  = acc * 10 ^ Z.of_nat (Decimal.nb_digits d) + uint_value 0 d.
Proof.
  revert acc. induction d; intros acc;
    cbn [uint_value Decimal.nb_digits];
    try (rewrite Z.pow_0_r; ring);
    match goal with
    | |- uint_value ?a _ = _ + uint_value ?b _ =>
        rewrite (IHd a), (IHd b), Nat2Z.inj_succ, Z.pow_succ_r by lia; ring
    end.
Qed.

Lemma uint_value_nonneg (d : Decimal.uint) (acc : Z) :
  0 <= acc -> 0 <= uint_value acc d.
Proof.
  revert acc. induction d; intros acc Ha; cbn [uint_value]; try lia;
    apply IHd; lia.
Qed.

(** A numeral that does not begin with a zero is at least the power of
    ten its length gives. *)
Lemma uint_value_lower (d : Decimal.uint) :
  d <> Decimal.Nil -> (forall l, d <> Decimal.D0 l) ->
  10 ^ (Z.of_nat (Decimal.nb_digits d) - 1) <= uint_value 0 d.
Proof.
  intros Hnil H0.
  destruct d as [|l|l|l|l|l|l|l|l|l|l];
    [now elim Hnil|now elim (H0 l)| | | | | | | | |];
    cbn [uint_value Decimal.nb_digits]; rewrite uint_value_split;
    pose proof (uint_value_nonneg l 0 ltac:(lia));
    rewrite Nat2Z.inj_succ;
    replace (Z.succ (Z.of_nat (Decimal.nb_digits l)) - 1)
      with (Z.of_nat (Decimal.nb_digits l)) by lia;
    pose proof (Z.pow_pos_nonneg 10 (Z.of_nat (Decimal.nb_digits l))
                  ltac:(lia) ltac:(lia));
    nia.
Qed.

(** [str] of a positive number does not begin with a zero. *)
Lemma to_uint_head (p : positive) (l : Decimal.uint) :
  Pos.to_uint p <> Decimal.D0 l.
Proof.
  intros E.
  pose proof (DecimalPos.Unsigned.to_of (Pos.to_uint p)) as H.
  rewrite DecimalPos.Unsigned.of_to in H. cbn [N.to_uint] in H.
  rewrite E in H. unfold Decimal.unorm in H. cbn [Decimal.nzhead] in H.
  pose proof (DecimalFacts.nb_digits_nzhead l) as Hn.
  destruct (Decimal.nzhead l) as [|u|u|u|u|u|u|u|u|u|u] eqn:El;
    try discriminate H.
  - injection H as ->.
    pose proof (DecimalPos.Unsigned.of_to p) as Hp. rewrite E in Hp.
    discriminate Hp.
  - injection H as ->. cbn [Decimal.nb_digits] in Hn. lia.
Qed.

Lemma digit_count_uint (d : Decimal.uint) :
  PyInt.digit_count (NilEmpty.string_of_uint d) = Decimal.nb_digits d.
Proof. induction d; simpl; congruence. Qed.

(** [str] of a positive number below [10^k] has at most [k] digits. *)
Lemma digit_count_bound (n : Z) (k : nat) :
  0 < n < 10 ^ Z.of_nat k -> (PyInt.digit_count (str_of_Z n) <= k)%nat.
Proof.
  intros Hn. destruct n as [|p|p]; [lia| |lia].
  unfold str_of_Z. cbn [Z.to_int NilEmpty.string_of_int].
  rewrite digit_count_uint.
  pose proof (uint_value_lower (Pos.to_uint p)
                (DecimalPos.Unsigned.to_uint_nonnil p) (to_uint_head p)) as Hl.
  rewrite uint_value_of_uint, DecimalPos.Unsigned.of_to in Hl.
  cbn [Z.of_N] in Hl.
  assert (Hlt : 10 ^ (Z.of_nat (Decimal.nb_digits (Pos.to_uint p)) - 1)
                < 10 ^ Z.of_nat k) by lia.
  destruct (Z.le_gt_cases 0 (Z.of_nat (Decimal.nb_digits (Pos.to_uint p)) - 1))
    as [Hge|Hlt0]; [|lia].
  apply Z.pow_lt_mono_r_iff in Hlt; lia.
Qed.

(** [str] of a number of at most 4300 digits stays within the limit of
    [int]. *)
Lemma digit_count_str_of_Z (n : Z) :
  0 <= n < 10 ^ Z.of_nat PyInt.MAX_STR_DIGITS ->
  Nat.ltb PyInt.MAX_STR_DIGITS (PyInt.digit_count (str_of_Z n)) = false.
Proof.
  assert (H1 : (1 <= PyInt.MAX_STR_DIGITS)%nat) by (unfold PyInt.MAX_STR_DIGITS; lia).
  generalize dependent PyInt.MAX_STR_DIGITS. intros k Hk Hn.
  apply Nat.ltb_ge.
  destruct (Z.eq_dec n 0) as [->|Hne]; [exact Hk|].
  apply digit_count_bound. lia.
Qed.

(** [int(str(n)) == n] *)
Lemma int_str_of_Z (n : Z) :
  0 <= n < 10 ^ Z.of_nat PyInt.MAX_STR_DIGITS -> PyInt.int (str_of_Z n) = Return n.
Proof.
  intros Hn. unfold PyInt.int, PyInt.parse. cbv zeta.
  rewrite digits_is_ascii, digits_lstrip, digits_rstrip
    by (apply str_of_Z_digits; exact (proj1 Hn)).
  rewrite digit_count_str_of_Z by assumption.
  destruct Hn as [Hn _].
  destruct n as [|p|p]; [reflexivity| |now elim Hn].
  unfold str_of_Z. cbn [Z.to_int NilEmpty.string_of_int].
  rewrite literal_uint by apply DecimalPos.Unsigned.to_uint_nonnil.
  rewrite uint_value_of_uint, DecimalPos.Unsigned.of_to. reflexivity.
Qed.

Lemma int_str_of_Z_small (n : Z) :
  0 <= n < 10 ^ 12 -> PyInt.int (str_of_Z n) = Return n.
Proof.
  intros [H0 H1]. apply int_str_of_Z. split; [exact H0|].
  apply (Z.lt_le_trans _ _ _ H1).
  apply Z.pow_le_mono_r; [lia|]. unfold PyInt.MAX_STR_DIGITS. lia.
Qed.

End IntFacts.

Section ClockFacts.

(** [int(dt.timestamp())] is the whole seconds of the instant, up to
    [2^34] seconds after the epoch (the year 2514). *)
Lemma timestamp_int_seconds (lz : LocalZone) (f : naive) :
  let s := wall_seconds f - mktime_offset lz (wall_seconds f) in
  0 <= s < 2 ^ 34 -> 0 <= microsecond f < 1000000 ->
  timestamp_int lz f = s.
Proof.
  intros s Hs Hus. unfold timestamp_int, timestamp. cbv zeta.
  now apply whole_seconds_survive.
Qed.

(** Later the sum of seconds and microseconds can round up to the next
    second: [int(datetime(2515, 1, 1, 0, 0, 0, 999999).timestamp())] on
    a host in UTC is [17198524801]. *)
Lemma timestamp_int_carries :
  let f := {| year := 2515; month := 1; day := 1;
              hour := 0; minute := 0; second := 0; microsecond := 999999 |} in
  wall_seconds f - mktime_offset Sample.utc_zone (wall_seconds f) = 17198524800
  /\ timestamp_int Sample.utc_zone f = 17198524801.
Proof. vm_compute. split; reflexivity. Qed.

(** The local reading of the instant a clock reading denotes is that
    reading, when the two directions of the host's zone agree on it. *)
Lemma shown_at_now (rt : Runtime) :
  valid_clock (now rt) -> 1 <= year (now rt) <= 9999 ->
  let n := wall_seconds (now rt) - mktime_offset (local rt) (wall_seconds (now rt)) in
  localtime_offset (local rt) n = mktime_offset (local rt) (wall_seconds (now rt)) ->
  shown_at rt n = Return (stamp (now rt)).
Proof.
  intros Hv Hy n Hoff. unfold shown_at. rewrite Hoff. unfold n.
  replace (wall_seconds (now rt) - mktime_offset (local rt) (wall_seconds (now rt))
           + mktime_offset (local rt) (wall_seconds (now rt)))
    with (wall_seconds (now rt)) by ring.
  unfold year_in_range, MINYEAR, MAXYEAR.
  rewrite <- (of_wall_year _ (microsecond (now rt))).
  rewrite <- (of_wall_stamp _ (microsecond (now rt))).
  rewrite of_wall_wall_seconds by assumption.
  replace (1 <=? year (now rt)) with true by (symmetry; apply Z.leb_le; lia).
  now replace (year (now rt) <=? 9999) with true by (symmetry; apply Z.leb_le; lia).
Qed.

End ClockFacts.

(** X12. The number [--unix] prints is the whole seconds [n] of the
    instant the clock reading denotes, and handed back with
    [--timestamp] it shows that reading to the second: the text the
    system-time line has under the default format.  This holds for a
    reading with [0 <= n < 2^34] (from 1970 into the year 2514) on
    which the host's two conversions, local to UTC and back, agree;
    [int(datetime.now().timestamp())] adds the microseconds in double
    arithmetic, and from [2^34] seconds on that sum can reach the next
    second ([timestamp_int_carries]). *)
Theorem unix_timestamp_round_trip (rt : Runtime) (args : Args) :
  valid_clock (now rt) -> 1 <= year (now rt) <= 9999 ->
  0 <= microsecond (now rt) < 1000000 ->
  let n := wall_seconds (now rt) - mktime_offset (local rt) (wall_seconds (now rt)) in
  0 <= n < 2 ^ 34 ->
  localtime_offset (local rt) n = mktime_offset (local rt) (wall_seconds (now rt)) ->
  arg_unix args = true ->
  timestamp_int (local rt) (now rt) = n
  /\ main rt args = (["当前时间戳: " ++ str_of_Z n], Return tt)
  /\ timestamp_to_date rt (str_of_Z n) = Return (stamp (now rt))
  /\ format_time rt (naive_datetime (now rt)) DEFAULT_FORMAT None
     = Return (stamp (now rt)).
Proof.
  intros Hv Hy Hus n Hn Hoff Hu.
  pose proof (timestamp_int_seconds (local rt) (now rt) Hn Hus) as Ht. fold n in Ht.
  split; [exact Ht|split; [|split]].
  - unfold main. rewrite Hu, Ht. reflexivity.
  - rewrite (timestamp_to_date_seconds rt _ n)
      by (try apply int_str_of_Z_small; change (2 ^ 34) with 17179869184 in Hn;
          change (10 ^ 12) with 1000000000000; lia).
    now apply shown_at_now.
  - apply format_time_default.
Qed.

Lemma unix_timestamp_round_trip_witness :
  main Sample.sample_runtime
       {| arg_timezone := None; arg_format := DEFAULT_FORMAT; arg_diff := None;
          arg_timestamp := None; arg_unix := true |}
  = (["当前时间戳: 1710469800"], Return tt)
  /\ timestamp_to_date Sample.sample_runtime "1710469800"
     = Return "2024-03-15 10:30:00".
Proof.
  destruct (unix_timestamp_round_trip
              Sample.sample_runtime
              {| arg_timezone := None; arg_format := DEFAULT_FORMAT; arg_diff := None;
                 arg_timestamp := None; arg_unix := true |})
    as [_ [H1 [H2 _]]].
  - vm_compute. repeat split; discriminate.
  - vm_compute. split; discriminate.
  - vm_compute. split; [discriminate|reflexivity].
  - vm_compute. split; [discriminate|reflexivity].
  - reflexivity.
  - reflexivity.
  - split; [exact H1|exact H2].
Defined.





(** X15. The UTC line of the default invocation is computed outside any
    [try]: on an interpreter whose [ZoneInfo] rejects the name [UTC]
    (a zoneinfo module without a timezone database), [main] with no
    arguments prints the system time and then ends with that
    exception. *)
Theorem main_default_needs_utc
        (rt : Runtime) (args : Args) (shown : string)
        (ctor : string -> exn + zone) (e : exn) :
  arg_unix args = false ->
  truthy (arg_timestamp args) = false ->
  truthy (arg_diff args) = false ->
  truthy (arg_timezone args) = false ->
  arg_format args = DEFAULT_FORMAT ->
  format_time rt (naive_datetime (now rt)) DEFAULT_FORMAT None = Return shown ->
  ZoneInfo rt = Some ctor -> ctor "UTC" = inl e ->
  main rt args = (["系统时间: " ++ shown], Raise e).
Proof.
  intros Hu Ht Hd Hz Hf Hs Hc He. unfold main.
  rewrite Hu, Ht, Hd, Hz, Hf, Hs. unfold print at 1. cbn [negb andb].
  rewrite String.eqb_refl.
  unfold format_time at 1, convert. cbn [truthy]. rewrite Hc, He. reflexivity.
Qed.

Lemma main_default_needs_utc_witness :
  main (Sample.runtime_at (Some (fun _ => inl ZoneInfoNotFoundError)) Sample.sample_now)
       Sample.plain_args
  = (["系统时间: 2024-03-15 10:30:00"], Raise ZoneInfoNotFoundError).
Proof.
  apply (main_default_needs_utc
           (Sample.runtime_at (Some (fun _ => inl ZoneInfoNotFoundError)) Sample.sample_now)
           Sample.plain_args "2024-03-15 10:30:00"
           (fun _ => inl ZoneInfoNotFoundError) ZoneInfoNotFoundError);
    reflexivity.
Defined.

Section BreakdownFacts.

Lemma breakdown_under_a_minute (d : Z) : Z.abs d < 60000000 -> breakdown d = "".
Proof.
  intros H. pose proof (Z.abs_nonneg d).
  unfold breakdown, whole_days, whole_hours, whole_minutes.
  rewrite !Z.div_small by lia. reflexivity.
Qed.

Lemma breakdown_days_only (d : Z) :
  86400000000 <= Z.abs d -> Z.abs d mod 86400000000 < 3600000000 ->
  breakdown d = " 还有 " ++ str_of_Z (Z.abs d / 86400000000) ++ " 天".
Proof.
  intros H1 H2.
  pose proof (Z.mod_pos_bound (Z.abs d) 86400000000 ltac:(lia)) as Hm.
  pose proof (Z.div_mod (Z.abs d) 86400000000 ltac:(lia)) as Hdm.
  assert (Hd : 1 <= Z.abs d / 86400000000) by (apply Z.div_le_lower_bound; lia).
  assert (Hh : whole_hours d = 0).
  { unfold whole_hours.
    replace (Z.abs d / 3600000000) with (24 * (Z.abs d / 86400000000)).
    - rewrite Z.mul_comm. apply Z.mod_mul. lia.
    - apply (Z.div_unique _ 3600000000 _ (Z.abs d mod 86400000000)); lia. }
  unfold breakdown. rewrite Hh. unfold whole_days.
  replace (0 <? Z.abs d / 86400000000) with true by (symmetry; apply Z.ltb_lt; lia).
  replace (Z.abs d / 86400000000 =? 0) with false by (symmetry; apply Z.eqb_neq; lia).
  rewrite andb_false_r. cbn [Z.ltb Z.compare]. now rewrite !append_nil_r.
Qed.

End BreakdownFacts.

(** X16. What [time_diff] leaves out.  A naive target less than a
    minute away is described by the direction word and the target
    alone, with no magnitude; a target a day or more away whose
    distance exceeds whole days by less than an hour is described by
    the day count alone, the minutes being dropped. *)
Theorem time_diff_components_omitted
        (rt : Runtime) (target_str : string) (target : datetime) :
  parse_target rt target_str = Some target ->
  tzinfo target = None ->
  1000 <= year (fields target) ->
  let d := delta rt (fields target) in
  let head := (if 0 <? d then FUTURE else PAST) ++ " " ++ stamp (fields target) in
  (Z.abs d < 60000000 -> time_diff rt target_str = Return head)
  /\ (86400000000 <= Z.abs d -> Z.abs d mod 86400000000 < 3600000000 ->
      time_diff rt target_str
      = Return (head ++ " 还有 " ++ str_of_Z (Z.abs d / 86400000000) ++ " 天")).
Proof.
  intros Hp Hn Hy d head.
  pose proof (time_diff_naive rt target_str target Hp Hn Hy) as Hd. cbv zeta in Hd.
  fold d in Hd. split.
  - intros H. rewrite Hd, (breakdown_under_a_minute d H).
    unfold head. now rewrite append_nil_r.
  - intros H1 H2. rewrite Hd, (breakdown_days_only d H1 H2).
    unfold head. now rewrite !append_assoc.
Qed.

Lemma time_diff_components_omitted_witness :
  time_diff Sample.sample_runtime "2024-03-15 10:30:45"
  = Return "距离 2024-03-15 10:30:45"
  /\ time_diff Sample.sample_runtime "2024-03-16 11:15:00"
     = Return "距离 2024-03-16 11:15:00 还有 1 天".
Proof.
  split.
  - destruct (time_diff_components_omitted
                Sample.sample_runtime "2024-03-15 10:30:45"
                {| fields := {| year := 2024; month := 3; day := 15;
                                hour := 10; minute := 30; second := 45;
                                microsecond := 0 |};
                   tzinfo := None |}
                eq_refl eq_refl ltac:(simpl; lia)) as [H _].
    apply H. vm_compute. reflexivity.
  - destruct (time_diff_components_omitted
                Sample.sample_runtime "2024-03-16 11:15:00"
                {| fields := {| year := 2024; month := 3; day := 16;
                                hour := 11; minute := 15; second := 0;
                                microsecond := 0 |};
                   tzinfo := None |}
                eq_refl eq_refl ltac:(simpl; lia)) as [_ H].
    apply H; vm_compute; [discriminate|reflexivity].
Defined.

Section ReplaceFacts.

Lemma occurs_cons (c x : ascii) (s : string) :
  occurs c (String x s) = false -> c <> x /\ occurs c s = false.
Proof.
  cbn [occurs]. rewrite orb_false_iff, Ascii.eqb_neq. auto.
Qed.

(** An occurrence of [old] cannot reach across a character [old] does
    not contain. *)
Lemma prefix_app_sep (old a : string) (c : ascii) (b : string) :
  occurs c old = false ->
  String.prefix old (a ++ String c b) = String.prefix old a.
Proof.
  revert old. induction a as [|x a IH]; intros old Hc.
  - destruct old as [|o old]; [reflexivity|].
    apply occurs_cons in Hc. destruct Hc as [Hne _].
    cbn. destruct (ascii_dec o c) as [->|_]; [now elim Hne|reflexivity].
  - destruct old as [|o old]; [reflexivity|].
    apply occurs_cons in Hc. destruct Hc as [_ Hc].
    cbn. destruct (ascii_dec o x); [now apply IH|reflexivity].
Qed.

Lemma prefix_length (old s : string) :
  String.prefix old s = true -> (String.length old <= String.length s)%nat.
Proof.
  revert old. induction s as [|x s IH]; intros [|o old]; cbn; try lia; try discriminate.
  destruct (ascii_dec o x); [|discriminate].
  intros H. apply IH in H. lia.
Qed.

Lemma replace_from_sep (old new a : string) (c : ascii) (b : string) :
  old <> EmptyString -> occurs c old = false ->
  forall skip, (skip <= String.length a)%nat ->
  replace_from old new skip (a ++ String c b)
  = replace_from old new skip a ++ String c (replace_from old new 0 b).
Proof.
  intros Hne Hc. induction a as [|x a IH]; intros skip Hs.
  - assert (skip = O) by (simpl in Hs; lia). subst skip.
    destruct old as [|o old]; [now elim Hne|].
    apply occurs_cons in Hc. destruct Hc as [Hoc _].
    cbn. destruct (ascii_dec o c) as [->|_]; [now elim Hoc|reflexivity].
  - destruct skip as [|k].
    + cbn [append replace_from].
      change (String x (a ++ String c b)) with (String x a ++ String c b).
      rewrite prefix_app_sep by assumption.
      destruct (String.prefix old (String x a)) eqn:Ep.
      * destruct old as [|o old]; [now elim Hne|].
        apply prefix_length in Ep. cbn [String.length] in Ep.
        rewrite IH by (cbn [String.length]; lia).
        now rewrite append_assoc.
      * cbn [append]. now rewrite IH by lia.
    + cbn [append replace_from]. apply IH. simpl in Hs. lia.
Qed.

Lemma replace_sep (old new a : string) (c : ascii) (b : string) :
  old <> EmptyString -> occurs c old = false ->
  replace old new (a ++ String c b)
  = replace old new a ++ String c (replace old new b).
Proof.
  intros Hne Hc. unfold replace. apply replace_from_sep; auto. lia.
Qed.

(** Nothing is replaced in a string that lacks the first character of
    [old]. *)
Lemma replace_absent (o : ascii) (old new s : string) :
  occurs o s = false -> replace (String o old) new s = s.
Proof.
  unfold replace. induction s as [|x s IH]; intros Ho; [reflexivity|].
  apply occurs_cons in Ho. destruct Ho as [Hne Ho].
  cbn. destruct (ascii_dec o x) as [->|_]; [now elim Hne|].
  f_equal. now apply IH.
Qed.

End ReplaceFacts.

Section TemplateFacts.

Lemma not_token_letter (c : ascii) :
  occurs c TOKEN_LETTERS = false ->
  occurs c "YYYY" = false /\ occurs c "YY" = false /\ occurs c "MM" = false
  /\ occurs c "DD" = false /\ occurs c "HH" = false /\ occurs c "mm" = false
  /\ occurs c "ss" = false /\ occurs c "SSS" = false /\ occurs c "dddd" = false
  /\ occurs c "ddd" = false /\ occurs c "A" = false /\ occurs c "a" = false.
Proof.
  unfold TOKEN_LETTERS. cbn [occurs]. rewrite !orb_false_iff.
  intros (HY & HM & HD & HH & Hm & Hs & HS & Hd & HA & Ha & _).
  now rewrite HY, HM, HD, HH, Hm, Hs, HS, Hd, HA, Ha.
Qed.

Lemma format_template_sep (f : naive) (a : string) (c : ascii) (b : string) :
  occurs c TOKEN_LETTERS = false ->
  format_template f (a ++ String c b)
  = format_template f a ++ String c (format_template f b).
Proof.
  intros Hc. apply not_token_letter in Hc.
  destruct Hc as (H1 & H2 & H3 & H4 & H5 & H6 & H7 & H8 & H9 & H10 & H11 & H12).
  unfold format_template. cbv zeta.
  rewrite (replace_sep "YYYY") by (assumption || discriminate).
  rewrite (replace_sep "YY") by (assumption || discriminate).
  rewrite (replace_sep "MM") by (assumption || discriminate).
  rewrite (replace_sep "DD") by (assumption || discriminate).
  rewrite (replace_sep "HH") by (assumption || discriminate).
  rewrite (replace_sep "mm") by (assumption || discriminate).
  rewrite (replace_sep "ss") by (assumption || discriminate).
  rewrite (replace_sep "SSS") by (assumption || discriminate).
  rewrite (replace_sep "dddd") by (assumption || discriminate).
  rewrite (replace_sep "ddd") by (assumption || discriminate).
  rewrite (replace_sep "A") by (assumption || discriminate).
  rewrite (replace_sep "a") by (assumption || discriminate).
  reflexivity.
Qed.

Lemma token_free_occurs (s : string) (c : ascii) :
  token_free s = true -> occurs c TOKEN_LETTERS = true -> occurs c s = false.
Proof.
  intros Hs Hc. induction s as [|x s IH]; [reflexivity|].
  cbn [token_free] in Hs. apply andb_true_iff in Hs. destruct Hs as [Hx Hs].
  cbn [occurs]. rewrite (IH Hs), orb_false_r.
  apply Ascii.eqb_neq. intros ->. rewrite Hc in Hx. discriminate Hx.
Qed.

Lemma format_template_id (f : naive) (fmt : string) :
  token_free fmt = true -> format_template f fmt = fmt.
Proof.
  intros H. unfold format_template. cbv zeta.
  rewrite (replace_absent "Y" "YYY") by (apply token_free_occurs; auto).
  rewrite (replace_absent "Y" "Y") by (apply token_free_occurs; auto).
  rewrite (replace_absent "M" "M") by (apply token_free_occurs; auto).
  rewrite (replace_absent "D" "D") by (apply token_free_occurs; auto).
  rewrite (replace_absent "H" "H") by (apply token_free_occurs; auto).
  rewrite (replace_absent "m" "m") by (apply token_free_occurs; auto).
  rewrite (replace_absent "s" "s") by (apply token_free_occurs; auto).
  rewrite (replace_absent "S" "SS") by (apply token_free_occurs; auto).
  rewrite (replace_absent "d" "ddd") by (apply token_free_occurs; auto).
  rewrite (replace_absent "d" "dd") by (apply token_free_occurs; auto).
  rewrite (replace_absent "A" "") by (apply token_free_occurs; auto).
  rewrite (replace_absent "a" "") by (apply token_free_occurs; auto).
  reflexivity.
Qed.

End TemplateFacts.

(** X17. The chain of replacements works piece by piece: a character
    that is none of the letters the tokens are made of stays where it
    is, and the pieces of the format between such characters are
    rewritten independently of each other, whatever they hold. *)
Theorem format_template_pieces
        (f : naive) (pieces : list (string * ascii)) (last : string) :
  Forall (fun p => occurs (snd p) TOKEN_LETTERS = false) pieces ->
  format_template f (joined pieces last)
  = joined (map (fun p => (format_template f (fst p), snd p)) pieces)
           (format_template f last).
Proof.
  induction 1 as [|[t c] pieces Hc Hp IH]; cbn [joined map fst snd].
  - reflexivity.
  - cbn [snd] in Hc. rewrite format_template_sep by assumption.
    now rewrite IH.
Qed.

Lemma format_template_pieces_witness :
  format_template Sample.sample_now "DD-dd/MM" = "%d-dd/%m".
Proof.
  apply (format_template_pieces Sample.sample_now
           [("DD", "-"%char); ("dd", "/"%char)] "MM").
  repeat constructor.
Defined.

(** X18. A format without any of the token letters is handed to
    [strftime] as it is, so [strftime] directives written in it take
    effect. *)
Theorem format_time_token_free (rt : Runtime) (dt : datetime) (fmt : string) :
  token_free fmt = true ->
  format_template (fields dt) fmt = fmt
  /\ format_time rt dt fmt None = strftime (fields dt) fmt.
Proof.
  intros H. split; [now apply format_template_id|].
  unfold format_time. rewrite convert_none. cbn [bind].
  now rewrite format_template_id.
Qed.

Lemma format_time_token_free_witness :
  format_time Sample.sample_runtime (naive_datetime Sample.sample_now) "%y%%" None
  = Return "24%".
Proof.
  exact (proj2 (format_time_token_free Sample.sample_runtime
                  (naive_datetime Sample.sample_now) "%y%%" eq_refl)).
Defined.

Section TokenFacts.










End TokenFacts.

Section SeparatedFacts.



End SeparatedFacts.



Section IntCharFacts.

Lemma lstrip_chars (s : string) (c : ascii) :
  occurs c s = true -> PyInt.is_space c = true \/ occurs c (PyInt.lstrip s) = true.
Proof.
  induction s as [|x s IH]; [discriminate|].
  cbn [occurs PyInt.lstrip]. destruct (PyInt.is_space x) eqn:Ex.
  - rewrite orb_true_iff. intros [H|H]; [|now apply IH].
    apply Ascii.eqb_eq in H. subst. now left.
  - intros H. right. exact H.
Qed.

Lemma rstrip_chars (s : string) (c : ascii) :
  occurs c s = true -> PyInt.is_space c = true \/ occurs c (PyInt.rstrip s) = true.
Proof.
  induction s as [|x s IH]; [discriminate|].
  cbn [occurs PyInt.rstrip]. rewrite orb_true_iff. intros [H|H].
  - apply Ascii.eqb_eq in H. subst x.
    destruct (PyInt.rstrip s).
    + destruct (PyInt.is_space c) eqn:E; [now left|].
      right. cbn [occurs]. now rewrite Ascii.eqb_refl.
    + right. cbn [occurs]. now rewrite Ascii.eqb_refl.
  - destruct (IH H) as [Hs|Hr]; [now left|]. right.
    destruct (PyInt.rstrip s) as [|y r]; [discriminate Hr|].
    cbn [occurs] in *. now rewrite Hr, orb_true_r.
Qed.

Lemma digits_chars (s : string) (acc : Z) (b : bool) (n : Z) (c : ascii) :
  PyInt.digits acc b s = Some n -> occurs c s = true -> int_char c = true.
Proof.
  revert acc b. induction s as [|x s IH]; intros acc b Hd Hc; [discriminate Hc|].
  cbn [PyInt.digits] in Hd. cbn [occurs] in Hc.
  apply orb_true_iff in Hc. destruct Hc as [Hc|Hc].
  - apply Ascii.eqb_eq in Hc. subst x. unfold int_char.
    destruct (is_digit c); [reflexivity|].
    destruct (Ascii.eqb c "_"); [now rewrite !orb_true_r|discriminate Hd].
  - destruct (is_digit x); [now apply (IH _ _ Hd)|].
    destruct (Ascii.eqb x "_"); [|discriminate Hd].
    destruct b; [now apply (IH _ _ Hd)|discriminate Hd].
Qed.

Lemma literal_unsigned (x : ascii) (s : string) :
  x <> "+"%char -> x <> "-"%char ->
  PyInt.literal (String x s) = PyInt.digits 0 false (String x s).
Proof.
  intros Hp Hm.
  destruct x as [[|] [|] [|] [|] [|] [|] [|] [|]]; try reflexivity;
    [now elim Hp|now elim Hm].
Qed.

Lemma literal_chars (s : string) (n : Z) (c : ascii) :
  PyInt.literal s = Some n -> occurs c s = true -> int_char c = true.
Proof.
  destruct s as [|x s]; [discriminate 2|].
  destruct (ascii_dec x "+") as [->|Hp].
  { cbn [PyInt.literal occurs]. intros Hd Hc.
    apply orb_true_iff in Hc. destruct Hc as [Hc|Hc].
    - apply Ascii.eqb_eq in Hc. now subst c.
    - exact (digits_chars _ _ _ _ _ Hd Hc). }
  destruct (ascii_dec x "-") as [->|Hm].
  { cbn [PyInt.literal occurs]. intros Hd Hc.
    apply orb_true_iff in Hc. destruct Hc as [Hc|Hc].
    - apply Ascii.eqb_eq in Hc. now subst c.
    - destruct (PyInt.digits 0 false s) as [m|] eqn:E; [|discriminate Hd].
      exact (digits_chars _ _ _ _ _ E Hc). }
  rewrite literal_unsigned by assumption. apply digits_chars.
Qed.

Lemma space_int_char (c : ascii) : PyInt.is_space c = true -> int_char c = true.
Proof. unfold int_char. intros ->. now rewrite orb_true_r. Qed.

(** [int] rejects a string holding a character no integer literal has. *)
Lemma int_rejects (s : string) (c : ascii) :
  PyInt.is_ascii s = true -> occurs c s = true -> int_char c = false ->
  PyInt.int s = Raise ValueError.
Proof.
  intros Ha Hc Hi. unfold PyInt.int, PyInt.parse. rewrite Ha. cbv zeta.
  destruct (PyInt.literal (PyInt.rstrip (PyInt.lstrip s))) as [n|] eqn:E; [|reflexivity].
  exfalso.
  destruct (lstrip_chars s c Hc) as [H|H];
    [rewrite (space_int_char c H) in Hi; discriminate|].
  destruct (rstrip_chars _ c H) as [H'|H'];
    [rewrite (space_int_char c H') in Hi; discriminate|].
  rewrite (literal_chars _ n c E H') in Hi. discriminate.
Qed.

End IntCharFacts.

(** X20. [timestamp_to_date] reads its argument with [int], not as a
    number with a fraction: an argument holding any character other
    than digits, blanks, a sign or an underscore, a decimal point or an
    exponent for one, gets the diagnostic. *)
Theorem timestamp_to_date_rejects (rt : Runtime) (ts : string) (c : ascii) :
  PyInt.is_ascii ts = true -> occurs c ts = true -> int_char c = false ->
  timestamp_to_date rt ts = Return INVALID_TIMESTAMP.
Proof.
  intros Ha Hc Hi. unfold timestamp_to_date.
  now rewrite (int_rejects ts c Ha Hc Hi).
Qed.

Lemma timestamp_to_date_rejects_witness :
  timestamp_to_date Sample.sample_runtime "1700000000.5" = Return INVALID_TIMESTAMP
  /\ timestamp_to_date Sample.sample_runtime "1.7e9" = Return INVALID_TIMESTAMP.
Proof.
  split.
  - apply (timestamp_to_date_rejects Sample.sample_runtime "1700000000.5" "."%char);
      reflexivity.
  - apply (timestamp_to_date_rejects Sample.sample_runtime "1.7e9" "e"%char);
      reflexivity.
Defined.

(** X21. The lines of a run that shows the clock.  After the line of the
    system time: with a format of one's own and no [--timezone],
    nothing; with the default format and no [--timezone], the UTC line;
    with a [--timezone] that [ZoneInfo] resolves, the line of that
    zone, and no UTC line whatever the format. *)
Theorem main_clock_lines (rt : Runtime) (args : Args) (shown : string) :
  arg_unix args = false ->
  truthy (arg_timestamp args) = false ->
  truthy (arg_diff args) = false ->
  format_time rt (naive_datetime (now rt)) (arg_format args) None = Return shown ->
  (truthy (arg_timezone args) = false -> arg_format args <> DEFAULT_FORMAT ->
   main rt args = (["系统时间: " ++ shown], Return tt))
  /\ (forall u,
         truthy (arg_timezone args) = false -> arg_format args = DEFAULT_FORMAT ->
         format_time rt (naive_datetime (now rt)) DEFAULT_FORMAT (Some "UTC") = Return u ->
         main rt args = (["系统时间: " ++ shown; "UTC 时间: " ++ u], Return tt))
  /\ (forall tz ctor s,
         arg_timezone args = Some tz -> tz <> EmptyString ->
         ZoneInfo rt = Some ctor ->
         format_time rt (naive_datetime (now rt)) (arg_format args) (Some tz) = Return s ->
         main rt args = (["系统时间: " ++ shown; tz ++ ": " ++ s], Return tt)).
Proof.
  intros Hu Ht Hd Hs. unfold main. rewrite Hu, Ht, Hd, Hs. unfold print at 1.
  split; [|split].
  - intros Hz Hf. rewrite Hz. apply String.eqb_neq in Hf. rewrite Hf.
    cbn [negb andb]. unfold print_zone. rewrite Hz.
    destruct (arg_timezone args); reflexivity.
  - intros u Hz Hf Hutc. rewrite Hz, Hf, String.eqb_refl. cbn [negb andb].
    rewrite Hutc. unfold print. unfold print_zone. rewrite Hz.
    destruct (arg_timezone args); reflexivity.
  - intros tz ctor s Hz Hne Hc Hfz. rewrite Hz.
    destruct tz as [|c r]; [contradiction|]. cbn [truthy negb andb].
    unfold print_zone. rewrite Hz, Hc. cbn [truthy]. rewrite Hfz. reflexivity.
Qed.

Lemma main_clock_lines_witness :
  main Sample.sample_runtime Sample.plain_args
  = (["系统时间: 2024-03-15 10:30:00"; "UTC 时间: 2024-03-15 02:30:00"], Return tt)
  /\ main Sample.sample_runtime (Sample.zone_args "Asia/Tokyo")
     = (["系统时间: 2024-03-15 10:30:00"; "Asia/Tokyo: 2024-03-15 11:30:00"],
        Return tt).
Proof.
  split.
  - destruct (main_clock_lines Sample.sample_runtime Sample.plain_args
                "2024-03-15 10:30:00" eq_refl eq_refl eq_refl eq_refl)
      as [_ [H _]].
    exact (H "2024-03-15 02:30:00" eq_refl eq_refl eq_refl).
  - destruct (main_clock_lines Sample.sample_runtime (Sample.zone_args "Asia/Tokyo")
                "2024-03-15 10:30:00" eq_refl eq_refl eq_refl eq_refl)
      as [_ [_ H]].
    exact (H "Asia/Tokyo" Sample.sample_zones "2024-03-15 11:30:00"
             eq_refl ltac:(discriminate) eq_refl eq_refl).
Defined.

(** X22. The split between seconds and milliseconds at [10^12] takes a
    millisecond count of an instant before 2001-09-09 01:46:40 UTC for
    seconds.  From 253402387200 on (as milliseconds, instants from
    1978-01-11 on) those seconds lie past the year 9999, and what is
    returned is the diagnostic, not a date. *)
Theorem timestamp_to_date_early_milliseconds (rt : Runtime) (n : Z) :
  253402387200 <= n < 10 ^ 12 ->
  -86400 <= localtime_offset (local rt) n ->
  timestamp_to_date rt (str_of_Z n) = Return INVALID_TIMESTAMP.
Proof.
  intros Hn Hoff.
  rewrite (timestamp_to_date_seconds rt _ n) by (try apply int_str_of_Z_small; lia).
  unfold shown_at.
  pose proof (of_wall_year_late (n + localtime_offset (local rt) n) 0 ltac:(lia)) as Hy.
  unfold year_in_range, MAXYEAR.
  replace (year (of_wall (n + localtime_offset (local rt) n) 0) <=? 9999) with false
    by (symmetry; apply Z.leb_gt; lia).
  now rewrite andb_false_r.
Qed.

Lemma timestamp_to_date_early_milliseconds_witness :
  timestamp_to_date Sample.sample_runtime "946684800000" = Return INVALID_TIMESTAMP.
Proof.
  apply (timestamp_to_date_early_milliseconds Sample.sample_runtime 946684800000).
  - vm_compute. split; [discriminate|reflexivity].
  - vm_compute. discriminate.
Defined.
